(** * resolve_sets.py: the PlateSet grid and the pool deconvolution [solve]

    A shallow embedding of [src/resolve_sets.py].  Python values that the
    code inspects dynamically (constructor arguments, seeds, the stored
    dimensions) are values of [pyval]; exceptions are results [Raise e];
    methods that mutate [self] are computations in a state-and-exception
    monad in which the state survives a raised exception, as it does for
    a Python object. *)

From Stdlib Require Import ZArith String Ascii SpecFloat DecimalString.
From Stdlib Require DecimalPos DecimalZ.
From stdpp Require Import base tactics option numbers list strings gmap.

Local Open Scope Z_scope.

(** ** Python values *)

Module Py.

(** The dynamic values the program is given: [None], booleans, integers
    (unbounded), IEEE binary64 floats and strings. *)
Inductive pyval :=
| PyNone
| PyBool (b : bool)
| PyInt (z : Z)
| PyFloat (f : spec_float)
| PyStr (s : string).

(** Where an exception comes from: one of the [raise] statements of the
    module, or a Python builtin ([range], [*], [int], indexing). *)
Inductive origin :=
| InitNonFloatLike   (* "... with non float-like data." *)
| InitNonNumber      (* "... with non-number data." *)
| GetOutside         (* "Trying to get value of well outside of grid." *)
| InsertOutside      (* "Trying to insert a value in a well outside of grid." *)
| RemoveOutside      (* "Trying to remove value from a well outside of grid." *)
| FillIncompatible   (* "Cannot fill ... (incompatible dimensions)." *)
| WellTransform      (* "Cannot transform index to well number ..." *)
| Builtin.

Inductive exn :=
| TypeError (o : origin)
| ValueError (o : origin)
| OverflowError
| IndexError
| KeyError.

Inductive res (A : Type) :=
| Ok (a : A)
| Raise (e : exn).
Arguments Ok {A} a.
Arguments Raise {A} e.

(** Sequencing: [x <- m ;; k] runs [m] and, unless it raised, [k]. *)
Definition res_bind {A B} (m : res A) (f : A -> res B) : res B :=
  match m with Ok a => f a | Raise e => Raise e end.

Notation "x <- m ;; k" := (res_bind m (fun x => k))
  (at level 100, m at next level, right associativity).

(** [isinstance(x, int)]: [bool] is a subclass of [int]. *)
Definition as_index (x : pyval) : option Z :=
  match x with
  | PyInt z => Some z
  | PyBool b => Some (if b then 1 else 0)
  | _ => None
  end.

Definition isinstance_int (x : pyval) : bool :=
  match as_index x with Some _ => true | None => false end.

(** binary64 *)
Definition prec : Z := 53.
Definition emax : Z := 1024.

(** [int(f)] on a float truncates towards zero; it raises on infinities
    and on NaN. *)
Definition float_to_int (f : spec_float) : res Z :=
  match f with
  | S754_zero _ => Ok 0
  | S754_infinity _ => Raise OverflowError
  | S754_nan => Raise (ValueError Builtin)
  | S754_finite s m e =>
      let a := if 0 <=? e then Z.pos m * 2 ^ e else Z.pos m / 2 ^ (- e) in
      Ok (if s then - a else a)
  end.

(** [f == z] between a float and an integer compares the exact values. *)
Definition float_eq_int (f : spec_float) (z : Z) : bool :=
  match f with
  | S754_zero _ => z =? 0
  | S754_finite s m e =>
      let sz := if s then - z else z in
      if 0 <=? e then sz =? Z.pos m * 2 ^ e
      else (Z.pos m mod 2 ^ (- e) =? 0) && (sz =? Z.pos m / 2 ^ (- e))
  | _ => false
  end.

(** The conversion of an integer operand to a float: rounded to nearest
    even, [OverflowError] when it does not fit. *)
Definition int_to_float (z : Z) : res spec_float :=
  match binary_normalize prec emax z 0 false with
  | S754_infinity _ => Raise OverflowError
  | f => Ok f
  end.

Definition py_eq (x y : pyval) : bool :=
  match x, y with
  | PyNone, PyNone => true
  | PyStr s, PyStr t => String.eqb s t
  | PyFloat f, PyFloat g => SFeqb f g
  | PyFloat f, _ => match as_index y with Some z => float_eq_int f z | None => false end
  | _, PyFloat g => match as_index x with Some z => float_eq_int g z | None => false end
  | _, _ =>
      match as_index x, as_index y with
      | Some a, Some b => a =? b
      | _, _ => false
      end
  end.

Fixpoint str_repeat (s : string) (n : nat) : string :=
  match n with
  | O => ""%string
  | S n' => (s ++ str_repeat s n')%string
  end.

(** [x * y].  A string times an integer repeats the string (not at all
    for a count below one); an integer times a float converts the integer
    first; anything else among these values is a [TypeError]. *)
Definition py_mul (x y : pyval) : res pyval :=
  match x, y with
  | PyStr s, PyStr _ => Raise (TypeError Builtin)
  | PyStr s, _ =>
      match as_index y with
      | Some n => Ok (PyStr (str_repeat s (Z.to_nat n)))
      | None => Raise (TypeError Builtin)
      end
  | _, PyStr s =>
      match as_index x with
      | Some n => Ok (PyStr (str_repeat s (Z.to_nat n)))
      | None => Raise (TypeError Builtin)
      end
  | PyFloat f, PyFloat g => Ok (PyFloat (SFmul prec emax f g))
  | PyFloat f, _ =>
      match as_index y with
      | Some b => g <- int_to_float b;; Ok (PyFloat (SFmul prec emax f g))
      | None => Raise (TypeError Builtin)
      end
  | _, PyFloat g =>
      match as_index x with
      | Some a => f <- int_to_float a;; Ok (PyFloat (SFmul prec emax f g))
      | None => Raise (TypeError Builtin)
      end
  | _, _ =>
      match as_index x, as_index y with
      | Some a, Some b => Ok (PyInt (a * b))
      | _, _ => Raise (TypeError Builtin)
      end
  end.

(** Truth value of [if x:]. *)
Definition truthy (x : pyval) : bool :=
  match x with
  | PyNone => false
  | PyBool b => b
  | PyInt z => negb (z =? 0)
  | PyFloat (S754_zero _) => false
  | PyFloat _ => true
  | PyStr s => negb (String.eqb s "")
  end.

(** [range(n)]: a [TypeError] unless [n] is an integer; empty for
    [n <= 0]. *)
Definition range_list (n : Z) : list Z := seqZ 0 n.

Definition py_range (n : pyval) : res (list Z) :=
  match as_index n with
  | Some z => Ok (range_list z)
  | None => Raise (TypeError Builtin)
  end.

(** [i in range(n)] for an integer [i]. *)
Definition in_range (i : Z) (n : pyval) : res bool :=
  match as_index n with
  | Some z => Ok ((0 <=? i) && (i <? z))
  | None => Raise (TypeError Builtin)
  end.

(** [l[i]] and [l[i] = x] with Python's negative indices. *)
Definition norm_index {A} (l : list A) (i : Z) : option nat :=
  let j := if i <? 0 then i + Z.of_nat (length l) else i in
  if (0 <=? j) && (j <? Z.of_nat (length l)) then Some (Z.to_nat j) else None.

Definition getitem {A} (l : list A) (i : Z) : res A :=
  match norm_index l i with
  | Some j => match l !! j with Some x => Ok x | None => Raise IndexError end
  | None => Raise IndexError
  end.

Definition setitem {A} (l : list A) (i : Z) (x : A) : res (list A) :=
  match norm_index l i with
  | Some j => Ok (<[j := x]> l)
  | None => Raise IndexError
  end.

(** [str(z)] *)
Definition str (z : Z) : string := NilZero.string_of_int (Z.to_int z).

End Py.
Import Py.

(** ** State and exceptions *)

(** A computation over a mutable state [S]: the state reached is kept
    when an exception is raised. *)
Definition M (S A : Type) : Type := S -> res A * S.

Definition M_ret {S A} (a : A) : M S A := fun s => (Ok a, s).
Definition M_bind {S A B} (m : M S A) (f : A -> M S B) : M S B := fun s =>
  match m s with
  | (Ok a, s') => f a s'
  | (Raise e, s') => (Raise e, s')
  end.

Notation "x <~ m ;; k" := (M_bind m (fun x => k))
  (at level 100, m at next level, right associativity).
Notation "m ;;; k" := (M_bind m (fun _ => k))
  (at level 100, right associativity).

Definition lift {S A} (r : res A) : M S A := fun s => (r, s).
Definition get_state {S} : M S S := fun s => (Ok s, s).

(** [for x in l: body(x)] *)
Fixpoint for_each {S A} (l : list A) (body : A -> M S unit) : M S unit :=
  match l with
  | [] => M_ret tt
  | x :: l' => body x ;;; for_each l' body
  end.

(** A loop that threads an accumulator and only reads. *)
Fixpoint foldM {A B} (f : B -> A -> res B) (l : list A) (acc : B) : res B :=
  match l with
  | [] => Ok acc
  | x :: l' => acc' <- f acc x;; foldM f l' acc'
  end.

(** A reading loop whose body may [return]: [Some v] is the value
    returned from inside the loop, [None] means the loop ran to its end. *)
Fixpoint for_return {A B} (l : list A) (body : A -> res (option B)) : res (option B) :=
  match l with
  | [] => Ok None
  | x :: l' =>
      r <- body x;;
      match r with
      | Some v => Ok (Some v)
      | None => for_return l' body
      end
  end.

Fixpoint mapM {A B} (f : A -> res B) (l : list A) : res (list B) :=
  match l with
  | [] => Ok []
  | x :: l' => y <- f x;; ys <- mapM f l';; Ok (y :: ys)
  end.

(** ** The grid: class [PlateSet] *)

Definition FILL : Z := 5.

(** The attributes set by [__init__].  [num_rows] and [num_cols] hold
    whatever the constructor stored, which is an integer in every grid
    with at least one row. *)
Record PlateSet := mkPlateSet {
  num_rows : pyval;
  num_cols : pyval;
  num_wells : pyval;
  _null : string;
  grid : list (list string)
}.

Definition set_grid (p : PlateSet) (g : list (list string)) : PlateSet :=
  {| num_rows := num_rows p; num_cols := num_cols p; num_wells := num_wells p;
     _null := _null p; grid := g |}.

(** [*position]: two arguments [row, col], or one pair [(row, col)]; the
    [try]/[except ValueError] of each method unpacks either. *)
Inductive position :=
| Pos2 (row col : Z)
| Pos1 (rc : Z * Z).

Definition unpack (pos : position) : Z * Z :=
  match pos with
  | Pos2 row col => (row, col)
  | Pos1 rc => rc
  end.

(** The first [if]/[elif] of [__init__]: the type check and the
    conversion of two floats. *)
Definition check_dims (rows cols : pyval) : res (pyval * pyval) :=
  match rows, cols with
  | PyFloat fr, PyFloat fc =>
      ir <- float_to_int fr;;
      if negb (float_eq_int fr ir) then Raise (TypeError InitNonFloatLike)
      else
        ic <- float_to_int fc;;
        if negb (float_eq_int fc ic) then Raise (TypeError InitNonFloatLike)
        else Ok (PyInt ir, PyInt ic)
  | _, _ =>
      if negb (isinstance_int rows || isinstance_int cols)
      then Raise (TypeError InitNonNumber)
      else Ok (rows, cols)
  end.

Definition PlateSet_init (rows cols : pyval) : res PlateSet :=
  dims <- check_dims rows cols;;
  let '(rows, cols) := dims in
  wells <- py_mul cols rows;;
  let null := str_repeat "x" (Z.to_nat FILL) in
  outer <- py_range rows;;
  g <- mapM (fun _ => inner <- py_range cols;; Ok ((fun _ => null) <$> inner)) outer;;
  Ok {| num_rows := rows; num_cols := cols; num_wells := wells;
        _null := null; grid := g |}.

(** [row in range(self.num_rows) and col in range(self.num_cols)] *)
Definition in_grid (self : PlateSet) (row col : Z) : res bool :=
  r <- in_range row (num_rows self);;
  if r then in_range col (num_cols self) else Ok false.

Definition value_of (self : PlateSet) (pos : position) : res string :=
  let '(row, col) := unpack pos in
  ok <- in_grid self row col;;
  if negb ok then Raise (ValueError GetOutside)
  else cells <- getitem (grid self) row;; getitem cells col.

Definition get_rows (self : PlateSet) : list (list string) := grid self.

(** [self.grid[row][col] = value] *)
Definition store (self : PlateSet) (row col : Z) (value : string) : res PlateSet :=
  cells <- getitem (grid self) row;;
  cells' <- setitem cells col value;;
  g <- setitem (grid self) row cells';;
  Ok (set_grid self g).

Definition insert (value : string) (pos : position) : M PlateSet unit :=
  fun self =>
    let '(row, col) := unpack pos in
    match in_grid self row col with
    | Raise e => (Raise e, self)
    | Ok false => (Raise (ValueError InsertOutside), self)
    | Ok true =>
        match store self row col value with
        | Ok self' => (Ok tt, self')
        | Raise e => (Raise e, self)
        end
    end.

Definition remove (pos : position) : M PlateSet unit :=
  fun self =>
    let '(row, col) := unpack pos in
    match in_grid self row col with
    | Raise e => (Raise e, self)
    | Ok false => (Raise (ValueError RemoveOutside), self)
    | Ok true =>
        match store self row col (_null self) with
        | Ok self' => (Ok tt, self')
        | Raise e => (Raise e, self)
        end
    end.

(** The two nested [for] loops over [range(num_rows)] and
    [range(num_cols)]; the inner [range] is built once per row. *)
Definition for_wells {S} (rows cols : pyval) (body : Z -> Z -> M S unit) : M S unit :=
  rs <~ lift (py_range rows);;
  for_each rs (fun row_idx =>
    cs <~ lift (py_range cols);;
    for_each cs (fun col_idx => body row_idx col_idx)).

Definition count_defaults (self : PlateSet) : res Z :=
  rs <- py_range (num_rows self);;
  foldM (fun num_default row_idx =>
    cs <- py_range (num_cols self);;
    foldM (fun num_default col_idx =>
      v <- value_of self (Pos2 row_idx col_idx);;
      Ok (if String.eqb v (_null self) then num_default + 1 else num_default))
      cs num_default)
    rs 0.

Definition clear : M PlateSet unit :=
  fun self =>
    for_wells (num_rows self) (num_cols self)
      (fun row_idx col_idx => remove (Pos2 row_idx col_idx)) self.

Definition fill_by_other (other : PlateSet) : M PlateSet unit :=
  fun self =>
    if negb (py_eq (num_rows self) (num_rows other))
       && negb (py_eq (num_cols self) (num_rows other))
    then (Raise (ValueError FillIncompatible), self)
    else
      for_wells (num_rows other) (num_cols other)
        (fun row_idx col_idx =>
           v <~ lift (value_of other (Pos2 row_idx col_idx));;
           insert v (Pos2 row_idx col_idx)) self.

Definition is_equal_to (self other : PlateSet) : res bool :=
  if negb (py_eq (num_rows self) (num_rows other))
     && py_eq (num_cols self) (num_cols other)
  then Ok false
  else
    rs <- py_range (num_rows self);;
    r <- for_return rs (fun row_idx =>
          cs <- py_range (num_cols self);;
          for_return cs (fun col_idx =>
            a <- value_of self (Pos2 row_idx col_idx);;
            b <- value_of other (Pos2 row_idx col_idx);;
            Ok (if negb (String.eqb a b) then Some false else None)));;
    Ok (match r with Some b => b | None => true end).

(** [int(x)].  What [int] makes of a string (digits, sign, blanks,
    underscores) is the builtin's own affair and is left open as
    [int_of_str]. *)
Section Copy.
Variable int_of_str : string -> res Z.

Definition py_int (x : pyval) : res Z :=
  match x with
  | PyNone => Raise (TypeError Builtin)
  | PyBool b => Ok (if b then 1 else 0)
  | PyInt z => Ok z
  | PyFloat f => float_to_int f
  | PyStr s => int_of_str s
  end.

Definition copy (self : PlateSet) : res PlateSet :=
  rows <- py_int (num_rows self);;
  cols <- py_int (num_cols self);;
  fresh <- PlateSet_init (PyInt rows) (PyInt cols);;
  match for_wells (num_rows self) (num_cols self)
          (fun row_idx col_idx =>
             v <~ lift (value_of self (Pos2 row_idx col_idx));;
             insert v (Pos2 row_idx col_idx)) fresh with
  | (Ok _, copy) => Ok copy
  | (Raise e, _) => Raise e
  end.
End Copy.

(** ** Dictionaries and sets *)

(** A [dict] in insertion order, which is the order Python iterates it
    in.  Keys are unique: [dict_set] overwrites in place. *)
Abbreviation dict K V := (list (K * V)) (only parsing).

Section Dict.
Context {K V : Type} `{EqDecision K}.

Definition dict_mem (d : dict K V) (k : K) : bool := bool_decide (k ∈ d.*1).

(** [d[k]] *)
Fixpoint dict_get (d : dict K V) (k : K) : res V :=
  match d with
  | [] => Raise KeyError
  | (k', v) :: d' => if decide (k' = k) then Ok v else dict_get d' k
  end.

(** [d[k].method(...)]: the value stored under [k] is replaced by [f]
    of it; a [KeyError] if [k] is missing. *)
Fixpoint dict_update (d : dict K V) (k : K) (f : V -> V) : res (dict K V) :=
  match d with
  | [] => Raise KeyError
  | (k', v) :: d' =>
      if decide (k' = k) then Ok ((k', f v) :: d')
      else d'' <- dict_update d' k f;; Ok ((k', v) :: d'')
  end.

(** [d[k] = v] *)
Fixpoint dict_set (d : dict K V) (k : K) (v : V) : dict K V :=
  match d with
  | [] => [(k, v)]
  | (k', v') :: d' =>
      if decide (k' = k) then (k', v) :: d' else (k', v') :: dict_set d' k v
  end.
End Dict.

(** A [set] of strings as the list of its members without repetition.
    The order of the list is the order in which a [for] loop visits the
    members, which Python leaves unspecified. *)
Abbreviation pyset := (list string) (only parsing).

Definition set_add (v : string) (s : pyset) : pyset :=
  if bool_decide (v ∈ s) then s else s ++ [v].

Abbreviation pools := (list (Z * list string)) (only parsing).

(** [enumerate(l)] *)
Definition enumerate {A} (l : list A) : list (Z * A) :=
  imap (fun i x => (Z.of_nat i, x)) l.

Definition get_cols (self : PlateSet) : res (list (list string)) :=
  idxs <- py_range (num_cols self);;
  let cols : dict Z (list string) := (fun i => (i, [])) <$> idxs in
  rs <- py_range (num_rows self);;
  cols <- foldM (fun cols row_idx =>
            cs <- py_range (num_cols self);;
            foldM (fun cols col_idx =>
              v <- value_of self (Pos2 row_idx col_idx);;
              dict_update cols col_idx (fun l => l ++ [v]))
              cs cols)
            rs cols;;
  idxs <- py_range (num_cols self);;
  mapM (fun i => dict_get cols i) idxs.

(** The loop shared by [hpools] and [vpools]: every value of line [idx]
    is added to the set stored under [idx]. *)
Definition pool_lines (lines : list (list string)) (d : pools) : res pools :=
  foldM (fun d '(idx, line) =>
           foldM (fun d value => dict_update d idx (set_add value)) line d)
        (enumerate lines) d.

Definition hpools (self : PlateSet) : res pools :=
  idxs <- py_range (num_rows self);;
  let hpools : pools := (fun i => (i, [])) <$> idxs in
  pool_lines (get_rows self) hpools.

Definition vpools (self : PlateSet) : res pools :=
  idxs <- py_range (num_cols self);;
  let vpools : pools := (fun i => (i, [])) <$> idxs in
  cols <- get_cols self;;
  pool_lines cols vpools.

(** ** Plate number and well label *)

Definition offset_to_num : gmap (Z * Z) Z :=
  {[ (0, 0) := 0; (0, 1) := 1; (1, 0) := 2; (1, 1) := 3 ]}.

Definition _indices_to_well (self : PlateSet) (pos : position) (start_at : Z) : res string :=
  let '(row, col) := unpack pos in
  if (row >? 16) || (col >? 24) then Raise (ValueError WellTransform)
  else
    let plate_row_offset := row / 8 in
    let plate_col_offset := col / 12 in
    n <- (match offset_to_num !! (plate_row_offset, plate_col_offset) with
          | Some n => Ok n
          | None => Raise KeyError
          end);;
    let plate_number := start_at + n in
    let row := row mod 8 in
    let col := col mod 12 in
    letter <- getitem (list_ascii_of_string "ABCDEFGH") row;;
    let well := (String letter "" ++ str (col + 1))%string in
    Ok ("Plate " ++ str plate_number ++ " " ++ well)%string.

(** ** Export *)

(** [s.lower()] on the ASCII letters, which is all that the comparison
    with ["csv"] can depend on. *)
Definition lower_ascii (a : ascii) : ascii :=
  let n := nat_of_ascii a in
  if ((65 <=? n) && (n <=? 90))%nat then ascii_of_nat (n + 32) else a.

Fixpoint str_lower (s : string) : string :=
  match s with
  | EmptyString => EmptyString
  | String a s' => String (lower_ascii a) (str_lower s')
  end.

(** [a in s] for a single character. *)
Fixpoint str_has (a : ascii) (s : string) : bool :=
  match s with
  | EmptyString => false
  | String b s' => Ascii.eqb a b || str_has a s'
  end.

(** How a call of [export] ends: the file name opened for writing and
    the text written to it, a [NotImplementedError], or an exception
    raised while the text is built (nothing is written then).  The file
    system itself is not modelled. *)
Inductive export_outcome :=
| Written (filename content : string)
| NotImplemented
| ExportRaised (e : exn).

(** The text [to_print] built by the two loops of [export]. *)
Definition export_text (self : PlateSet) (start_at : Z) : res string :=
  rs <- py_range (num_rows self);;
  foldM (fun to_print row_idx =>
    cs <- py_range (num_cols self);;
    foldM (fun to_print col_idx =>
      label <- _indices_to_well self (Pos2 row_idx col_idx) start_at;;
      v <- value_of self (Pos2 row_idx col_idx);;
      Ok ((to_print ++ (label ++ ";" ++ v)) ++ String "010" "")%string)
      cs to_print)
    rs ""%string.

Definition export (self : PlateSet) (filename type : string) (start_at : Z) : export_outcome :=
  let filename :=
    if negb (str_has "." filename) then (filename ++ ("." ++ type))%string else filename in
  if String.eqb (str_lower type) "csv"
  then match export_text self start_at with
       | Ok to_print => Written filename to_print
       | Raise e => ExportRaised e
       end
  else NotImplemented.

(** ** The deconvolution *)

Abbreviation candidate_map := (list (string * list (Z * Z))) (only parsing).

(** The body of the innermost loop of [solve]. *)
Definition record_candidate (solved_items : candidate_map) (item : string)
    (pos : Z * Z) : res candidate_map :=
  if dict_mem solved_items item
  then dict_update solved_items item (fun l => l ++ [pos])
  else Ok (dict_set solved_items item [pos]).

Definition scan (hpools vpools : pools) : res candidate_map :=
  foldM (fun solved_items '(hpool_idx, hpool_set) =>
    foldM (fun solved_items item =>
      foldM (fun solved_items '(vpool_idx, vpool_set) =>
               if bool_decide (item ∈ vpool_set)
               then record_candidate solved_items item (hpool_idx, vpool_idx)
               else Ok solved_items)
            vpools solved_items)
      hpool_set solved_items)
    hpools [].

(** The body of the second loop of [solve]. *)
Definition place_item (solved_items : candidate_map) (item : string) : M PlateSet unit :=
  cands <~ lift (dict_get solved_items item);;
  if Z.of_nat (length cands) =? 1
  then first <~ lift (getitem cands 0);; insert item (Pos1 first)
  else M_ret tt.

Definition place (solved_items : candidate_map) : M PlateSet unit :=
  for_each (solved_items.*1) (place_item solved_items).

Definition solve (hpools vpools : pools) (num_rows num_cols : pyval) : res PlateSet :=
  solved_set <- PlateSet_init num_rows num_cols;;
  solved_items <- scan hpools vpools;;
  match place solved_items solved_set with
  | (Ok _, solved_set) => Ok solved_set
  | (Raise e, _) => Raise e
  end.

(** ** Random filling *)

(** [itertools.combinations(l, r)]: the sub-sequences of length [r], in
    the order of the positions they take their elements from. *)
Fixpoint combinations {A} (l : list A) (r : nat) {struct l} : list (list A) :=
  match r, l with
  | O, _ => [[]]
  | S _, [] => []
  | S r', x :: l' => (cons x <$> combinations l' r') ++ combinations l' r
  end.

Definition alphabet : list ascii :=
  list_ascii_of_string "ABCDEFGHIJKLMNOPQRSTUVWXYZ".

Section Random.
(** The module [random] is not part of the program.  Its generator is
    a state; [random.seed(a)] installs a state that depends on [a]
    alone, and [random.choice(seq)] indexes [seq] with a number the
    generator draws below [len(seq)], moving the generator on.  (A NaN
    seed, which CPython hashes by identity, is outside this model.) *)
Variable rng : Type.
Variable seed_state : pyval -> rng.
Variable randbelow : rng -> Z -> Z * rng.

(** The state of a run: the grid [self] and the module-global
    generator. *)
Definition world : Type := PlateSet * rng.

Definition on_self {A} (m : M PlateSet A) : M world A :=
  fun w => let '(r, self) := m w.1 in (r, (self, w.2)).

Definition random_seed (a : pyval) : M world unit :=
  fun w => (Ok tt, (w.1, seed_state a)).

Definition random_choice {A} (seq : list A) : M world A :=
  fun w =>
    match seq with
    | [] => (Raise IndexError, w)
    | _ => let '(i, st) := randbelow w.2 (Z.of_nat (length seq)) in
           (getitem seq i, (w.1, st))
    end.

(** The body of the loop of [fill_randomly]. *)
Definition fill_cell (elements : list (list ascii)) (row_idx col_idx : Z) : M world unit :=
  chosen <~ random_choice elements;;
  let value := string_of_list_ascii chosen in
  on_self (insert value (Pos2 row_idx col_idx)).

Definition fill_randomly (seed : pyval) : M world unit :=
  (if truthy seed then random_seed seed else M_ret tt) ;;;
  let elements := combinations alphabet (Z.to_nat FILL) in
  (w <~ get_state;;
   for_wells (num_rows w.1) (num_cols w.1) (fill_cell elements)).
End Random.

(** * Vocabulary of the properties *)

(** [wf p R C]: the attributes of [p] are those of a grid of [R] rows and
    [C] columns as [__init__] sets them, and the cell array has that
    shape. *)
Record wf (p : PlateSet) (R C : Z) : Prop := {
  wf_rows : num_rows p = PyInt R;
  wf_cols : num_cols p = PyInt C;
  wf_wells : num_wells p = PyInt (C * R);
  wf_null : _null p = "xxxxx"%string;
  wf_len : length (grid p) = Z.to_nat R;
  wf_row_len : Forall (fun cells => length cells = Z.to_nat C) (grid p)
}.

(** The cell at row [i], column [j], if there is one. *)
Definition cell (p : PlateSet) (i j : nat) : option string :=
  match grid p !! i with
  | Some cells => cells !! j
  | None => None
  end.

(** The content of the cell at an integer coordinate inside the grid. *)
Definition val (p : PlateSet) (row col : Z) : string :=
  match cell p (Z.to_nat row) (Z.to_nat col) with
  | Some v => v
  | None => ""
  end.

(** [put p i j v]: [p] with [v] written at row [i], column [j]. *)
Definition put (p : PlateSet) (i j : nat) (v : string) : PlateSet :=
  set_grid p (alter (fun cells => <[j := v]> cells) i (grid p)).

(** Whether a coordinate is inside [R] rows and [C] columns. *)
Definition inside (R C row col : Z) : bool :=
  (0 <=? row) && (row <? R) && ((0 <=? col) && (col <? C)).

(** The grid with integer dimensions [R], [C] and cell array [g]. *)
Definition plate (R C : Z) (g : list (list string)) : PlateSet :=
  {| num_rows := PyInt R; num_cols := PyInt C; num_wells := PyInt (C * R);
     _null := "xxxxx"; grid := g |}.

(** The grid that [PlateSet(R, C)] builds: every cell the sentinel. *)
Definition empty_plate (R C : Z) : PlateSet :=
  plate R C (replicate (Z.to_nat R) (replicate (Z.to_nat C) "xxxxx"%string)).

(** The letter of a row within a plate, ["A"] to ["H"]. *)
Definition row_letter (i : Z) : string :=
  match getitem (list_ascii_of_string "ABCDEFGH") i with
  | Ok a => String a ""
  | Raise _ => ""
  end.

(** The dictionary with the keys [ks], in this order, and [F k] stored
    under [k]. *)
Definition tab {V : Type} (ks : list Z) (F : Z -> V) : dict Z V :=
  (fun k => (k, F k)) <$> ks.

(** All the values of a line added to a set, one after the other. *)
Definition add_all (line : list string) (s : list string) : list string :=
  fold_left (fun s v => set_add v s) line s.

(** A collection of pools is free of the sentinel when no pool has the
    sentinel of the grid as a member. *)
Definition sentinel_free (p : PlateSet) (d : pools) : Prop :=
  forall k s, (k, s) ∈ d -> _null p ∉ s.

(** The indices of the pools that have the item as a member, in the
    order of the dictionary. *)
Definition pools_with (d : pools) (item : string) : list Z :=
  (filter (fun e => item ∈ e.2) d).*1.

(** The candidate list of an item in the words of the specification
    (section 3, "Candidate-position map"): every pair [(r, c)] such that
    the item is a member of the row-pool [r] and of the column-pool [c].
    [scan_spec] below compares it with what the loops of [solve]
    compute. *)
Definition candidate_list (hpools vpools : pools) (item : string) : list (Z * Z) :=
  r ← pools_with hpools item; (fun c => (r, c)) <$> pools_with vpools item.

(** The list stored for an item in [solved_items]; empty when the item is
    not a key. *)
Definition cands_of (d : candidate_map) (item : string) : list (Z * Z) :=
  match dict_get d item with
  | Ok l => l
  | Raise _ => []
  end.

(** C2 read on the returned grid: a non-sentinel item is in the cell
    [(r, c)] exactly when its candidate list is [[(r, c)]]. *)
Definition placed_iff_single_candidate (hp vp : pools) (g : PlateSet) : Prop :=
  forall item r c, item <> _null g ->
    (value_of g (Pos2 r c) = Ok item <-> candidate_list hp vp item = [(r, c)]).

(** Two pool dictionaries are the same Python value when they have the
    same keys in the same order and, under each key, sets with the same
    members; the order in which a set is visited is not part of it. *)
Definition same_pools (d1 d2 : pools) : Prop :=
  Forall2 (fun e1 e2 => e1.1 = e2.1 /\ e1.2 ≡ₚ e2.2) d1 d2.

(** [d] has one pool per line [0 .. n-1], and the pool of line [k] has
    the members [w] with [Q k w]. *)
Definition pools_of_lines (Q : Z -> string -> Prop) (n : Z) (d : pools) : Prop :=
  d.*1 = seqZ 0 n /\
  forall k s, (k, s) ∈ d -> NoDup s /\ forall w, w ∈ s <-> Q k w.

(** A token: five characters, each an upper-case letter. *)
Definition is_token (v : string) : Prop :=
  length (list_ascii_of_string v) = 5%nat /\
  Forall (fun a => a ∈ alphabet) (list_ascii_of_string v).

(** A small linear congruential generator, to run examples with. *)
Definition lcg_seed (a : pyval) : Z :=
  match a with
  | PyInt z => Z.abs z
  | _ => 7
  end.

(** A draw below [n] and the next state. *)
Definition lcg_below (st n : Z) : Z * Z :=
  ((st * 7919 + 13) mod n, st * 31 + 17).

(** The entry [j] of line [i] of a table, if there is one. *)
Definition entry (t : list (list string)) (i j : nat) : option string :=
  match t !! i with
  | Some line => line !! j
  | None => None
  end.

(** The label of a well inside the 16x24 shape. *)
Definition well_label (start_at row col : Z) : string :=
  ("Plate " ++ str (start_at + (2 * (row / 8) + col / 12)) ++ " "
   ++ row_letter (row mod 8) ++ str (col mod 12 + 1))%string.

(** The line of the exported text for one cell. *)
Definition csv_line (p : PlateSet) (start_at row col : Z) : string :=
  ((well_label start_at row col ++ ";" ++ val p row col) ++ String "010" "")%string.

(** The strings of a list, one after the other. *)
Definition concat_str (l : list string) : string :=
  fold_right String.append ""%string l.

(** * Properties *)

(** ** Sequencing *)

Lemma M_bind_Ok {S A B} (m : M S A) (f : A -> M S B) (s s' : S) (a : A) :
  m s = (Ok a, s') -> M_bind m f s = f a s'.
Proof. intros H. unfold M_bind. by rewrite H. Qed.

(** ** Indexing *)

Lemma getitem_nonneg {A} (l : list A) (i : Z) :
  0 <= i ->
  getitem l i = match l !! Z.to_nat i with Some x => Ok x | None => Raise IndexError end.
Proof.
  intros Hi. unfold getitem, norm_index.
  destruct (Z.ltb_spec i 0) as [?|_]; [lia|].
  destruct (Z.leb_spec 0 i) as [_|?]; [|lia]. simpl.
  destruct (Z.ltb_spec i (Z.of_nat (length l))) as [Hlt|Hge]; [done|].
  rewrite lookup_ge_None_2; [done|lia].
Qed.

Lemma setitem_nonneg {A} (l : list A) (i : Z) (x : A) :
  0 <= i -> (Z.to_nat i < length l)%nat ->
  setitem l i x = Ok (<[Z.to_nat i := x]> l).
Proof.
  intros Hi Hlt. unfold setitem, norm_index.
  destruct (Z.ltb_spec i 0) as [?|_]; [lia|].
  destruct (Z.leb_spec 0 i) as [_|?]; [|lia]. simpl.
  destruct (Z.ltb_spec i (Z.of_nat (length l))) as [_|Hge]; [done|lia].
Qed.

(** ** Grids with integer dimensions *)

Lemma inside_spec R C row col :
  inside R C row col = true <-> (0 <= row < R /\ 0 <= col < C).
Proof. unfold inside. rewrite !andb_true_iff. lia. Qed.

Lemma inside_false R C row col :
  inside R C row col = false <-> (row < 0 \/ R <= row \/ col < 0 \/ C <= col).
Proof.
  rewrite <- not_true_iff_false, inside_spec. lia.
Qed.

Section Wf.
Context {p : PlateSet} {R C : Z} (Hwf : wf p R C).

Lemma in_grid_wf row col : in_grid p row col = Ok (inside R C row col).
Proof.
  unfold in_grid, in_range, inside.
  rewrite (wf_rows _ _ _ Hwf), (wf_cols _ _ _ Hwf). simpl.
  by destruct ((0 <=? row) && (row <? R)).
Qed.

Lemma cell_inside row col :
  0 <= row < R -> 0 <= col < C ->
  exists v, cell p (Z.to_nat row) (Z.to_nat col) = Some v.
Proof.
  intros Hr Hc. unfold cell.
  destruct (lookup_lt_is_Some_2 (grid p) (Z.to_nat row)) as [cells Hcells].
  { rewrite (wf_len _ _ _ Hwf). lia. }
  rewrite Hcells. apply lookup_lt_is_Some_2.
  pose proof (wf_row_len _ _ _ Hwf) as Hall.
  rewrite Forall_lookup in Hall. rewrite (Hall _ _ Hcells). lia.
Qed.

Lemma value_of_wf pos :
  value_of p pos =
    if inside R C (unpack pos).1 (unpack pos).2
    then match cell p (Z.to_nat (unpack pos).1) (Z.to_nat (unpack pos).2) with
         | Some v => Ok v
         | None => Raise IndexError
         end
    else Raise (ValueError GetOutside).
Proof.
  unfold value_of. destruct (unpack pos) as [row col]. simpl.
  rewrite in_grid_wf. simpl.
  destruct (inside R C row col) eqn:Hin; [|done]. simpl.
  apply inside_spec in Hin as [Hr Hc].
  rewrite getitem_nonneg by lia. unfold cell.
  destruct (grid p !! Z.to_nat row) as [cells|]; [|done]. simpl.
  by rewrite getitem_nonneg by lia.
Qed.

Lemma value_of_inside row col :
  0 <= row < R -> 0 <= col < C ->
  exists v, cell p (Z.to_nat row) (Z.to_nat col) = Some v
            /\ value_of p (Pos2 row col) = Ok v.
Proof.
  intros Hr Hc. destruct (cell_inside row col Hr Hc) as [v Hv].
  exists v. split; [done|]. rewrite value_of_wf. simpl.
  rewrite (proj2 (inside_spec R C row col)) by done. by rewrite Hv.
Qed.

Lemma store_wf row col v :
  0 <= row < R -> 0 <= col < C ->
  store p row col v = Ok (put p (Z.to_nat row) (Z.to_nat col) v).
Proof.
  intros Hr Hc. unfold store, put.
  rewrite getitem_nonneg by lia.
  destruct (lookup_lt_is_Some_2 (grid p) (Z.to_nat row)) as [cells Hcells].
  { rewrite (wf_len _ _ _ Hwf). lia. }
  rewrite Hcells. simpl.
  pose proof (wf_row_len _ _ _ Hwf) as Hall.
  rewrite Forall_lookup in Hall. specialize (Hall _ _ Hcells).
  rewrite setitem_nonneg by lia. simpl.
  rewrite setitem_nonneg; [simpl|lia|].
  2:{ rewrite (wf_len _ _ _ Hwf). lia. }
  do 2 f_equal. apply list_eq. intros k.
  rewrite list_lookup_alter, list_lookup_insert.
  destruct (decide (Z.to_nat row = k)) as [<-|Hne].
  - rewrite decide_True; [by rewrite Hcells|].
    split; [done|]. by eapply lookup_lt_Some.
  - by rewrite decide_False by tauto.
Qed.

Lemma put_wf i j v : wf (put p i j v) R C.
Proof.
  destruct Hwf as [H1 H2 H3 H4 H5 H6].
  split; simpl; try done.
  - by rewrite length_alter.
  - apply Forall_lookup. intros k cells.
    rewrite list_lookup_alter. rewrite Forall_lookup in H6.
    case_decide; [subst k|by apply H6].
    destruct (grid p !! i) as [c0|] eqn:Hc0; [|done]. simpl.
    intros [= <-]. rewrite length_insert. by eapply H6.
Qed.

Lemma insert_wf v pos :
  insert v pos p =
    if inside R C (unpack pos).1 (unpack pos).2
    then (Ok tt, put p (Z.to_nat (unpack pos).1) (Z.to_nat (unpack pos).2) v)
    else (Raise (ValueError InsertOutside), p).
Proof.
  unfold insert. destruct (unpack pos) as [row col]. simpl.
  rewrite in_grid_wf.
  destruct (inside R C row col) eqn:Hin; [|done].
  apply inside_spec in Hin as [Hr Hc]. by rewrite store_wf.
Qed.

Lemma remove_wf pos :
  remove pos p =
    if inside R C (unpack pos).1 (unpack pos).2
    then (Ok tt, put p (Z.to_nat (unpack pos).1) (Z.to_nat (unpack pos).2) (_null p))
    else (Raise (ValueError RemoveOutside), p).
Proof.
  unfold remove. destruct (unpack pos) as [row col]. simpl.
  rewrite in_grid_wf.
  destruct (inside R C row col) eqn:Hin; [|done].
  apply inside_spec in Hin as [Hr Hc]. by rewrite store_wf.
Qed.
End Wf.

Lemma cell_put p i j v i' j' :
  cell (put p i j v) i' j' =
    if decide (i = i' /\ j = j')
    then match cell p i j with Some _ => Some v | None => None end
    else cell p i' j'.
Proof.
  unfold cell, put. simpl. rewrite list_lookup_alter.
  destruct (decide (i = i')) as [<-|Hi].
  - destruct (grid p !! i) as [cells|]; simpl.
    + rewrite list_lookup_insert.
      destruct (decide (j = j')) as [<-|Hj].
      * rewrite (decide_True (P := i = i /\ j = j)) by done.
        destruct (cells !! j) eqn:Hc.
        -- apply lookup_lt_Some in Hc. by rewrite decide_True.
        -- apply lookup_ge_None_1 in Hc. by rewrite decide_False by lia.
      * rewrite decide_False by tauto. by rewrite decide_False by tauto.
    + by case_decide.
  - by rewrite decide_False by tauto.
Qed.

(** ** Construction *)

Lemma mapM_const {A B} (y : B) (l : list A) :
  mapM (fun _ => Ok y) l = Ok (replicate (length l) y).
Proof. induction l as [|x l IH]; [done|]. simpl. by rewrite IH. Qed.

Lemma map_const_replicate {A B} (y : B) (l : list A) :
  (fun _ => y) <$> l = replicate (length l) y.
Proof. induction l as [|x l IH]; [done|]. csimpl. by rewrite IH. Qed.

Lemma PlateSet_init_int R C :
  PlateSet_init (PyInt R) (PyInt C) = Ok (empty_plate R C).
Proof.
  unfold PlateSet_init, py_range, range_list. simpl.
  rewrite map_const_replicate, mapM_const, !length_seqZ. done.
Qed.

Lemma empty_plate_wf R C : wf (empty_plate R C) R C.
Proof.
  split; simpl; try done.
  - by rewrite length_replicate.
  - apply Forall_replicate. by rewrite length_replicate.
Qed.

Lemma cell_empty_plate R C i j v :
  cell (empty_plate R C) i j = Some v -> v = "xxxxx"%string.
Proof.
  unfold cell. simpl. intros H.
  destruct (replicate (Z.to_nat R) _ !! i) as [cells|] eqn:Hc; [|done].
  apply lookup_replicate in Hc as [-> _].
  by apply lookup_replicate in H as [-> _].
Qed.

(** C7: on a grid of [R] rows and [C] columns, [value_of], [insert] and
    [remove] at a coordinate with [row < 0], [row >= R], [col < 0] or
    [col >= C] each raise their [ValueError] ("... outside of grid") and
    leave the grid as it was; at a coordinate inside the grid none of
    them raises.  The coordinate may be passed as two arguments or as
    one pair. *)
Theorem access_is_range_checked (p : PlateSet) (R C : Z) (pos : position) (value : string) :
  wf p R C ->
  ((unpack pos).1 < 0 \/ R <= (unpack pos).1 \/ (unpack pos).2 < 0 \/ C <= (unpack pos).2 ->
     value_of p pos = Raise (ValueError GetOutside) /\
     insert value pos p = (Raise (ValueError InsertOutside), p) /\
     remove pos p = (Raise (ValueError RemoveOutside), p)) /\
  (0 <= (unpack pos).1 < R /\ 0 <= (unpack pos).2 < C ->
     (exists v, value_of p pos = Ok v) /\
     (exists p', insert value pos p = (Ok tt, p')) /\
     (exists p', remove pos p = (Ok tt, p'))).
Proof.
  intros Hwf. split.
  - intros Hout. apply inside_false in Hout.
    rewrite (value_of_wf Hwf), (insert_wf Hwf), (remove_wf Hwf), Hout. done.
  - intros [Hr Hc].
    rewrite (value_of_wf Hwf), (insert_wf Hwf), (remove_wf Hwf).
    rewrite (proj2 (inside_spec R C _ _)) by done.
    destruct (cell_inside Hwf _ _ Hr Hc) as [v ->]. repeat split; eauto.
Qed.

Lemma access_is_range_checked_witness :
  value_of (empty_plate 2 3) (Pos2 (-1) 1) = Raise (ValueError GetOutside) /\
  insert "TEST" (Pos2 (-1) 1) (empty_plate 2 3)
    = (Raise (ValueError InsertOutside), empty_plate 2 3) /\
  remove (Pos2 (-1) 1) (empty_plate 2 3)
    = (Raise (ValueError RemoveOutside), empty_plate 2 3).
Proof.
  apply (access_is_range_checked (empty_plate 2 3) 2 3 (Pos2 (-1) 1) "TEST").
  - apply empty_plate_wf.
  - simpl. lia.
Defined.

(** ** Comparison and bulk copy *)

(** C4: a fresh 2x3 grid and a fresh 2x4 grid have different
    dimensions, yet [is_equal_to] answers [True]: the guard
    [not rows_equal and cols_equal] returns [False] only when the row
    counts differ and the column counts agree.  The other way round the
    comparison reads outside the smaller grid and raises. *)
Theorem is_equal_to_ignores_column_count :
  is_equal_to (empty_plate 2 3) (empty_plate 2 4) = Ok true /\
  is_equal_to (empty_plate 2 4) (empty_plate 2 3) = Raise (ValueError GetOutside).
Proof. split; reflexivity. Qed.

(** C6: [fill_by_other] compares [self.num_cols] with [other.num_rows]
    and joins the two tests with [and].  A 2x3 grid filled from a 2x2
    grid raises nothing and is overwritten in part; filled from a 3x3
    grid it is overwritten in full before [insert] raises its own
    range error. *)
Theorem fill_by_other_mismatch_not_rejected :
  fill_by_other (plate 2 2 [["P"; "Q"]; ["R"; "S"]]%string) (empty_plate 2 3)
    = (Ok tt, plate 2 3 [["P"; "Q"; "xxxxx"]; ["R"; "S"; "xxxxx"]]%string) /\
  fill_by_other (plate 3 3 [["a"; "b"; "c"]; ["d"; "e"; "f"]; ["g"; "h"; "i"]]%string)
                (empty_plate 2 3)
    = (Raise (ValueError InsertOutside),
       plate 2 3 [["a"; "b"; "c"]; ["d"; "e"; "f"]]%string).
Proof. split; reflexivity. Qed.

(** The case the test suite exercises is rejected as the docstring of the
    test says. *)
Lemma fill_by_other_small_from_default :
  fill_by_other (empty_plate 16 24) (empty_plate 2 3)
    = (Raise (ValueError FillIncompatible), empty_plate 2 3).
Proof. reflexivity. Qed.

(** C5: the type check of [__init__] looks at the two arguments
    together.  With one integer argument the [elif] never raises, so
    [PlateSet(0, "b")] and [PlateSet(0, 1.5)] are built (with no rows,
    the inner [range] is never reached), and [PlateSet(2, 3.0)], an
    integer and an integer-valued float, is refused by [range(3.0)]
    because only a pair of floats is converted. *)
Theorem init_type_check_is_joint :
  PlateSet_init (PyInt 0) (PyStr "b")
    = Ok {| num_rows := PyInt 0; num_cols := PyStr "b"; num_wells := PyStr "";
            _null := "xxxxx"; grid := [] |} /\
  (exists p, PlateSet_init (PyInt 0) (PyFloat (S754_finite false 3 (-1))) = Ok p) /\
  PlateSet_init (PyInt 2) (PyFloat (S754_finite false 3 0)) = Raise (TypeError Builtin).
Proof. split; [reflexivity|]. split; [eexists|]; reflexivity. Qed.

(** What the test suite checks of the constructor. *)
Lemma init_tested_cases :
  PlateSet_init (PyStr "a") (PyStr "b") = Raise (TypeError InitNonNumber) /\
  PlateSet_init (PyFloat (S754_finite false 6 (-2))) (PyFloat (S754_finite false 16 (-2)))
    = Raise (TypeError InitNonFloatLike) /\
  PlateSet_init (PyFloat (S754_finite false 1 0)) (PyFloat (S754_finite false 2 0))
    = Ok (empty_plate 1 2).
Proof. repeat split; reflexivity. Qed.

(** ** Plate number and well label *)

(** C8: row 16 and column 24 pass the guard [row > 16 or col > 24]; the
    tile they select is not a key of [offset_to_num], and the call ends
    in a [KeyError], not in the [ValueError] of the guard. *)
Theorem indices_to_well_guard_off_by_one (p : PlateSet) (start_at : Z) :
  _indices_to_well p (Pos2 16 0) start_at = Raise KeyError /\
  _indices_to_well p (Pos2 0 24) start_at = Raise KeyError /\
  _indices_to_well p (Pos2 17 0) start_at = Raise (ValueError WellTransform).
Proof. repeat split; reflexivity. Qed.

(** Inside the 16x24 shape the label is the one of the tile
    [(row / 8, col / 12)], numbered from [start_at] in the order top-left,
    top-right, bottom-left, bottom-right, and of the well
    [(row mod 8, col mod 12)] in it. *)
Lemma indices_to_well_inside (p : PlateSet) (row col start_at : Z) :
  0 <= row < 16 -> 0 <= col < 24 ->
  _indices_to_well p (Pos2 row col) start_at
    = Ok ("Plate " ++ str (start_at + (2 * (row / 8) + col / 12)) ++ " "
          ++ row_letter (row mod 8) ++ str (col mod 12 + 1))%string.
Proof.
  intros Hr Hc. unfold _indices_to_well. cbn [unpack].
  destruct (Z.gtb_spec row 16) as [?|_]; [lia|].
  destruct (Z.gtb_spec col 24) as [?|_]; [lia|]. cbn [orb].
  assert (Hrt : row / 8 = 0 \/ row / 8 = 1).
  { assert (0 <= row / 8 < 2) by (split; [apply Z.div_pos|apply Z.div_lt_upper_bound]; lia). lia. }
  assert (Hct : col / 12 = 0 \/ col / 12 = 1).
  { assert (0 <= col / 12 < 2) by (split; [apply Z.div_pos|apply Z.div_lt_upper_bound]; lia). lia. }
  assert (Hn : offset_to_num !! (row / 8, col / 12) = Some (2 * (row / 8) + col / 12)).
  { destruct Hrt as [-> | ->], Hct as [-> | ->]; reflexivity. }
  assert (Hrm : 0 <= row mod 8 < 8) by (apply Z.mod_pos_bound; lia).
  assert (Hl : exists a, getitem (list_ascii_of_string "ABCDEFGH") (row mod 8) = Ok a).
  { rewrite getitem_nonneg by lia.
    destruct (lookup_lt_is_Some_2 (list_ascii_of_string "ABCDEFGH") (Z.to_nat (row mod 8)))
      as [a Ha]; [simpl; lia|].
    rewrite Ha. eauto. }
  destruct Hl as [a Ha]. unfold row_letter. rewrite Hn, Ha. reflexivity.
Qed.

Example indices_to_well_tested :
  forall p,
    _indices_to_well p (Pos2 0 0) 1 = Ok "Plate 1 A1"%string /\
    _indices_to_well p (Pos2 0 11) 1 = Ok "Plate 1 A12"%string /\
    _indices_to_well p (Pos2 8 0) 1 = Ok "Plate 3 A1"%string /\
    _indices_to_well p (Pos2 0 12) 1 = Ok "Plate 2 A1"%string /\
    _indices_to_well p (Pos1 (0, 12)) 3 = Ok "Plate 4 A1"%string.
Proof. intros p. repeat split; reflexivity. Qed.

(** ** Dictionaries keyed by a range *)

Section Tab.
Context {V : Type}.

Lemma tab_ext ks (F G : Z -> V) :
  (forall k, k ∈ ks -> F k = G k) -> tab ks F = tab ks G.
Proof.
  intros H. apply list_fmap_ext. intros i k Hk. f_equal.
  apply H. by eapply list_elem_of_lookup_2.
Qed.

Lemma tab_keys ks (F : Z -> V) : (tab ks F).*1 = ks.
Proof.
  unfold tab. rewrite <- list_fmap_compose.
  induction ks as [|k ks IH]; [done|]. csimpl. by rewrite IH.
Qed.

Lemma elem_of_tab ks (F : Z -> V) k v :
  (k, v) ∈ tab ks F <-> k ∈ ks /\ v = F k.
Proof.
  unfold tab. rewrite list_elem_of_fmap. split.
  - intros (k' & [= -> ->] & Hk). done.
  - intros [Hk ->]. by exists k.
Qed.

Lemma dict_get_tab ks (F : Z -> V) k :
  k ∈ ks -> dict_get (tab ks F) k = Ok (F k).
Proof.
  induction ks as [|k' ks IH]; [by intros ?%elem_of_nil|].
  intros Hk. simpl. case_decide as Hd; [by subst|].
  apply IH. apply elem_of_cons in Hk as [?|?]; [congruence|done].
Qed.

Lemma dict_update_tab ks (F : Z -> V) k f :
  NoDup ks -> k ∈ ks ->
  dict_update (tab ks F) k f
    = Ok (tab ks (fun k' => if decide (k' = k) then f (F k') else F k')).
Proof.
  induction ks as [|k' ks IH]; [by intros _ ?%elem_of_nil|].
  intros [Hk' Hnd]%NoDup_cons Hk. simpl. case_decide as Hd.
  - subst k'. do 2 f_equal. apply tab_ext. intros k'' Hk''.
    rewrite decide_False; [done|]. by intros ->.
  - apply elem_of_cons in Hk as [?|Hk]; [congruence|].
    fold (tab ks F). rewrite (IH Hnd Hk). done.
Qed.

Lemma mapM_dict_get_tab ks (F : Z -> V) ks' :
  (forall k, k ∈ ks' -> k ∈ ks) ->
  mapM (fun i => dict_get (tab ks F) i) ks' = Ok (F <$> ks').
Proof.
  induction ks' as [|k ks' IH]; [done|]. intros Hsub. simpl.
  rewrite dict_get_tab by (apply Hsub; left). simpl.
  rewrite IH; [done|]. intros k' Hk'. apply Hsub. by right.
Qed.
End Tab.

(** ** Sets *)

Lemma elem_of_set_add v w s : w ∈ set_add v s <-> w = v \/ w ∈ s.
Proof.
  unfold set_add. case_bool_decide as Hv.
  - split; [tauto|]. by intros [->|?].
  - rewrite elem_of_app, list_elem_of_singleton. tauto.
Qed.

Lemma NoDup_set_add v s : NoDup s -> NoDup (set_add v s).
Proof.
  intros Hs. unfold set_add. case_bool_decide as Hv; [done|].
  apply NoDup_app. split_and!; [done| |apply NoDup_singleton].
  intros w Hw ->%list_elem_of_singleton. done.
Qed.

Lemma elem_of_add_all line s w : w ∈ add_all line s <-> w ∈ s \/ w ∈ line.
Proof.
  revert s. induction line as [|v line IH]; intros s; simpl.
  - rewrite elem_of_nil. tauto.
  - rewrite IH, elem_of_set_add, elem_of_cons. tauto.
Qed.

Lemma NoDup_add_all line s : NoDup s -> NoDup (add_all line s).
Proof.
  revert s. induction line as [|v line IH]; intros s Hs; simpl; [done|].
  by apply IH, NoDup_set_add.
Qed.

(** ** The pooling loop *)

Lemma pool_line ks (F : Z -> list string) idx line :
  NoDup ks -> idx ∈ ks ->
  foldM (fun d value => dict_update d idx (set_add value)) line (tab ks F)
    = Ok (tab ks (fun k => if decide (k = idx) then add_all line (F k) else F k)).
Proof.
  intros Hnd Hidx. revert F. induction line as [|v line IH]; intros F; simpl.
  - f_equal. apply tab_ext. intros k _. by case_decide.
  - rewrite dict_update_tab by done. simpl. rewrite IH.
    f_equal. apply tab_ext. intros k _. by case_decide.
Qed.

(** The lines from position [off] on, pooled into a dictionary that has
    a key for each of them. *)
Lemma pool_lines_from ks (F : Z -> list string) (off : nat) lines :
  NoDup ks ->
  (forall i, (i < length lines)%nat -> Z.of_nat (off + i) ∈ ks) ->
  exists F',
    foldM (fun d '(idx, line) =>
             foldM (fun d value => dict_update d idx (set_add value)) line d)
          (imap (fun i x => (Z.of_nat (off + i), x)) lines) (tab ks F)
      = Ok (tab ks F') /\
    forall k,
      (NoDup (F k) -> NoDup (F' k)) /\
      forall w, w ∈ F' k <->
        w ∈ F k \/ exists i line, k = Z.of_nat (off + i) /\ lines !! i = Some line /\ w ∈ line.
Proof.
  intros Hnd. revert F off. induction lines as [|line lines IH]; intros F off Hks.
  - exists F. split; [done|]. intros k. split; [done|]. intros w.
    split; [tauto|]. intros [?|(i & l & _ & Hl & _)]; [done|]. by destruct i.
  - rewrite imap_cons. simpl.
    rewrite pool_line; [|done|apply (Hks 0%nat); simpl; lia]. simpl.
    destruct (IH (fun k => if decide (k = Z.of_nat (off + 0)) then add_all line (F k) else F k)
                 (S off)) as (F' & HF' & Hspec).
    { intros i Hi. replace (S off + i)%nat with (off + S i)%nat by lia.
      apply Hks. simpl. lia. }
    exists F'. split.
    + rewrite <- HF'. f_equal. apply imap_ext. intros i x _. simpl.
      do 2 f_equal. lia.
    + intros k. destruct (Hspec k) as [Hnd' Hmem]. split.
      * intros HF. apply Hnd'. case_decide; [by apply NoDup_add_all|done].
      * intros w. rewrite Hmem. split.
        -- intros [Hw|(i & l & -> & Hl & Hw)].
           ++ case_decide as Hk.
              ** apply elem_of_add_all in Hw as [?|?]; [by left|].
                 right. exists 0%nat, line. by rewrite Hk.
              ** by left.
           ++ right. exists (S i), l. split_and!; [f_equal; lia|done|done].
        -- intros [Hw|(i & l & -> & Hl & Hw)].
           ++ left. case_decide; [apply elem_of_add_all|]; tauto.
           ++ destruct i as [|i]; simpl in Hl.
              ** injection Hl as ->. left. rewrite decide_True by done.
                 apply elem_of_add_all. tauto.
              ** right. exists i, l. split_and!; [f_equal; lia|done|done].
Qed.

Lemma pool_lines_spec n lines :
  length lines = Z.to_nat n ->
  exists d,
    pool_lines lines ((fun i => (i, [])) <$> seqZ 0 n) = Ok d /\
    d.*1 = seqZ 0 n /\
    forall k s, (k, s) ∈ d ->
      NoDup s /\
      forall w, w ∈ s <-> exists line, lines !! Z.to_nat k = Some line /\ w ∈ line.
Proof.
  intros Hlen.
  destruct (pool_lines_from (seqZ 0 n) (fun _ => []) 0 lines) as (F' & HF' & Hspec).
  { apply NoDup_seqZ. }
  { intros i Hi. apply elem_of_seqZ. lia. }
  exists (tab (seqZ 0 n) F'). split; [exact HF'|]. split; [apply tab_keys|].
  intros k s [Hk ->]%elem_of_tab. apply elem_of_seqZ in Hk.
  destruct (Hspec k) as [Hnd Hmem]. split; [apply Hnd; constructor|].
  intros w. rewrite Hmem. split.
  - intros [[]%elem_of_nil|(i & l & -> & Hl & Hw)].
    exists l. by rewrite Nat2Z.id.
  - intros (l & Hl & Hw). right. exists (Z.to_nat k), l.
    split_and!; [simpl; lia|done|done].
Qed.

(** ** Rows, columns and their pools *)

Section Pools.
Context {p : PlateSet} {R C : Z} (Hwf : wf p R C).

Lemma value_of_val row col :
  0 <= row < R -> 0 <= col < C -> value_of p (Pos2 row col) = Ok (val p row col).
Proof.
  intros Hr Hc. destruct (value_of_inside Hwf row col Hr Hc) as (v & Hv & ->).
  unfold val. by rewrite Hv.
Qed.

Lemma cell_Some_inside i j v :
  cell p i j = Some v -> 0 <= Z.of_nat i < R /\ 0 <= Z.of_nat j < C.
Proof.
  unfold cell. destruct (grid p !! i) as [cells|] eqn:Hc; [|done]. intros Hv.
  pose proof (wf_row_len _ _ _ Hwf) as Hall. rewrite Forall_lookup in Hall.
  specialize (Hall _ _ Hc).
  apply lookup_lt_Some in Hc, Hv. rewrite (wf_len _ _ _ Hwf) in Hc. lia.
Qed.

Lemma hpools_spec :
  exists hp,
    hpools p = Ok hp /\ hp.*1 = seqZ 0 R /\
    forall r s, (r, s) ∈ hp ->
      NoDup s /\ forall w, w ∈ s <-> exists j, cell p (Z.to_nat r) j = Some w.
Proof.
  destruct (pool_lines_spec R (grid p) (wf_len _ _ _ Hwf)) as (d & Hd & Hkeys & Hspec).
  exists d. split.
  { unfold hpools, py_range, get_rows. rewrite (wf_rows _ _ _ Hwf). exact Hd. }
  split; [done|]. intros r s Hrs. destruct (Hspec r s Hrs) as [Hnd Hmem].
  split; [done|]. intros w. rewrite Hmem. unfold cell. split.
  - intros (line & -> & [j Hj]%list_elem_of_lookup). eauto.
  - intros [j Hj]. destruct (grid p !! Z.to_nat r) as [line|]; [|done].
    exists line. split; [done|]. by eapply list_elem_of_lookup_2.
Qed.

Lemma get_cols_row row cs (F : Z -> list string) :
  0 <= row < R -> NoDup cs -> (forall c, c ∈ cs -> 0 <= c < C) ->
  foldM (fun cols col_idx =>
           v <- value_of p (Pos2 row col_idx);;
           dict_update cols col_idx (fun l => l ++ [v]))
        cs (tab (seqZ 0 C) F)
    = Ok (tab (seqZ 0 C)
            (fun k => if decide (k ∈ cs) then F k ++ [val p row k] else F k)).
Proof.
  intros Hr. revert F. induction cs as [|c cs IH]; intros F Hnd Hcs; cbn [foldM].
  - apply (f_equal Ok), tab_ext. intros k _. rewrite decide_False; [done|].
    by intros ?%elem_of_nil.
  - apply NoDup_cons in Hnd as [Hc Hnd].
    rewrite value_of_val; [|done|apply Hcs; left]. cbn [res_bind].
    rewrite dict_update_tab; [|apply NoDup_seqZ|].
    2:{ apply elem_of_seqZ. specialize (Hcs c). rewrite elem_of_cons in Hcs. lia. }
    simpl. rewrite IH; [|done|intros; apply Hcs; by right].
    f_equal. apply tab_ext. intros k _.
    destruct (decide (k = c)) as [->|Hne].
    + rewrite decide_False by done. rewrite decide_True; [done|left].
    + destruct (decide (k ∈ cs)) as [Hin|Hnin].
      * rewrite decide_True; [done|by right].
      * rewrite decide_False; [done|]. rewrite elem_of_cons. tauto.
Qed.

Lemma get_cols_rows rs (F : Z -> list string) :
  (forall r, r ∈ rs -> 0 <= r < R) ->
  foldM (fun cols row_idx =>
           cs <- py_range (num_cols p);;
           foldM (fun cols col_idx =>
                    v <- value_of p (Pos2 row_idx col_idx);;
                    dict_update cols col_idx (fun l => l ++ [v]))
                 cs cols)
        rs (tab (seqZ 0 C) F)
    = Ok (tab (seqZ 0 C) (fun k => F k ++ ((fun r => val p r k) <$> rs))).
Proof.
  assert (Hcols : py_range (num_cols p) = Ok (seqZ 0 C)).
  { unfold py_range, range_list. by rewrite (wf_cols _ _ _ Hwf). }
  rewrite Hcols. cbn [res_bind]. clear Hcols.
  revert F. induction rs as [|r rs IH]; intros F Hrs; cbn [foldM].
  - apply (f_equal Ok), tab_ext. intros k _. by rewrite app_nil_r.
  - rewrite get_cols_row; [|apply Hrs; left|apply NoDup_seqZ|by intros c ?%elem_of_seqZ].
    cbn [res_bind]. rewrite IH by (intros; apply Hrs; by right).
    apply (f_equal Ok), tab_ext. intros k Hk.
    rewrite decide_True by done. by rewrite <- app_assoc.
Qed.

Lemma get_cols_wf :
  get_cols p = Ok ((fun c => (fun r => val p r c) <$> seqZ 0 R) <$> seqZ 0 C).
Proof.
  assert (Hcols : py_range (num_cols p) = Ok (seqZ 0 C)).
  { unfold py_range, range_list. by rewrite (wf_cols _ _ _ Hwf). }
  assert (Hrows : py_range (num_rows p) = Ok (seqZ 0 R)).
  { unfold py_range, range_list. by rewrite (wf_rows _ _ _ Hwf). }
  pose proof (get_cols_rows (seqZ 0 R) (fun _ => [])) as H.
  unfold get_cols. rewrite Hcols in H |- *. rewrite Hrows.
  cbn [res_bind] in H |- *.
  fold (tab (seqZ 0 C) (fun _ : Z => @nil string)).
  rewrite H by (by intros r ?%elem_of_seqZ). cbn [res_bind].
  by rewrite mapM_dict_get_tab.
Qed.

Lemma vpools_spec :
  exists vp,
    vpools p = Ok vp /\ vp.*1 = seqZ 0 C /\
    forall c s, (c, s) ∈ vp ->
      NoDup s /\ forall w, w ∈ s <-> exists i, cell p i (Z.to_nat c) = Some w.
Proof.
  set (cols := (fun c => (fun r => val p r c) <$> seqZ 0 R) <$> seqZ 0 C).
  destruct (pool_lines_spec C cols) as (d & Hd & Hkeys & Hspec).
  { unfold cols. by rewrite length_fmap, length_seqZ. }
  exists d. split.
  { unfold vpools, py_range, range_list. rewrite (wf_cols _ _ _ Hwf). simpl.
    rewrite get_cols_wf. exact Hd. }
  split; [done|]. intros c s Hcs. destruct (Hspec c s Hcs) as [Hnd Hmem].
  split; [done|]. intros w. rewrite Hmem.
  assert (Hc : 0 <= c < C).
  { apply (list_elem_of_fmap_2 fst) in Hcs. rewrite Hkeys in Hcs.
    apply elem_of_seqZ in Hcs. simpl in Hcs. lia. }
  assert (Hcol : cols !! Z.to_nat c = Some ((fun r => val p r c) <$> seqZ 0 R)).
  { unfold cols. rewrite list_lookup_fmap, lookup_seqZ_lt by lia. simpl.
    by replace (0 + Z.of_nat (Z.to_nat c)) with c by lia. }
  rewrite Hcol. split.
  - intros (line & [= <-] & (r & -> & Hr%elem_of_seqZ)%list_elem_of_fmap).
    destruct (cell_inside Hwf r c) as [v Hv]; [lia|lia|].
    exists (Z.to_nat r). unfold val. by rewrite Hv.
  - intros [i Hi]. eexists. split; [done|].
    apply list_elem_of_fmap. exists (Z.of_nat i). split.
    + unfold val. by rewrite Nat2Z.id, Hi.
    + apply elem_of_seqZ. apply cell_Some_inside in Hi. lia.
Qed.
End Pools.

Lemma value_of_Ok_iff (p : PlateSet) (R C row col : Z) (w : string) :
  wf p R C ->
  value_of p (Pos2 row col) = Ok w <->
  (0 <= row < R /\ 0 <= col < C) /\ cell p (Z.to_nat row) (Z.to_nat col) = Some w.
Proof.
  intros Hwf. rewrite (value_of_wf Hwf). simpl. split.
  - destruct (inside R C row col) eqn:Hin; [|done].
    apply inside_spec in Hin. destruct (cell p _ _); [|done]. by intros [= ->].
  - intros [Hin ->]. by rewrite (proj2 (inside_spec R C row col)).
Qed.

(** C3, as stated, fails: the pools of a fresh 1x1 grid each hold the
    sentinel. *)
Lemma pools_of_empty_grid_hold_sentinel :
  exists hp vp,
    hpools (empty_plate 1 1) = Ok hp /\ vpools (empty_plate 1 1) = Ok vp /\
    ~ sentinel_free (empty_plate 1 1) hp /\ ~ sentinel_free (empty_plate 1 1) vp.
Proof.
  exists [(0, ["xxxxx"%string])], [(0, ["xxxxx"%string])].
  split; [reflexivity|]. split; [reflexivity|].
  split; intros H; apply (H 0 ["xxxxx"%string]); simpl; by left.
Qed.

(** C3, amended: [hpools()] has the keys [0 .. R-1] in this order and
    maps row [r] to the set of the values of the cells of that row;
    [vpools()] does the same for the columns.  The sentinel is a value
    like any other: it is a member of a pool exactly when the line has
    an empty cell. *)
Theorem pools_hold_the_values_of_their_line (p : PlateSet) (R C : Z) :
  wf p R C ->
  exists hp vp,
    hpools p = Ok hp /\ vpools p = Ok vp /\
    hp.*1 = seqZ 0 R /\ vp.*1 = seqZ 0 C /\
    (forall r s, (r, s) ∈ hp ->
       NoDup s /\
       forall w, w ∈ s <-> exists c, 0 <= c < C /\ value_of p (Pos2 r c) = Ok w) /\
    (forall c s, (c, s) ∈ vp ->
       NoDup s /\
       forall w, w ∈ s <-> exists r, 0 <= r < R /\ value_of p (Pos2 r c) = Ok w).
Proof.
  intros Hwf.
  destruct (hpools_spec Hwf) as (hp & Hhp & Hhk & Hhs).
  destruct (vpools_spec Hwf) as (vp & Hvp & Hvk & Hvs).
  exists hp, vp. split_and!; try done.
  - intros r s Hrs. destruct (Hhs r s Hrs) as [Hnd Hmem]. split; [done|].
    assert (Hr : 0 <= r < R).
    { apply (list_elem_of_fmap_2 fst) in Hrs. rewrite Hhk in Hrs.
      apply elem_of_seqZ in Hrs. simpl in Hrs. lia. }
    intros w. rewrite Hmem. split.
    + intros [j Hj]. exists (Z.of_nat j).
      pose proof (cell_Some_inside Hwf _ _ _ Hj) as [_ Hc]. split; [done|].
      apply (value_of_Ok_iff p R C); [done|]. by rewrite Nat2Z.id.
    + intros (c & _ & Hv). apply (value_of_Ok_iff p R C) in Hv as [_ Hv]; eauto.
  - intros c s Hcs. destruct (Hvs c s Hcs) as [Hnd Hmem]. split; [done|].
    assert (Hc : 0 <= c < C).
    { apply (list_elem_of_fmap_2 fst) in Hcs. rewrite Hvk in Hcs.
      apply elem_of_seqZ in Hcs. simpl in Hcs. lia. }
    intros w. rewrite Hmem. split.
    + intros [i Hi]. exists (Z.of_nat i).
      pose proof (cell_Some_inside Hwf _ _ _ Hi) as [Hr _]. split; [done|].
      apply (value_of_Ok_iff p R C); [done|]. by rewrite Nat2Z.id.
    + intros (r & _ & Hv). apply (value_of_Ok_iff p R C) in Hv as [_ Hv]; eauto.
Qed.

Lemma pools_hold_the_values_of_their_line_witness :
  wf (plate 2 3 [["A"; "B"; "C"]; ["D"; "xxxxx"; "D"]]%string) 2 3 /\
  exists hp vp,
    hpools (plate 2 3 [["A"; "B"; "C"]; ["D"; "xxxxx"; "D"]]%string) = Ok hp /\
    vpools (plate 2 3 [["A"; "B"; "C"]; ["D"; "xxxxx"; "D"]]%string) = Ok vp /\
    hp.*1 = seqZ 0 2 /\ vp.*1 = seqZ 0 3.
Proof.
  assert (Hwf : wf (plate 2 3 [["A"; "B"; "C"]; ["D"; "xxxxx"; "D"]]%string) 2 3).
  { split; simpl; try reflexivity. repeat constructor. }
  split; [exact Hwf|].
  destruct (pools_hold_the_values_of_their_line _ 2 3 Hwf)
    as (hp & vp & H1 & H2 & H3 & H4 & _).
  exists hp, vp. auto.
Defined.

(** ** Reading and updating a dictionary *)

Section DictFacts.
Context {K V : Type} `{EqDecision K}.
Implicit Types (d : dict K V) (k : K).

Lemma dict_get_missing d k : k ∉ d.*1 -> dict_get d k = Raise KeyError.
Proof.
  induction d as [|[k' v] d IH]; [done|]. csimpl. intros Hk.
  apply not_elem_of_cons in Hk as [Hne Hk]. rewrite decide_False by done. auto.
Qed.

Lemma dict_get_present d k : k ∈ d.*1 -> exists v, dict_get d k = Ok v.
Proof.
  induction d as [|[k' v] d IH]; csimpl; [by intros ?%elem_of_nil|].
  intros Hk. case_decide; [eauto|].
  apply elem_of_cons in Hk as [?|?]; [congruence|auto].
Qed.

Lemma dict_update_present d k f :
  k ∈ d.*1 ->
  exists d',
    dict_update d k f = Ok d' /\ d'.*1 = d.*1 /\
    forall k', dict_get d' k' =
      if decide (k' = k) then v <- dict_get d k;; Ok (f v) else dict_get d k'.
Proof.
  induction d as [|[k0 v0] d IH]; csimpl; [by intros ?%elem_of_nil|].
  intros Hk. destruct (decide (k0 = k)) as [->|Hne].
  - eexists. split; [done|]. split; [done|]. intros k'. simpl.
    destruct (decide (k = k')) as [<-|?].
    + by rewrite decide_True.
    + by rewrite decide_False by congruence.
  - apply elem_of_cons in Hk as [?|Hk]; [congruence|].
    destruct (IH Hk) as (d' & -> & Hkeys & Hget). eexists. split; [done|].
    split; [csimpl; by rewrite Hkeys|]. intros k'. simpl.
    destruct (decide (k0 = k')) as [<-|?].
    + by rewrite decide_False by congruence.
    + apply Hget.
Qed.

Lemma dict_set_fresh d k v :
  k ∉ d.*1 ->
  (dict_set d k v).*1 = d.*1 ++ [k] /\
  forall k', dict_get (dict_set d k v) k' =
    if decide (k' = k) then Ok v else dict_get d k'.
Proof.
  induction d as [|[k0 v0] d IH]; csimpl.
  - intros _. split; [done|]. intros k'.
    destruct (decide (k = k')) as [<-|?].
    + by rewrite decide_True.
    + by rewrite decide_False by congruence.
  - intros [Hne Hk]%not_elem_of_cons. rewrite decide_False by congruence.
    destruct (IH Hk) as [Hkeys Hget]. split; [csimpl; by rewrite Hkeys|].
    intros k'. simpl. destruct (decide (k0 = k')) as [<-|?].
    + by rewrite decide_False by congruence.
    + apply Hget.
Qed.
End DictFacts.

(** ** The candidate list *)

Lemma pools_with_cons k s d item :
  pools_with ((k, s) :: d) item
    = if bool_decide (item ∈ s) then k :: pools_with d item else pools_with d item.
Proof.
  unfold pools_with. rewrite filter_cons. simpl.
  case_bool_decide; [by rewrite decide_True|by rewrite decide_False].
Qed.

Lemma elem_of_pools_with d item k :
  k ∈ pools_with d item <-> exists s, (k, s) ∈ d /\ item ∈ s.
Proof.
  unfold pools_with. rewrite list_elem_of_fmap. split.
  - intros ([k' s] & -> & [Hs Hd]%list_elem_of_filter). eauto.
  - intros (s & Hd & Hs). exists (k, s). split; [done|].
    by apply list_elem_of_filter.
Qed.

Lemma NoDup_pools_with d item : NoDup d.*1 -> NoDup (pools_with d item).
Proof.
  induction d as [|[k s] d IH]; [constructor|]. csimpl.
  intros [Hk Hnd]%NoDup_cons. rewrite pools_with_cons.
  case_bool_decide; [|auto]. apply NoDup_cons. split; [|auto].
  intros (s' & Hin & _)%elem_of_pools_with. apply Hk.
  by apply (list_elem_of_fmap_2 fst) in Hin.
Qed.

Lemma elem_of_candidate_list hp vp item r c :
  (r, c) ∈ candidate_list hp vp item
  <-> r ∈ pools_with hp item /\ c ∈ pools_with vp item.
Proof.
  unfold candidate_list. rewrite list_elem_of_bind. split.
  - intros (r' & (c' & [= -> ->] & Hc)%list_elem_of_fmap & Hr). done.
  - intros [Hr Hc]. exists r. split; [|done]. apply list_elem_of_fmap. eauto.
Qed.

Lemma NoDup_candidate_list hp vp item :
  NoDup hp.*1 -> NoDup vp.*1 -> NoDup (candidate_list hp vp item).
Proof.
  intros Hh Hv. unfold candidate_list. apply NoDup_bind.
  - intros r1 r2 [r c] _ _ (c1 & [= -> ->] & _)%list_elem_of_fmap
      (c2 & [= -> _] & _)%list_elem_of_fmap. done.
  - intros r _. apply NoDup_fmap_2; [|by apply NoDup_pools_with].
    by intros c1 c2 [= ->].
  - by apply NoDup_pools_with.
Qed.

Lemma NoDup_only_member {A} (l : list A) (x : A) :
  NoDup l -> (forall y, y ∈ l <-> y = x) -> l = [x].
Proof.
  intros Hnd Hmem. destruct l as [|a l].
  - exfalso. eapply elem_of_nil, Hmem. done.
  - assert (a = x) as -> by (apply Hmem; left).
    destruct l as [|b l]; [done|]. apply NoDup_cons in Hnd as [Hx _].
    assert (b = x) as -> by (apply Hmem; right; left).
    exfalso. apply Hx. left.
Qed.

Lemma candidate_list_cons h hs hp vp item :
  candidate_list ((h, hs) :: hp) vp item
    = (if bool_decide (item ∈ hs) then (fun c => (h, c)) <$> pools_with vp item else [])
      ++ candidate_list hp vp item.
Proof.
  unfold candidate_list. rewrite pools_with_cons.
  case_bool_decide; [by rewrite bind_cons|done].
Qed.

(** ** The scan of [solve] builds the candidate lists *)

Lemma record_candidate_spec d item pos :
  exists d',
    record_candidate d item pos = Ok d' /\
    (NoDup d.*1 -> NoDup d'.*1) /\
    forall item', cands_of d' item' =
      if decide (item' = item) then cands_of d item ++ [pos] else cands_of d item'.
Proof.
  unfold record_candidate, dict_mem. case_bool_decide as Hin.
  - destruct (dict_update_present d item (fun l => l ++ [pos]) Hin)
      as (d' & -> & Hkeys & Hget).
    exists d'. split; [done|]. split; [by rewrite Hkeys|].
    intros item'. unfold cands_of. rewrite Hget. case_decide; [|done].
    by destruct (dict_get_present d item Hin) as [l ->].
  - destruct (dict_set_fresh d item [pos] Hin) as [Hkeys Hget].
    eexists. split; [done|]. split.
    + rewrite Hkeys. intros Hnd. apply NoDup_app.
      split_and!; [done| |apply NoDup_singleton].
      by intros x Hx ->%list_elem_of_singleton.
    + intros item'. unfold cands_of. rewrite Hget. case_decide; [|done].
      by rewrite (dict_get_missing d item Hin).
Qed.

Lemma scan_item item h vp d :
  exists d',
    foldM (fun solved_items '(vpool_idx, vpool_set) =>
             if bool_decide (item ∈ vpool_set)
             then record_candidate solved_items item (h, vpool_idx)
             else Ok solved_items)
          vp d = Ok d' /\
    (NoDup d.*1 -> NoDup d'.*1) /\
    forall item', cands_of d' item' =
      if decide (item' = item)
      then cands_of d item ++ ((fun c => (h, c)) <$> pools_with vp item)
      else cands_of d item'.
Proof.
  revert d. induction vp as [|[v vs] vp IH]; intros d; cbn [foldM].
  - exists d. split; [done|]. split; [done|]. intros item'.
    case_decide; [subst; by rewrite app_nil_r|done].
  - rewrite pools_with_cons. case_bool_decide.
    + destruct (record_candidate_spec d item (h, v)) as (d1 & -> & Hnd1 & Hc1).
      cbn [res_bind]. destruct (IH d1) as (d' & -> & Hnd' & Hc').
      exists d'. split; [done|]. split; [auto|]. intros item'. rewrite Hc'.
      case_decide as Heq.
      * rewrite Hc1, decide_True by done. csimpl. by rewrite <- app_assoc.
      * by rewrite Hc1, decide_False.
    + cbn [res_bind]. destruct (IH d) as (d' & -> & Hnd' & Hc'). eauto.
Qed.

Lemma scan_hpool h hs vp d :
  NoDup hs ->
  exists d',
    foldM (fun solved_items item =>
             foldM (fun solved_items '(vpool_idx, vpool_set) =>
                      if bool_decide (item ∈ vpool_set)
                      then record_candidate solved_items item (h, vpool_idx)
                      else Ok solved_items)
                   vp solved_items)
          hs d = Ok d' /\
    (NoDup d.*1 -> NoDup d'.*1) /\
    forall item', cands_of d' item' =
      cands_of d item'
      ++ (if bool_decide (item' ∈ hs)
          then (fun c => (h, c)) <$> pools_with vp item' else []).
Proof.
  revert d. induction hs as [|x hs IH]; intros d Hnd; cbn [foldM].
  - exists d. split; [done|]. split; [done|]. intros item'.
    rewrite bool_decide_eq_false_2 by (by intros ?%elem_of_nil).
    by rewrite app_nil_r.
  - apply NoDup_cons in Hnd as [Hx Hnd].
    destruct (scan_item x h vp d) as (d1 & -> & Hnd1 & Hc1). cbn [res_bind].
    destruct (IH d1 Hnd) as (d' & -> & Hnd' & Hc').
    exists d'. split; [done|]. split; [auto|]. intros item'.
    rewrite Hc', Hc1. destruct (decide (item' = x)) as [->|Hne].
    + rewrite (bool_decide_eq_false_2 (x ∈ hs)) by done.
      rewrite bool_decide_eq_true_2 by left. by rewrite app_nil_r.
    + f_equal. case_bool_decide as H1.
      * rewrite bool_decide_eq_true_2; [done|by right].
      * rewrite bool_decide_eq_false_2; [done|].
        rewrite elem_of_cons. tauto.
Qed.

Lemma scan_spec hp vp :
  Forall (fun e => NoDup e.2) hp ->
  exists d,
    scan hp vp = Ok d /\ NoDup d.*1 /\
    forall item, cands_of d item = candidate_list hp vp item.
Proof.
  intros Hsets. unfold scan.
  enough (forall d0, exists d,
    foldM (fun solved_items '(hpool_idx, hpool_set) =>
      foldM (fun solved_items item =>
        foldM (fun solved_items '(vpool_idx, vpool_set) =>
                 if bool_decide (item ∈ vpool_set)
                 then record_candidate solved_items item (hpool_idx, vpool_idx)
                 else Ok solved_items)
              vp solved_items)
        hpool_set solved_items)
      hp d0 = Ok d /\
    (NoDup d0.*1 -> NoDup d.*1) /\
    forall item, cands_of d item = cands_of d0 item ++ candidate_list hp vp item) as Hgen.
  { destruct (Hgen []) as (d & Hd & Hnd & Hc). exists d.
    split; [done|]. split; [apply Hnd; constructor|]. intros item. by rewrite Hc. }
  induction Hsets as [|[h hs] hp Hhs _ IH]; intros d0; cbn [foldM].
  - exists d0. split; [done|]. split; [done|]. intros item.
    by rewrite app_nil_r.
  - destruct (scan_hpool h hs vp d0 Hhs) as (d1 & -> & Hnd1 & Hc1). cbn [res_bind].
    destruct (IH d1) as (d & -> & Hnd & Hc). exists d.
    split; [done|]. split; [auto|]. intros item.
    by rewrite Hc, Hc1, candidate_list_cons, app_assoc.
Qed.

(** ** Placing the items that have a single candidate *)

Lemma val_put (p : PlateSet) (R C r0 c0 r c : Z) (v : string) :
  wf p R C -> 0 <= r0 < R -> 0 <= c0 < C -> 0 <= r -> 0 <= c ->
  val (put p (Z.to_nat r0) (Z.to_nat c0) v) r c
    = if decide (r = r0 /\ c = c0) then v else val p r c.
Proof.
  intros Hwf Hr0 Hc0 Hr Hc. unfold val. rewrite cell_put.
  destruct (decide (r = r0 /\ c = c0)) as [[-> ->]|Hne].
  - rewrite decide_True by done.
    by destruct (cell_inside Hwf r0 c0 Hr0 Hc0) as [w ->].
  - rewrite decide_False; [done|]. intros [H1 H2]. apply Hne. lia.
Qed.

Section Place.
Context (d : candidate_map) (R C : Z).

Lemma place_step p item :
  wf p R C -> item ∈ d.*1 ->
  (forall r c, cands_of d item = [(r, c)] -> 0 <= r < R /\ 0 <= c < C) ->
  exists p',
    place_item d item p = (Ok tt, p') /\ wf p' R C /\
    forall r c, 0 <= r < R -> 0 <= c < C ->
      val p' r c = if decide (cands_of d item = [(r, c)]) then item else val p r c.
Proof.
  intros Hwf Hin Hrange. unfold place_item, M_bind, lift, cands_of in *.
  destruct (dict_get_present d item Hin) as [l Hl]. rewrite Hl in *.
  destruct l as [|[r0 c0] [|? l]].
  - exists p. split; [done|]. split; [done|]. intros r c _ _.
    by rewrite decide_False.
  - destruct (Hrange r0 c0 eq_refl) as [Hr0 Hc0].
    exists (put p (Z.to_nat r0) (Z.to_nat c0) item). split.
    { change (insert item (Pos1 (r0, c0)) p
                = (Ok tt, put p (Z.to_nat r0) (Z.to_nat c0) item)).
      rewrite (insert_wf Hwf). cbn [unpack fst snd].
      by rewrite (proj2 (inside_spec R C r0 c0)). }
    split; [by apply put_wf|]. intros r c Hr Hc.
    rewrite (val_put p R C) by (done || lia).
    destruct (decide (r = r0 /\ c = c0)) as [[-> ->]|Hne].
    + by rewrite decide_True.
    + rewrite decide_False; [done|]. intros [= -> ->]. by apply Hne.
  - exists p. split.
    { cbn [length]. by destruct (Z.eqb_spec (Z.of_nat (S (S (length l)))) 1); [lia|]. }
    split; [done|]. intros r c _ _. by rewrite decide_False.
Qed.

Lemma place_spec ks p :
  wf p R C ->
  (forall item, item ∈ ks -> item ∈ d.*1) ->
  (forall item r c, item ∈ ks -> cands_of d item = [(r, c)] -> 0 <= r < R /\ 0 <= c < C) ->
  exists p',
    for_each ks (place_item d) p = (Ok tt, p') /\ wf p' R C /\
    forall r c, 0 <= r < R -> 0 <= c < C ->
      (val p' r c = val p r c /\ forall item, item ∈ ks -> cands_of d item <> [(r, c)])
      \/ (exists item, item ∈ ks /\ cands_of d item = [(r, c)] /\ val p' r c = item).
Proof.
  revert p. induction ks as [|item ks IH]; intros p Hwf Hkeys Hrange; cbn [for_each].
  - exists p. split; [done|]. split; [done|]. intros r c _ _. left.
    split; [done|]. by intros item ?%elem_of_nil.
  - destruct (place_step p item Hwf) as (p1 & Hp1 & Hwf1 & Hval1).
    { apply Hkeys. left. }
    { intros r c. apply Hrange. left. }
    destruct (IH p1 Hwf1) as (p' & Hp' & Hwf' & Hval').
    { intros. apply Hkeys. by right. }
    { intros item' r c ?. apply Hrange. by right. }
    exists p'. split; [unfold M_bind; by rewrite Hp1|]. split; [done|].
    intros r c Hr Hc. destruct (Hval' r c Hr Hc) as [[Heq Hno]|(item' & Hin & Hc' & Hv)].
    + rewrite (Hval1 r c Hr Hc) in Heq. case_decide as Hitem.
      * right. exists item. split; [left|done].
      * left. split; [done|]. intros item' [->|?]%elem_of_cons; auto.
    + right. exists item'. split; [by right|done].
Qed.
End Place.

Lemma val_empty_plate R C r c :
  0 <= r < R -> 0 <= c < C -> val (empty_plate R C) r c = "xxxxx"%string.
Proof.
  intros Hr Hc. unfold val.
  destruct (cell_inside (empty_plate_wf R C) r c Hr Hc) as [v Hv].
  rewrite Hv. by apply cell_empty_plate in Hv.
Qed.

(** What [solve] returns for pools whose sets have no repeated member
    and whose keys are inside the requested dimensions: a grid of these
    dimensions in which a cell either is empty, no item having this
    coordinate as its single candidate, or holds an item that has. *)
Lemma solve_spec (hp vp : pools) (R C : Z) :
  Forall (fun e => NoDup e.2) hp ->
  (forall k, k ∈ hp.*1 -> 0 <= k < R) ->
  (forall k, k ∈ vp.*1 -> 0 <= k < C) ->
  exists g,
    solve hp vp (PyInt R) (PyInt C) = Ok g /\ wf g R C /\
    forall r c, 0 <= r < R -> 0 <= c < C ->
      (val g r c = "xxxxx"%string /\ forall item, candidate_list hp vp item <> [(r, c)])
      \/ candidate_list hp vp (val g r c) = [(r, c)].
Proof.
  intros Hsets Hrows Hcols. unfold solve. rewrite PlateSet_init_int. cbn [res_bind].
  destruct (scan_spec hp vp Hsets) as (d & -> & Hnd & Hcands). cbn [res_bind].
  destruct (place_spec d R C (d.*1) (empty_plate R C)) as (g & Hg & Hwf & Hval).
  { apply empty_plate_wf. }
  { done. }
  { intros item r c _ Hc. rewrite Hcands in Hc.
    assert (Hin : (r, c) ∈ candidate_list hp vp item) by (rewrite Hc; left).
    apply elem_of_candidate_list in Hin as [(s & Hs & _)%elem_of_pools_with
                                             (s' & Hs' & _)%elem_of_pools_with].
    split; [apply Hrows|apply Hcols]; by eapply (list_elem_of_fmap_2' fst). }
  exists g. split; [unfold place; by rewrite Hg|]. split; [done|].
  intros r c Hr Hc. destruct (Hval r c Hr Hc) as [[Heq Hno]|(item & _ & Hc' & Hv)].
  - left. rewrite Heq, val_empty_plate by done. split; [done|]. intros item Hitem.
    rewrite <- Hcands in Hitem. destruct (decide (item ∈ d.*1)) as [Hin|Hnin].
    + by apply (Hno item).
    + unfold cands_of in Hitem. by rewrite dict_get_missing in Hitem.
  - right. by rewrite Hv, <- Hcands.
Qed.

(** ** Grids with the same cells *)

Lemma wf_grid_ext (a b : PlateSet) (R C : Z) :
  wf a R C -> wf b R C ->
  (forall r c, 0 <= r < R -> 0 <= c < C -> val a r c = val b r c) ->
  grid a = grid b.
Proof.
  intros Ha Hb Hval. apply list_eq_same_length with (Z.to_nat R);
    [apply (wf_len _ _ _ Hb)|apply (wf_len _ _ _ Ha)|].
  intros i ra rb Hi Hra Hrb.
  pose proof (wf_row_len _ _ _ Ha) as Hla. rewrite Forall_lookup in Hla.
  pose proof (wf_row_len _ _ _ Hb) as Hlb. rewrite Forall_lookup in Hlb.
  apply list_eq_same_length with (Z.to_nat C); [by eapply Hlb|by eapply Hla|].
  intros j x y Hj Hx Hy.
  specialize (Hval (Z.of_nat i) (Z.of_nat j)). unfold val, cell in Hval.
  rewrite !Nat2Z.id, Hra, Hrb, Hx, Hy in Hval. apply Hval; lia.
Qed.

Lemma wf_ext (a b : PlateSet) (R C : Z) :
  wf a R C -> wf b R C ->
  (forall r c, 0 <= r < R -> 0 <= c < C -> val a r c = val b r c) ->
  a = b.
Proof.
  intros Ha Hb Hval. pose proof (wf_grid_ext a b R C Ha Hb Hval) as Hg.
  destruct Ha as [A1 A2 A3 A4 _ _], Hb as [B1 B2 B3 B4 _ _].
  destruct a, b. simpl in *. congruence.
Qed.

Section Compare.
Context {a b : PlateSet} {R C : Z} (Ha : wf a R C) (Hb : wf b R C).

Lemma compare_row r cs :
  0 <= r < R -> (forall c, c ∈ cs -> 0 <= c < C) ->
  for_return cs (fun col_idx =>
    x <- value_of a (Pos2 r col_idx);;
    y <- value_of b (Pos2 r col_idx);;
    Ok (if negb (String.eqb x y) then Some false else None))
  = Ok (if decide (Forall (fun c => val a r c = val b r c) cs)
        then None else Some false).
Proof.
  intros Hr. induction cs as [|c cs IH]; intros Hcs; cbn [for_return].
  - by rewrite decide_True by constructor.
  - rewrite (value_of_val Ha), (value_of_val Hb) by (done || apply Hcs; left).
    cbn [res_bind]. destruct (String.eqb_spec (val a r c) (val b r c)) as [Heq|Hne].
    + cbn [negb]. rewrite IH by (intros; apply Hcs; by right).
      destruct (decide (Forall _ cs)) as [Hall|Hnall].
      * by rewrite decide_True by (by constructor).
      * rewrite decide_False; [done|]. by intros [_ ?]%Forall_cons.
    + cbn [negb]. rewrite decide_False; [done|]. by intros [? _]%Forall_cons.
Qed.

Lemma compare_rows rs :
  (forall r, r ∈ rs -> 0 <= r < R) ->
  for_return rs (fun row_idx =>
    for_return (seqZ 0 C) (fun col_idx =>
      x <- value_of a (Pos2 row_idx col_idx);;
      y <- value_of b (Pos2 row_idx col_idx);;
      Ok (if negb (String.eqb x y) then Some false else None)))
  = Ok (if decide (Forall (fun r => Forall (fun c => val a r c = val b r c) (seqZ 0 C)) rs)
        then None else Some false).
Proof.
  induction rs as [|r rs IH]; intros Hrs; cbn [for_return].
  - by rewrite decide_True by constructor.
  - rewrite compare_row; [|apply Hrs; left|by intros c ?%elem_of_seqZ].
    cbn [res_bind]. destruct (decide (Forall _ (seqZ 0 C))) as [Hrow|Hnrow].
    + rewrite IH by (intros; apply Hrs; by right).
      destruct (decide (Forall _ rs)) as [Hall|Hnall].
      * by rewrite decide_True by (by constructor).
      * rewrite decide_False; [done|]. by intros [_ ?]%Forall_cons.
    + rewrite decide_False; [done|]. by intros [? _]%Forall_cons.
Qed.

(** On grids of the same dimensions [is_equal_to] compares the cells. *)
Lemma is_equal_to_same_dims :
  is_equal_to a b = Ok (bool_decide (grid a = grid b)).
Proof.
  unfold is_equal_to, py_range, range_list.
  rewrite (wf_rows _ _ _ Ha), (wf_rows _ _ _ Hb), (wf_cols _ _ _ Ha).
  cbn [py_eq as_index]. rewrite Z.eqb_refl. cbn [negb andb res_bind].
  rewrite compare_rows by (by intros r ?%elem_of_seqZ). cbn [res_bind]. f_equal.
  destruct (decide (Forall _ (seqZ 0 R))) as [Hall|Hnall].
  - symmetry. apply bool_decide_eq_true_2. apply (wf_grid_ext a b R C Ha Hb).
    intros r c Hr Hc. rewrite Forall_forall in Hall.
    specialize (Hall r). rewrite Forall_forall in Hall.
    apply Hall; apply elem_of_seqZ; lia.
  - symmetry. apply bool_decide_eq_false_2. intros Heq. apply Hnall.
    apply Forall_forall. intros r _. apply Forall_forall. intros c _.
    unfold val, cell. by rewrite Heq.
Qed.
End Compare.

Lemma is_equal_to_refl (a : PlateSet) (R C : Z) :
  wf a R C -> is_equal_to a a = Ok true.
Proof.
  intros Ha. rewrite (is_equal_to_same_dims Ha Ha).
  by rewrite bool_decide_eq_true_2.
Qed.

(** ** Copying between grids of the same dimensions *)

Section Fill.
Context {b : PlateSet} {R C : Z} (Hb : wf b R C).

Lemma copy_row r cs a :
  wf a R C -> 0 <= r < R -> (forall c, c ∈ cs -> 0 <= c < C) ->
  exists a',
    for_each cs (fun col_idx =>
      v <~ lift (value_of b (Pos2 r col_idx));; insert v (Pos2 r col_idx)) a
      = (Ok tt, a') /\
    wf a' R C /\
    forall r' c', 0 <= r' < R -> 0 <= c' < C ->
      val a' r' c' = if decide (r' = r /\ c' ∈ cs) then val b r' c' else val a r' c'.
Proof.
  intros Ha Hr. revert a Ha. induction cs as [|c cs IH]; intros a Ha Hcs; cbn [for_each].
  - exists a. split; [done|]. split; [done|]. intros r' c' _ _.
    rewrite decide_False; [done|]. by intros [_ ?%elem_of_nil].
  - assert (Hc : 0 <= c < C) by (apply Hcs; left).
    destruct (IH (put a (Z.to_nat r) (Z.to_nat c) (val b r c))) as (a' & Ha' & Hwf & Hcells).
    { by apply put_wf. } { intros; apply Hcs; by right. }
    exists a'. split.
    { erewrite M_bind_Ok; [exact Ha'|]. unfold M_bind, lift.
      rewrite (value_of_val Hb), (insert_wf Ha) by done. cbn [unpack fst snd].
      by rewrite (proj2 (inside_spec R C r c)). }
    split; [done|]. intros r' c' Hr' Hc'. rewrite (Hcells r' c' Hr' Hc').
    rewrite (val_put a R C) by (done || lia).
    destruct (decide (r' = r /\ c' ∈ cs)) as [[-> Hin]|Hnot].
    + rewrite decide_True; [done|]. split; [done|by right].
    + destruct (decide (r' = r /\ c' = c)) as [[-> ->]|Hne].
      * rewrite decide_True; [done|]. split; [done|left].
      * rewrite decide_False; [done|]. intros [-> [->|?]%elem_of_cons]; tauto.
Qed.

Lemma copy_rows rs a :
  wf a R C -> (forall r, r ∈ rs -> 0 <= r < R) ->
  exists a',
    for_each rs (fun row_idx =>
      cs <~ lift (py_range (PyInt C));;
      for_each cs (fun col_idx =>
        v <~ lift (value_of b (Pos2 row_idx col_idx));;
        insert v (Pos2 row_idx col_idx))) a
      = (Ok tt, a') /\
    wf a' R C /\
    forall r' c', 0 <= r' < R -> 0 <= c' < C ->
      val a' r' c' = if decide (r' ∈ rs) then val b r' c' else val a r' c'.
Proof.
  revert a. induction rs as [|r rs IH]; intros a Ha Hrs; cbn [for_each].
  - exists a. split; [done|]. split; [done|]. intros r' c' _ _.
    rewrite decide_False; [done|]. by intros ?%elem_of_nil.
  - destruct (copy_row r (seqZ 0 C) a Ha) as (a1 & Ha1 & Hwf1 & Hcells1).
    { apply Hrs. left. } { by intros c ?%elem_of_seqZ. }
    destruct (IH a1 Hwf1) as (a' & Ha' & Hwf & Hcells).
    { intros; apply Hrs; by right. }
    exists a'. split.
    { erewrite M_bind_Ok; [exact Ha'|exact Ha1]. }
    split; [done|]. intros r' c' Hr' Hc'.
    rewrite (Hcells r' c' Hr' Hc'), (Hcells1 r' c' Hr' Hc').
    destruct (decide (r' ∈ rs)) as [Hin|Hnot].
    + rewrite decide_True; [done|by right].
    + destruct (decide (r' = r)) as [->|Hne].
      * rewrite decide_True by (split; [done|apply elem_of_seqZ; lia]).
        rewrite decide_True; [done|left].
      * rewrite decide_False by tauto. rewrite decide_False; [done|].
        rewrite elem_of_cons. tauto.
Qed.

(** Between grids of the same dimensions [fill_by_other] raises nothing
    and copies every cell. *)
Lemma fill_by_other_same_dims a :
  wf a R C ->
  exists a', fill_by_other b a = (Ok tt, a') /\ wf a' R C /\ grid a' = grid b.
Proof.
  intros Ha. destruct (copy_rows (seqZ 0 R) a Ha) as (a' & Ha' & Hwf & Hcells).
  { by intros r ?%elem_of_seqZ. }
  exists a'. split.
  { unfold fill_by_other.
    rewrite (wf_rows _ _ _ Ha), (wf_rows _ _ _ Hb), (wf_cols _ _ _ Hb).
    cbn [py_eq as_index]. rewrite Z.eqb_refl. cbn [negb andb].
    unfold for_wells, M_bind at 1, lift, py_range, range_list. cbn [as_index].
    exact Ha'. }
  split; [done|]. apply (wf_grid_ext a' b R C Hwf Hb). intros r c Hr Hc.
  rewrite (Hcells r c Hr Hc). rewrite decide_True; [done|]. apply elem_of_seqZ. lia.
Qed.
End Fill.

(** ** What [solve] places *)

(** C2, as stated, fails: with the row pool [{0: {A, B}}] and the column
    pool [{0: {A, B}}] both items have the single candidate [(0, 0)], and
    the second one inserted overwrites the first, in whichever order the
    set is visited. *)
Lemma solve_overwrites_colliding_items :
  (exists g,
     solve [(0, ["A"; "B"]%string)] [(0, ["A"; "B"]%string)] (PyInt 1) (PyInt 1) = Ok g /\
     ~ placed_iff_single_candidate
         [(0, ["A"; "B"]%string)] [(0, ["A"; "B"]%string)] g) /\
  (exists g,
     solve [(0, ["B"; "A"]%string)] [(0, ["B"; "A"]%string)] (PyInt 1) (PyInt 1) = Ok g /\
     ~ placed_iff_single_candidate
         [(0, ["B"; "A"]%string)] [(0, ["B"; "A"]%string)] g).
Proof.
  split.
  - exists (plate 1 1 [["B"%string]]). split; [reflexivity|]. intros H.
    specialize (H "A"%string 0 0). simpl in H.
    assert (Hv : value_of (plate 1 1 [["B"%string]]) (Pos2 0 0) = Ok "A"%string).
    { apply H; [discriminate|reflexivity]. }
    discriminate Hv.
  - exists (plate 1 1 [["A"%string]]). split; [reflexivity|]. intros H.
    specialize (H "B"%string 0 0). simpl in H.
    assert (Hv : value_of (plate 1 1 [["A"%string]]) (Pos2 0 0) = Ok "B"%string).
    { apply H; [discriminate|reflexivity]. }
    discriminate Hv.
Qed.

Lemma value_of_val_iff (g : PlateSet) (R C r c : Z) (w : string) :
  wf g R C ->
  value_of g (Pos2 r c) = Ok w <-> (0 <= r < R /\ 0 <= c < C) /\ val g r c = w.
Proof.
  intros Hwf. split.
  - intros Hv. pose proof Hv as [Hin _]%(value_of_Ok_iff g R C); [|done].
    destruct Hin as [Hr Hc]. rewrite (value_of_val Hwf) in Hv by done.
    by injection Hv.
  - intros [[Hr Hc] <-]. by apply (value_of_val Hwf).
Qed.

Lemma single_candidate_inside (hp vp : pools) (R C : Z) item r c :
  Forall (fun e => 0 <= e.1 < R) hp -> Forall (fun e => 0 <= e.1 < C) vp ->
  candidate_list hp vp item = [(r, c)] -> 0 <= r < R /\ 0 <= c < C.
Proof.
  intros Hrows Hcols Hc.
  assert (Hin : (r, c) ∈ candidate_list hp vp item) by (rewrite Hc; left).
  apply elem_of_candidate_list in Hin as [(s & Hs & _)%elem_of_pools_with
                                           (s' & Hs' & _)%elem_of_pools_with].
  rewrite Forall_forall in Hrows, Hcols.
  split; [apply (Hrows _ Hs)|apply (Hcols _ Hs')].
Qed.

(** C2, amended.  For pools whose row sets have no repeated member and
    whose keys are inside the requested dimensions, [solve] returns a
    grid of these dimensions such that, for every item and coordinate:
    - a cell holds a non-sentinel item only if the candidate list of the
      item is exactly this coordinate;
    - an item whose candidate list is the single coordinate [(r, c)] is
      in the cell [(r, c)] when no other item has the same single
      candidate, and in any case the cell then holds one of the items
      whose single candidate it is;
    - a non-sentinel item with two or more candidates is in no cell;
    - a cell that is no item's single candidate holds the sentinel. *)
Theorem solve_places_single_candidates (hp vp : pools) (R C : Z) :
  Forall (fun e => NoDup e.2) hp ->
  Forall (fun e => 0 <= e.1 < R) hp ->
  Forall (fun e => 0 <= e.1 < C) vp ->
  exists g,
    solve hp vp (PyInt R) (PyInt C) = Ok g /\ wf g R C /\
    forall item r c,
      (item <> _null g -> value_of g (Pos2 r c) = Ok item ->
         candidate_list hp vp item = [(r, c)]) /\
      (candidate_list hp vp item = [(r, c)] ->
         (forall item', candidate_list hp vp item' = [(r, c)] -> item' = item) ->
         value_of g (Pos2 r c) = Ok item) /\
      (candidate_list hp vp item = [(r, c)] ->
         exists item', candidate_list hp vp item' = [(r, c)] /\
                       value_of g (Pos2 r c) = Ok item') /\
      ((2 <= length (candidate_list hp vp item))%nat -> item <> _null g ->
         forall r' c', value_of g (Pos2 r' c') <> Ok item) /\
      (0 <= r < R -> 0 <= c < C ->
         (forall item', candidate_list hp vp item' <> [(r, c)]) ->
         value_of g (Pos2 r c) = Ok (_null g)).
Proof.
  intros Hsets Hrows Hcols.
  destruct (solve_spec hp vp R C Hsets) as (g & Hg & Hwf & Hcell).
  { intros k ((k' & s) & -> & Hk)%list_elem_of_fmap.
    rewrite Forall_forall in Hrows. apply (Hrows _ Hk). }
  { intros k ((k' & s) & -> & Hk)%list_elem_of_fmap.
    rewrite Forall_forall in Hcols. apply (Hcols _ Hk). }
  exists g. split; [done|]. split; [done|].
  rewrite (wf_null _ _ _ Hwf).
  assert (Hplaced : forall item r c, item <> "xxxxx"%string ->
            value_of g (Pos2 r c) = Ok item -> candidate_list hp vp item = [(r, c)]).
  { intros item r c Hitem [[Hr Hc] Hv]%(value_of_val_iff g R C); [|done].
    destruct (Hcell r c Hr Hc) as [[Hnull _]|Hcand]; [congruence|].
    by rewrite Hv in Hcand. }
  assert (Hsome : forall item r c, candidate_list hp vp item = [(r, c)] ->
            exists item', candidate_list hp vp item' = [(r, c)] /\
                          value_of g (Pos2 r c) = Ok item').
  { intros item r c Hitem.
    destruct (single_candidate_inside hp vp R C item r c Hrows Hcols Hitem) as [Hr Hc].
    destruct (Hcell r c Hr Hc) as [[_ Hno]|Hcand]; [by destruct (Hno item)|].
    exists (val g r c). split; [done|]. by apply (value_of_val Hwf). }
  intros item r c. split_and!.
  - apply Hplaced.
  - intros Hitem Huniq. destruct (Hsome item r c Hitem) as (item' & Hc' & Hv).
    by rewrite <- (Huniq item' Hc').
  - apply Hsome.
  - intros Hlen Hitem r' c' Hv. apply Hplaced in Hv; [|done].
    rewrite Hv in Hlen. simpl in Hlen. lia.
  - intros Hr Hc Hno. destruct (Hcell r c Hr Hc) as [[Hnull _]|Hcand].
    + rewrite <- Hnull. by apply (value_of_val Hwf).
    + by destruct (Hno (val g r c)).
Qed.

Lemma solve_places_single_candidates_witness :
  Forall (fun e => NoDup e.2) [(0, ["A"; "D"]%string); (1, ["D"; "E"]%string)] /\
  Forall (fun e => 0 <= e.1 < 2) [(0, ["A"; "D"]%string); (1, ["D"; "E"]%string)] /\
  Forall (fun e => 0 <= e.1 < 2) [(0, ["A"; "D"]%string); (1, ["D"; "E"]%string)] /\
  exists g,
    solve [(0, ["A"; "D"]%string); (1, ["D"; "E"]%string)]
          [(0, ["A"; "D"]%string); (1, ["D"; "E"]%string)] (PyInt 2) (PyInt 2) = Ok g /\
    wf g 2 2.
Proof.
  assert (H1 : Forall (fun e : Z * list string => NoDup e.2)
                 [(0, ["A"; "D"]%string); (1, ["D"; "E"]%string)]).
  { apply (bool_decide_unpack _). vm_compute. exact I. }
  assert (H2 : Forall (fun e : Z * list string => 0 <= e.1 < 2)
                 [(0, ["A"; "D"]%string); (1, ["D"; "E"]%string)]).
  { repeat constructor; simpl; lia. }
  split; [exact H1|]. split; [exact H2|]. split; [exact H2|].
  destruct (solve_places_single_candidates _ _ 2 2 H1 H2 H2) as (g & Hg & Hwf & _).
  exists g. split; [exact Hg|exact Hwf].
Defined.

(** ** Round trip *)

Lemma elem_of_concat_lookup {A} (g : list (list A)) i (cells : list A) j x :
  g !! i = Some cells -> cells !! j = Some x -> x ∈ concat g.
Proof.
  intros Hi Hj. apply list_elem_of_In, in_concat. exists cells.
  split; apply list_elem_of_In; by eapply list_elem_of_lookup_2.
Qed.

Lemma NoDup_concat_lookup {A} (g : list (list A)) i j i' j' ra rb x :
  NoDup (concat g) ->
  g !! i = Some ra -> ra !! j = Some x ->
  g !! i' = Some rb -> rb !! j' = Some x ->
  i = i' /\ j = j'.
Proof.
  revert i i'. induction g as [|cells g IH]; intros i i' Hnd Hi Hj Hi' Hj';
    [done|].
  simpl in Hnd. apply NoDup_app in Hnd as (Hrow & Hsep & Hrest).
  destruct i as [|i], i' as [|i']; simpl in Hi, Hi'.
  - injection Hi as ->. injection Hi' as ->. split; [done|].
    exact (proj1 (NoDup_alt rb) Hrow j j' x Hj Hj').
  - injection Hi as ->. exfalso. eapply Hsep.
    + by eapply list_elem_of_lookup_2.
    + by eapply elem_of_concat_lookup.
  - injection Hi' as ->. exfalso. eapply Hsep.
    + by eapply list_elem_of_lookup_2.
    + by eapply elem_of_concat_lookup.
  - destruct (IH i i' Hrest Hi Hj Hi' Hj') as [-> ->]. done.
Qed.

Lemma distinct_cells (p : PlateSet) i j i' j' x :
  NoDup (concat (grid p)) ->
  cell p i j = Some x -> cell p i' j' = Some x -> i = i' /\ j = j'.
Proof.
  unfold cell. intros Hnd Ha Hb.
  destruct (grid p !! i) as [ra|] eqn:Hi; [|done].
  destruct (grid p !! i') as [rb|] eqn:Hi'; [|done].
  by eapply NoDup_concat_lookup.
Qed.

Lemma same_pools_refl d : same_pools d d.
Proof. unfold same_pools. induction d; constructor; auto. Qed.

Lemma same_pools_keys d1 d2 : same_pools d1 d2 -> d1.*1 = d2.*1.
Proof.
  induction 1 as [|[k1 s1] [k2 s2] d1 d2 [Hk _] _ IH]; [done|].
  csimpl in *. by rewrite Hk, IH.
Qed.

Lemma same_pools_elem d1 d2 k s :
  same_pools d1 d2 -> (k, s) ∈ d1 -> exists s0, (k, s0) ∈ d2 /\ s ≡ₚ s0.
Proof.
  induction 1 as [|[k1 s1] [k2 s2] d1 d2 [Hk Hs] _ IH]; [by intros ?%elem_of_nil|].
  simpl in *. intros [[= -> ->]|Hin]%elem_of_cons.
  - exists s2. split; [subst; left|done].
  - destruct (IH Hin) as (s0 & Hs0 & Hp). exists s0. split; [by right|done].
Qed.

Lemma pools_of_lines_same Q n d0 d :
  pools_of_lines Q n d0 -> same_pools d d0 -> pools_of_lines Q n d.
Proof.
  intros [Hkeys Hsets] Hsame. split; [by rewrite (same_pools_keys d d0)|].
  intros k s Hks. destruct (same_pools_elem d d0 k s Hsame Hks) as (s0 & Hs0 & Hp).
  destruct (Hsets k s0 Hs0) as [Hnd Hmem]. split; [by rewrite Hp|].
  intros w. by rewrite Hp.
Qed.

Lemma pools_of_lines_sets Q n d :
  pools_of_lines Q n d -> Forall (fun e => NoDup e.2) d.
Proof.
  intros [_ Hsets]. apply Forall_forall. intros [k s] Hks. by apply (Hsets k s).
Qed.

Lemma pools_of_lines_inside Q n d :
  pools_of_lines Q n d -> Forall (fun e => 0 <= e.1 < n) d.
Proof.
  intros [Hkeys _]. apply Forall_forall. intros [k s] Hks.
  apply (list_elem_of_fmap_2 fst) in Hks. rewrite Hkeys in Hks.
  apply elem_of_seqZ in Hks. simpl in *. lia.
Qed.

Lemma pools_with_of_lines Q n d item k :
  pools_of_lines Q n d ->
  k ∈ pools_with d item <-> 0 <= k < n /\ Q k item.
Proof.
  intros Hd. pose proof (pools_of_lines_inside Q n d Hd) as Hin.
  destruct Hd as [Hkeys Hsets]. rewrite elem_of_pools_with. split.
  - intros (s & Hks & Hitem). rewrite Forall_forall in Hin. split.
    + apply (Hin _ Hks).
    + by apply (Hsets k s Hks).
  - intros [Hk HQ].
    assert (Hkin : k ∈ d.*1) by (rewrite Hkeys; apply elem_of_seqZ; lia).
    apply list_elem_of_fmap in Hkin as ([k' s] & -> & Hks).
    exists s. split; [done|]. by apply (Hsets k' s Hks).
Qed.

(** C1: let [G] be a grid of [R] rows and [C] columns whose cell values
    are pairwise distinct.  Then [G.hpools()] and [G.vpools()] return
    pool dictionaries, and [solve], given these (with the members of
    each set visited in any order) and the dimensions of [G], returns a
    grid that is [G] itself: same attributes, same cells;
    [G.is_equal_to] of it is [True]. *)
Theorem solve_round_trip (G : PlateSet) (R C : Z) :
  wf G R C ->
  NoDup (concat (grid G)) ->
  exists hp0 vp0,
    hpools G = Ok hp0 /\ vpools G = Ok vp0 /\
    forall hp vp, same_pools hp hp0 -> same_pools vp vp0 ->
      exists S,
        solve hp vp (num_rows G) (num_cols G) = Ok S /\
        S = G /\ is_equal_to G S = Ok true.
Proof.
  intros Hwf Hdistinct.
  destruct (hpools_spec Hwf) as (hp0 & Hhp0 & Hhk & Hhs).
  destruct (vpools_spec Hwf) as (vp0 & Hvp0 & Hvk & Hvs).
  exists hp0, vp0. split; [done|]. split; [done|]. intros hp vp Hsh Hsv.
  set (QH := fun (r : Z) (w : string) => exists j, cell G (Z.to_nat r) j = Some w).
  set (QV := fun (c : Z) (w : string) => exists i, cell G i (Z.to_nat c) = Some w).
  assert (Hh : pools_of_lines QH R hp).
  { apply (pools_of_lines_same QH R hp0); [by split|done]. }
  assert (Hv : pools_of_lines QV C vp).
  { apply (pools_of_lines_same QV C vp0); [by split|done]. }
  destruct (solve_spec hp vp R C) as (S & HS & HwfS & Hcell).
  { by eapply pools_of_lines_sets. }
  { intros k ([k' s] & -> & Hks)%list_elem_of_fmap.
    pose proof (pools_of_lines_inside QH R hp Hh) as Hin.
    rewrite Forall_forall in Hin. apply (Hin _ Hks). }
  { intros k ([k' s] & -> & Hks)%list_elem_of_fmap.
    pose proof (pools_of_lines_inside QV C vp Hv) as Hin.
    rewrite Forall_forall in Hin. apply (Hin _ Hks). }
  assert (Hmem : forall item r c,
            (r, c) ∈ candidate_list hp vp item <->
            (0 <= r < R /\ QH r item) /\ (0 <= c < C /\ QV c item)).
  { intros item r c.
    by rewrite elem_of_candidate_list,
      (pools_with_of_lines QH R hp), (pools_with_of_lines QV C vp). }
  assert (Hown : forall r c, 0 <= r < R -> 0 <= c < C ->
            candidate_list hp vp (val G r c) = [(r, c)]).
  { intros r c Hr Hc. destruct (cell_inside Hwf r c Hr Hc) as [x Hx].
    assert (val G r c = x) as -> by (unfold val; by rewrite Hx).
    apply NoDup_only_member.
    - apply NoDup_candidate_list.
      + destruct Hh as [-> _]. apply NoDup_seqZ.
      + destruct Hv as [-> _]. apply NoDup_seqZ.
    - intros [r' c']. rewrite Hmem. split.
      + intros [[Hr' [j Hj]] [Hc' [i Hi]]].
        destruct (distinct_cells G _ _ _ _ x Hdistinct Hj Hx) as [H1 _].
        destruct (distinct_cells G _ _ _ _ x Hdistinct Hi Hx) as [_ H2].
        f_equal; lia.
      + intros [= -> ->]. unfold QH, QV.
        split; (split; [done|]); [by exists (Z.to_nat c)|by exists (Z.to_nat r)]. }
  assert (Huniq : forall item r c, 0 <= r < R -> 0 <= c < C ->
            candidate_list hp vp item = [(r, c)] -> item = val G r c).
  { intros item r c Hr Hc Hitem.
    assert (Hin : (r, c) ∈ candidate_list hp vp item) by (rewrite Hitem; left).
    apply Hmem in Hin as [[_ [j Hj]] [_ [i Hi]]].
    destruct (distinct_cells G _ _ _ _ item Hdistinct Hj Hi) as [H1 H2].
    subst j. unfold val. by rewrite Hj. }
  assert (HSG : S = G).
  { apply (wf_ext S G R C HwfS Hwf). intros r c Hr Hc.
    destruct (Hcell r c Hr Hc) as [[_ Hno]|Hcand].
    - by destruct (Hno (val G r c) (Hown r c Hr Hc)).
    - by apply Huniq. }
  exists S. rewrite (wf_rows _ _ _ Hwf), (wf_cols _ _ _ Hwf).
  split; [done|]. split; [done|]. rewrite HSG. by apply (is_equal_to_refl G R C).
Qed.

Lemma solve_round_trip_witness :
  wf (plate 2 3 [["A"; "B"; "C"]; ["D"; "E"; "F"]]%string) 2 3 /\
  NoDup (concat (grid (plate 2 3 [["A"; "B"; "C"]; ["D"; "E"; "F"]]%string))) /\
  exists hp0 vp0,
    hpools (plate 2 3 [["A"; "B"; "C"]; ["D"; "E"; "F"]]%string) = Ok hp0 /\
    vpools (plate 2 3 [["A"; "B"; "C"]; ["D"; "E"; "F"]]%string) = Ok vp0 /\
    solve hp0 vp0 (PyInt 2) (PyInt 3)
      = Ok (plate 2 3 [["A"; "B"; "C"]; ["D"; "E"; "F"]]%string).
Proof.
  assert (Hwf : wf (plate 2 3 [["A"; "B"; "C"]; ["D"; "E"; "F"]]%string) 2 3).
  { split; simpl; try reflexivity. repeat constructor. }
  assert (Hnd : NoDup (concat (grid (plate 2 3 [["A"; "B"; "C"]; ["D"; "E"; "F"]]%string)))).
  { apply (bool_decide_unpack _). vm_compute. exact I. }
  split; [exact Hwf|]. split; [exact Hnd|].
  destruct (solve_round_trip _ 2 3 Hwf Hnd) as (hp0 & vp0 & Hh & Hv & Hsolve).
  exists hp0, vp0. split; [exact Hh|]. split; [exact Hv|].
  destruct (Hsolve hp0 vp0 (same_pools_refl hp0) (same_pools_refl vp0))
    as (S & HS & -> & _).
  exact HS.
Defined.

(** ** Counting the empty cells *)

Section Count.
Context {p : PlateSet} {R C : Z} (Hwf : wf p R C).

Lemma count_row r cs n :
  0 <= r < R -> (forall c, c ∈ cs -> 0 <= c < C) ->
  (forall c, c ∈ cs -> val p r c <> _null p) ->
  foldM (fun num_default col_idx =>
           v <- value_of p (Pos2 r col_idx);;
           Ok (if String.eqb v (_null p) then num_default + 1 else num_default))
        cs n = Ok n.
Proof.
  intros Hr. induction cs as [|c cs IH]; intros Hcs Hfull; cbn [foldM]; [done|].
  rewrite (value_of_val Hwf) by (done || apply Hcs; left). cbn [res_bind].
  destruct (String.eqb_spec (val p r c) (_null p)) as [Heq|_].
  - exfalso. by apply (Hfull c); [left|].
  - apply IH; intros; [apply Hcs|apply Hfull]; by right.
Qed.

Lemma count_rows rs n :
  (forall r, r ∈ rs -> 0 <= r < R) ->
  (forall r c, 0 <= r < R -> 0 <= c < C -> val p r c <> _null p) ->
  foldM (fun num_default row_idx =>
           foldM (fun num_default col_idx =>
                    v <- value_of p (Pos2 row_idx col_idx);;
                    Ok (if String.eqb v (_null p) then num_default + 1 else num_default))
                 (seqZ 0 C) num_default)
        rs n = Ok n.
Proof.
  intros Hrs Hfull. revert n.
  induction rs as [|r rs IH]; intros n; cbn [foldM]; [done|].
  rewrite count_row;
    [|apply Hrs; left|by intros c ?%elem_of_seqZ
     |intros c ?%elem_of_seqZ; apply Hfull; [apply Hrs; left|lia]].
  cbn [res_bind]. apply IH. intros; apply Hrs; by right.
Qed.

Lemma count_defaults_full :
  (forall r c, 0 <= r < R -> 0 <= c < C -> val p r c <> _null p) ->
  count_defaults p = Ok 0.
Proof.
  intros Hfull. unfold count_defaults, py_range, range_list.
  rewrite (wf_rows _ _ _ Hwf), (wf_cols _ _ _ Hwf). cbn [as_index res_bind].
  apply count_rows; [by intros r ?%elem_of_seqZ|done].
Qed.
End Count.

(** ** Random filling *)

Lemma token_not_sentinel v : is_token v -> v <> "xxxxx"%string.
Proof.
  intros [_ Hall] ->. simpl in Hall. apply Forall_cons in Hall as [Hx _].
  revert Hx. apply (bool_decide_unpack _). vm_compute. exact I.
Qed.

Lemma combinations_spec {A} (l : list A) (r : nat) (x : list A) :
  x ∈ combinations l r -> length x = r /\ Forall (fun a => a ∈ l) x.
Proof.
  revert r x. induction l as [|a l IH]; intros [|r] x; simpl.
  - by intros ->%list_elem_of_singleton.
  - by intros ?%elem_of_nil.
  - by intros ->%list_elem_of_singleton.
  - rewrite elem_of_app, list_elem_of_fmap. intros [(y & -> & Hy)|Hx].
    + destruct (IH r y Hy) as [Hlen Hall]. split; [simpl; by rewrite Hlen|].
      constructor; [left|]. eapply Forall_impl; [done|]. intros; by right.
    + destruct (IH (S r) x Hx) as [Hlen Hall]. split; [done|].
      eapply Forall_impl; [done|]. intros; by right.
Qed.

Lemma combinations_nonempty {A} (l : list A) (r : nat) :
  (r <= length l)%nat -> combinations l r <> [].
Proof.
  revert r. induction l as [|a l IH]; intros [|r] Hr; simpl in *; try done; [lia|].
  specialize (IH r ltac:(lia)).
  destruct (combinations l r); [done|]. done.
Qed.

Lemma token_of_combination chosen :
  chosen ∈ combinations alphabet (Z.to_nat FILL) ->
  is_token (string_of_list_ascii chosen).
Proof.
  intros [Hlen Hall]%combinations_spec. unfold is_token.
  by rewrite list_ascii_of_string_of_list_ascii.
Qed.

Section RandomFacts.
Variable rng : Type.
Variable seed_state : pyval -> rng.
Variable randbelow : rng -> Z -> Z * rng.

(** What is assumed of the generator: a draw below [n] is in
    [0 .. n-1]. *)
Hypothesis randbelow_bound : forall st n, 0 < n -> 0 <= (randbelow st n).1 < n.
Context (R C : Z).

Lemma random_choice_spec {A} (seq : list A) (st : rng) :
  seq <> [] ->
  exists x,
    x ∈ seq /\
    forall p : PlateSet,
      random_choice rng randbelow seq (p, st)
        = (Ok x, (p, (randbelow st (Z.of_nat (length seq))).2)).
Proof.
  intros Hne. unfold random_choice. destruct seq as [|a seq]; [done|].
  set (l := a :: seq).
  pose proof (randbelow_bound st (Z.of_nat (length l))) as Hb.
  destruct (randbelow st (Z.of_nat (length l))) as [i st'] eqn:Hdraw.
  cbn [fst snd] in *. specialize (Hb ltac:(simpl; lia)).
  destruct (lookup_lt_is_Some_2 l (Z.to_nat i)) as [x Hx]; [lia|].
  exists x. split; [by eapply list_elem_of_lookup_2|]. intros p.
  cbn [fst snd]. rewrite Hdraw, getitem_nonneg by lia. by rewrite Hx.
Qed.

(** The loop body with the elements [fill_randomly] draws from. *)
Local Abbreviation fill_token :=
  (fill_cell rng randbelow (combinations alphabet (Z.to_nat FILL))).

(** One cell, on two grids of the same dimensions with the generator in
    the same state: the same token is written to both and the generator
    ends in the same state. *)
Lemma fill_cell_spec p q st r c :
  wf p R C -> wf q R C -> 0 <= r < R -> 0 <= c < C ->
  exists v st',
    is_token v /\
    fill_token r c (p, st) = (Ok tt, (put p (Z.to_nat r) (Z.to_nat c) v, st')) /\
    fill_token r c (q, st) = (Ok tt, (put q (Z.to_nat r) (Z.to_nat c) v, st')).
Proof.
  intros Hp Hq Hr Hc. unfold fill_cell, M_bind.
  assert (Hne : combinations alphabet (Z.to_nat FILL) <> [])
    by (apply combinations_nonempty; vm_compute; lia).
  destruct (random_choice_spec _ st Hne) as (x & Hx & Hchoice).
  rewrite !Hchoice.
  eexists (string_of_list_ascii x), _.
  split; [by apply token_of_combination|].
  unfold on_self. cbn [fst snd]. rewrite (insert_wf Hp), (insert_wf Hq).
  cbn [unpack fst snd]. by rewrite (proj2 (inside_spec R C r c)).
Qed.

(** A row of cells, on two grids. *)
Lemma fill_row_spec r cs p q st :
  wf p R C -> wf q R C -> 0 <= r < R -> (forall c, c ∈ cs -> 0 <= c < C) ->
  exists p' q' st',
    for_each cs (fill_token r) (p, st) = (Ok tt, (p', st')) /\
    for_each cs (fill_token r) (q, st) = (Ok tt, (q', st')) /\
    wf p' R C /\ wf q' R C /\
    forall r' c', 0 <= r' < R -> 0 <= c' < C ->
      ((r' = r /\ c' ∈ cs) /\ is_token (val p' r' c') /\ val p' r' c' = val q' r' c')
      \/ (~ (r' = r /\ c' ∈ cs) /\
          val p' r' c' = val p r' c' /\ val q' r' c' = val q r' c').
Proof.
  intros Hp Hq Hr. revert p q st Hp Hq.
  induction cs as [|c cs IH]; intros p q st Hp Hq Hcs; cbn [for_each].
  - exists p, q, st. split_and!; try done. intros r' c' _ _. right.
    split; [|done]. by intros [_ ?%elem_of_nil].
  - destruct (fill_cell_spec p q st r c Hp Hq Hr) as (v & st1 & Hv & Hp1 & Hq1).
    { apply Hcs. left. }
    assert (Hc : 0 <= c < C) by (apply Hcs; left).
    destruct (IH (put p (Z.to_nat r) (Z.to_nat c) v) (put q (Z.to_nat r) (Z.to_nat c) v) st1)
      as (p' & q' & st' & Hp' & Hq' & Hwp & Hwq & Hcells).
    { by apply put_wf. } { by apply put_wf. } { intros; apply Hcs; by right. }
    exists p', q', st'. unfold M_bind. rewrite Hp1, Hq1.
    split_and!; try done. intros r' c' Hr' Hc'.
    destruct (Hcells r' c' Hr' Hc') as [[[-> Hin] Htok]|(Hnot & Hvp & Hvq)].
    + left. split; [|done]. split; [done|by right].
    + rewrite (val_put p R C) in Hvp by (done || lia).
      rewrite (val_put q R C) in Hvq by (done || lia).
      destruct (decide (r' = r /\ c' = c)) as [[-> ->]|Hne].
      * left. split; [split; [done|left]|]. rewrite Hvp, Hvq. done.
      * right. split; [|done]. intros [-> [->|?]%elem_of_cons]; tauto.
Qed.

(** All the rows in [rs], on two grids. *)
Lemma fill_rows_spec rs p q st :
  wf p R C -> wf q R C -> (forall r, r ∈ rs -> 0 <= r < R) ->
  exists p' q' st',
    for_each rs (fun row_idx =>
      cs <~ lift (py_range (PyInt C));; for_each cs (fill_token row_idx)) (p, st)
      = (Ok tt, (p', st')) /\
    for_each rs (fun row_idx =>
      cs <~ lift (py_range (PyInt C));; for_each cs (fill_token row_idx)) (q, st)
      = (Ok tt, (q', st')) /\
    wf p' R C /\ wf q' R C /\
    forall r' c', 0 <= r' < R -> 0 <= c' < C ->
      (r' ∈ rs /\ is_token (val p' r' c') /\ val p' r' c' = val q' r' c')
      \/ ((r' ∉ rs) /\ val p' r' c' = val p r' c' /\ val q' r' c' = val q r' c').
Proof.
  revert p q st. induction rs as [|r rs IH]; intros p q st Hp Hq Hrs; cbn [for_each].
  - exists p, q, st. split_and!; try done. intros r' c' _ _. right.
    split; [|done]. by intros ?%elem_of_nil.
  - destruct (fill_row_spec r (seqZ 0 C) p q st Hp Hq)
      as (p1 & q1 & st1 & Hp1 & Hq1 & Hwp1 & Hwq1 & Hcells1).
    { apply Hrs. left. } { by intros c ?%elem_of_seqZ. }
    destruct (IH p1 q1 st1 Hwp1 Hwq1) as (p' & q' & st' & Hp' & Hq' & Hwp & Hwq & Hcells).
    { intros; apply Hrs; by right. }
    exists p', q', st'. split_and!; try done.
    { unfold M_bind at 1. unfold M_bind at 1. unfold lift, py_range, range_list.
      cbn [as_index]. by rewrite Hp1. }
    { unfold M_bind at 1. unfold M_bind at 1. unfold lift, py_range, range_list.
      cbn [as_index]. by rewrite Hq1. }
    intros r' c' Hr' Hc'.
    destruct (Hcells r' c' Hr' Hc') as [(Hin & Htok)|(Hnot & Hvp & Hvq)].
    + left. split; [by right|done].
    + destruct (Hcells1 r' c' Hr' Hc') as [[[-> _] [Htok Heq]]|(Hnot1 & Hvp1 & Hvq1)].
      * left. split; [left|]. rewrite Hvp, Hvq. done.
      * right. split; [|by rewrite Hvp, Hvq].
        intros [->|?]%elem_of_cons; [|done]. apply Hnot1.
        split; [done|]. apply elem_of_seqZ. lia.
Qed.

(** The whole loop: from two grids of the same dimensions and the same
    generator state it ends with the same grid, every cell a token. *)
Lemma fill_wells_spec p q st :
  wf p R C -> wf q R C ->
  exists p' st',
    for_wells (PyInt R) (PyInt C) fill_token (p, st) = (Ok tt, (p', st')) /\
    for_wells (PyInt R) (PyInt C) fill_token (q, st) = (Ok tt, (p', st')) /\
    wf p' R C /\
    forall r c, 0 <= r < R -> 0 <= c < C -> is_token (val p' r c).
Proof.
  intros Hp Hq.
  destruct (fill_rows_spec (seqZ 0 R) p q st Hp Hq)
    as (p' & q' & st' & Hp' & Hq' & Hwp & Hwq & Hcells).
  { by intros r ?%elem_of_seqZ. }
  assert (Hall : forall r c, 0 <= r < R -> 0 <= c < C ->
            is_token (val p' r c) /\ val p' r c = val q' r c).
  { intros r c Hr Hc. destruct (Hcells r c Hr Hc) as [[_ ?]|[Hnot _]]; [done|].
    exfalso. apply Hnot, elem_of_seqZ. lia. }
  assert (q' = p') as ->.
  { apply (wf_ext q' p' R C Hwq Hwp). intros r c Hr Hc.
    symmetry. by apply Hall. }
  exists p', st'. split_and!; try done.
  intros r c Hr Hc. by apply Hall.
Qed.

(** [fill_randomly] on two grids of the same dimensions, the generator
    in the same state after the optional seeding. *)
Lemma fill_randomly_from seed p q st :
  wf p R C -> wf q R C ->
  exists p' st',
    fill_randomly rng seed_state randbelow seed (p, st)
      = (Ok tt, (p', st')) /\
    wf p' R C /\
    (forall r c, 0 <= r < R -> 0 <= c < C -> is_token (val p' r c)) /\
    (truthy seed = true ->
     forall st2, fill_randomly rng seed_state randbelow seed (q, st2)
                 = (Ok tt, (p', st'))).
Proof.
  intros Hp Hq. unfold fill_randomly.
  destruct (truthy seed) eqn:Hseed.
  - destruct (fill_wells_spec p q (seed_state seed) Hp Hq)
      as (p' & st' & Hp' & Hq' & Hw & Htok).
    exists p', st'. split_and!; try done.
    + unfold M_bind at 1. unfold random_seed. cbn [fst snd].
      unfold M_bind, get_state. cbn [fst].
      by rewrite (wf_rows _ _ _ Hp), (wf_cols _ _ _ Hp).
    + intros _ st2. unfold M_bind at 1. unfold random_seed. cbn [fst snd].
      unfold M_bind, get_state. cbn [fst].
      by rewrite (wf_rows _ _ _ Hq), (wf_cols _ _ _ Hq).
  - destruct (fill_wells_spec p p st Hp Hp) as (p' & st' & Hp' & _ & Hw & Htok).
    exists p', st'. split_and!; try done.
    unfold M_bind at 1. unfold M_ret.
    unfold M_bind, get_state. cbn [fst].
    by rewrite (wf_rows _ _ _ Hp), (wf_cols _ _ _ Hp).
Qed.
End RandomFacts.

(** C10: whatever the seed argument, the generator state and the prior
    content, [fill_randomly] on a grid of [R] rows and [C] columns
    returns without raising and leaves in every cell a token of five
    upper-case letters, which differs from the sentinel; [count_defaults]
    of the grid is then 0.  The generator is any one whose draws below
    [n] are in [0 .. n-1]. *)
Theorem fill_randomly_fills_every_cell
    (rng : Type) (seed_state : pyval -> rng) (randbelow : rng -> Z -> Z * rng)
    (p : PlateSet) (R C : Z) (seed : pyval) (st : rng) :
  (forall st n, 0 < n -> 0 <= (randbelow st n).1 < n) ->
  wf p R C ->
  exists p' st',
    fill_randomly rng seed_state randbelow seed (p, st) = (Ok tt, (p', st')) /\
    wf p' R C /\
    (forall r c, 0 <= r < R -> 0 <= c < C ->
       exists v, value_of p' (Pos2 r c) = Ok v /\ is_token v /\ v <> _null p') /\
    count_defaults p' = Ok 0.
Proof.
  intros Hrb Hwf.
  destruct (fill_randomly_from rng seed_state randbelow Hrb R C seed p p st Hwf Hwf)
    as (p' & st' & Hrun & Hwf' & Htok & _).
  exists p', st'. split; [done|]. split; [done|].
  assert (Hfull : forall r c, 0 <= r < R -> 0 <= c < C -> val p' r c <> _null p').
  { intros r c Hr Hc. rewrite (wf_null _ _ _ Hwf').
    by apply token_not_sentinel, Htok. }
  split.
  - intros r c Hr Hc. exists (val p' r c).
    split; [by apply (value_of_val Hwf')|]. split; [by apply Htok|by apply Hfull].
  - by apply (count_defaults_full Hwf').
Qed.

Lemma fill_randomly_fills_every_cell_witness :
  (forall st n, 0 < n -> 0 <= (lcg_below st n).1 < n) /\
  wf (empty_plate 2 3) 2 3 /\
  exists p' st',
    fill_randomly Z lcg_seed lcg_below (PyInt 4) (empty_plate 2 3, 1) = (Ok tt, (p', st')) /\
    count_defaults p' = Ok 0.
Proof.
  assert (Hb : forall st n, 0 < n -> 0 <= (lcg_below st n).1 < n).
  { intros st n Hn. simpl. apply Z.mod_pos_bound. lia. }
  split; [exact Hb|]. split; [apply empty_plate_wf|].
  destruct (fill_randomly_fills_every_cell Z lcg_seed lcg_below (empty_plate 2 3) 2 3
              (PyInt 4) 1 Hb (empty_plate_wf 2 3)) as (p' & st' & Hrun & _ & _ & Hcount).
  exists p', st'. split; [exact Hrun|exact Hcount].
Defined.

(** C9 holds for a seed that Python takes as true: the grid and the
    generator state after [fill_randomly] do not depend on the prior
    content or on the prior generator state. *)
Lemma fill_randomly_truthy_seed_deterministic
    (rng : Type) (seed_state : pyval -> rng) (randbelow : rng -> Z -> Z * rng)
    (p q : PlateSet) (R C : Z) (seed : pyval) (st1 st2 : rng) :
  (forall st n, 0 < n -> 0 <= (randbelow st n).1 < n) ->
  wf p R C -> wf q R C -> truthy seed = true ->
  fill_randomly rng seed_state randbelow seed (p, st1)
  = fill_randomly rng seed_state randbelow seed (q, st2).
Proof.
  intros Hrb Hp Hq Hseed.
  destruct (fill_randomly_from rng seed_state randbelow Hrb R C seed p q st1 Hp Hq)
    as (p' & st' & Hrun & _ & _ & Hother).
  by rewrite Hrun, (Hother Hseed st2).
Qed.

(** C9 at the seed 0: [if seed:] takes 0 as "no seed", the call does
    what the unseeded call does with the generator as it finds it, and
    two runs that start from different generator states fill the grid
    differently (here with the example generator). *)
Theorem fill_randomly_seed_zero_is_ignored :
  (forall (rng : Type) (seed_state : pyval -> rng) (randbelow : rng -> Z -> Z * rng)
          (w : world rng),
     fill_randomly rng seed_state randbelow (PyInt 0) w
     = fill_randomly rng seed_state randbelow (PyBool false) w) /\
  fill_randomly Z lcg_seed lcg_below (PyInt 0) (empty_plate 1 1, 1)
    = (Ok tt, (plate 1 1 [["AGHSV"%string]], 48)) /\
  fill_randomly Z lcg_seed lcg_below (PyInt 0) (empty_plate 1 1, 2)
    = (Ok tt, (plate 1 1 [["BDQSV"%string]], 79)).
Proof.
  split; [reflexivity|]. split; vm_compute; reflexivity.
Qed.

(** * Further properties of the grid *)

(** ** The cells as a table of values *)

Lemma row_vals (p : PlateSet) (R C : Z) (i : nat) (cells : list string) :
  wf p R C -> grid p !! i = Some cells ->
  cells = (fun c => val p (Z.of_nat i) c) <$> seqZ 0 C.
Proof.
  intros Hwf Hi. pose proof (wf_row_len _ _ _ Hwf) as Hall.
  rewrite Forall_lookup in Hall. specialize (Hall _ _ Hi).
  apply list_eq_same_length with (Z.to_nat C);
    [by rewrite length_fmap, length_seqZ|done|].
  intros j x y Hj Hx Hy.
  rewrite list_lookup_fmap, lookup_seqZ_lt in Hy by lia. simpl in Hy.
  injection Hy as <-. unfold val, cell. rewrite Nat2Z.id, Hi.
  replace (Z.to_nat (0 + Z.of_nat j)) with j by lia. by rewrite Hx.
Qed.

Lemma grid_vals (p : PlateSet) (R C : Z) :
  wf p R C ->
  grid p = (fun r => (fun c => val p r c) <$> seqZ 0 C) <$> seqZ 0 R.
Proof.
  intros Hwf. apply list_eq_same_length with (Z.to_nat R);
    [by rewrite length_fmap, length_seqZ|apply (wf_len _ _ _ Hwf)|].
  intros i x y Hi Hx Hy.
  rewrite list_lookup_fmap, lookup_seqZ_lt in Hy by lia. simpl in Hy.
  injection Hy as <-. replace (0 + Z.of_nat i) with (Z.of_nat i) by lia.
  by apply (row_vals p R C).
Qed.

(** ** Counting *)

Lemma length_concat_uniform {A} (g : list (list A)) (n : nat) :
  Forall (fun cells => length cells = n) g ->
  length (concat g) = (length g * n)%nat.
Proof.
  induction 1 as [|cells g Hc _ IH]; [done|].
  cbn [concat]. rewrite length_app, IH, Hc. simpl. lia.
Qed.

Lemma count_row_gen (p : PlateSet) (R C r : Z) (cs : list Z) (n : Z) :
  wf p R C -> 0 <= r < R -> (forall c, c ∈ cs -> 0 <= c < C) ->
  foldM (fun num_default col_idx =>
           v <- value_of p (Pos2 r col_idx);;
           Ok (if String.eqb v (_null p) then num_default + 1 else num_default))
        cs n
  = Ok (n + Z.of_nat (length (filter (fun v => v = _null p) ((fun c => val p r c) <$> cs)))).
Proof.
  intros Hwf Hr. revert n. induction cs as [|c cs IH]; intros n Hcs; cbn [foldM].
  - f_equal. simpl. lia.
  - rewrite (value_of_val Hwf) by (done || apply Hcs; left). cbn [res_bind].
    rewrite IH by (intros; apply Hcs; by right). f_equal.
    rewrite fmap_cons, filter_cons.
    destruct (String.eqb_spec (val p r c) (_null p)) as [Heq|Hne].
    + rewrite decide_True by done. simpl. lia.
    + by rewrite decide_False by done.
Qed.

Lemma count_rows_gen (p : PlateSet) (R C : Z) (rs : list Z) (n : Z) :
  wf p R C -> (forall r, r ∈ rs -> 0 <= r < R) ->
  foldM (fun num_default row_idx =>
           foldM (fun num_default col_idx =>
                    v <- value_of p (Pos2 row_idx col_idx);;
                    Ok (if String.eqb v (_null p) then num_default + 1 else num_default))
                 (seqZ 0 C) num_default)
        rs n
  = Ok (n + Z.of_nat (length (filter (fun v => v = _null p)
            (concat ((fun r => (fun c => val p r c) <$> seqZ 0 C) <$> rs))))).
Proof.
  intros Hwf. revert n. induction rs as [|r rs IH]; intros n Hrs; cbn [foldM].
  - f_equal. simpl. lia.
  - rewrite (count_row_gen p R C) by (done || (apply Hrs; left) || by intros c ?%elem_of_seqZ).
    cbn [res_bind]. rewrite IH by (intros; apply Hrs; by right). f_equal.
    rewrite fmap_cons. cbn [concat]. rewrite filter_app, length_app. lia.
Qed.

Lemma count_defaults_eq (p : PlateSet) (R C : Z) :
  wf p R C ->
  count_defaults p
    = Ok (Z.of_nat (length (filter (fun v => v = _null p) (concat (grid p))))).
Proof.
  intros Hwf. unfold count_defaults, py_range, range_list.
  rewrite (wf_rows _ _ _ Hwf), (wf_cols _ _ _ Hwf). cbn [as_index res_bind].
  rewrite (count_rows_gen p R C) by (done || by intros r ?%elem_of_seqZ).
  by rewrite <- (grid_vals p R C Hwf).
Qed.



(** ** Loops that write one value per cell *)

Section Write.
Context (body : Z -> Z -> M PlateSet unit) (F : Z -> Z -> string).
Context (R C R' C' : Z) (HR : R' <= R) (HC : C' <= C).
Context (Hbody : forall a r c, wf a R C -> 0 <= r < R' -> 0 <= c < C' ->
           body r c a = (Ok tt, put a (Z.to_nat r) (Z.to_nat c) (F r c))).

Lemma write_row r cs a :
  wf a R C -> 0 <= r < R' -> (forall c, c ∈ cs -> 0 <= c < C') ->
  exists a',
    for_each cs (body r) a = (Ok tt, a') /\ wf a' R C /\
    forall r' c', 0 <= r' < R -> 0 <= c' < C ->
      val a' r' c' = if decide (r' = r /\ c' ∈ cs) then F r' c' else val a r' c'.
Proof.
  intros Ha Hr. revert a Ha. induction cs as [|c cs IH]; intros a Ha Hcs; cbn [for_each].
  - exists a. split; [done|]. split; [done|]. intros r' c' _ _.
    rewrite decide_False; [done|]. by intros [_ ?%elem_of_nil].
  - assert (Hc : 0 <= c < C') by (apply Hcs; left).
    destruct (IH (put a (Z.to_nat r) (Z.to_nat c) (F r c))) as (a' & Ha' & Hwf & Hcells).
    { by apply put_wf. } { intros; apply Hcs; by right. }
    exists a'. split.
    { erewrite M_bind_Ok; [exact Ha'|]. by apply Hbody. }
    split; [done|]. intros r' c' Hr' Hc'. rewrite (Hcells r' c' Hr' Hc').
    rewrite (val_put a R C) by (done || lia).
    destruct (decide (r' = r /\ c' ∈ cs)) as [[-> Hin]|Hnot].
    + rewrite decide_True; [done|]. split; [done|by right].
    + destruct (decide (r' = r /\ c' = c)) as [[-> ->]|Hne].
      * rewrite decide_True; [done|]. split; [done|left].
      * rewrite decide_False; [done|]. intros [-> [->|?]%elem_of_cons]; tauto.
Qed.

Lemma write_rows rs a :
  wf a R C -> (forall r, r ∈ rs -> 0 <= r < R') ->
  exists a',
    for_each rs (fun row_idx =>
      cs <~ lift (py_range (PyInt C'));; for_each cs (body row_idx)) a
      = (Ok tt, a') /\ wf a' R C /\
    forall r' c', 0 <= r' < R -> 0 <= c' < C ->
      val a' r' c' = if decide (r' ∈ rs /\ c' < C') then F r' c' else val a r' c'.
Proof.
  revert a. induction rs as [|r rs IH]; intros a Ha Hrs; cbn [for_each].
  - exists a. split; [done|]. split; [done|]. intros r' c' _ _.
    rewrite decide_False; [done|]. by intros [?%elem_of_nil _].
  - destruct (write_row r (seqZ 0 C') a Ha) as (a1 & Ha1 & Hwf1 & Hcells1).
    { apply Hrs. left. } { by intros c ?%elem_of_seqZ. }
    destruct (IH a1 Hwf1) as (a' & Ha' & Hwf & Hcells).
    { intros; apply Hrs; by right. }
    exists a'. split.
    { erewrite M_bind_Ok; [exact Ha'|exact Ha1]. }
    split; [done|]. intros r' c' Hr' Hc'.
    rewrite (Hcells r' c' Hr' Hc'), (Hcells1 r' c' Hr' Hc').
    destruct (decide (r' ∈ rs /\ c' < C')) as [[Hin Hlt]|Hnot].
    + rewrite decide_True; [done|]. split; [by right|done].
    + destruct (decide (r' = r /\ c' ∈ seqZ 0 C')) as [[-> Hin]|Hne].
      * apply elem_of_seqZ in Hin. rewrite decide_True; [done|].
        split; [left|lia].
      * rewrite decide_False; [done|]. intros [[->|?]%elem_of_cons Hlt].
        -- apply Hne. split; [done|]. apply elem_of_seqZ. lia.
        -- tauto.
Qed.

Lemma write_wells a :
  wf a R C ->
  exists a',
    for_wells (PyInt R') (PyInt C') body a = (Ok tt, a') /\ wf a' R C /\
    forall r c, 0 <= r < R -> 0 <= c < C ->
      val a' r c = if decide (r < R' /\ c < C') then F r c else val a r c.
Proof.
  intros Ha. destruct (write_rows (seqZ 0 R') a Ha) as (a' & Ha' & Hwf & Hcells).
  { by intros r ?%elem_of_seqZ. }
  exists a'. split; [exact Ha'|]. split; [done|]. intros r c Hr Hc.
  rewrite (Hcells r c Hr Hc).
  destruct (decide (r < R' /\ c < C')) as [[H1 H2]|Hnot].
  - rewrite decide_True; [done|]. split; [apply elem_of_seqZ; lia|done].
  - rewrite decide_False; [done|]. intros [?%elem_of_seqZ ?]. apply Hnot. lia.
Qed.
End Write.

(** ** Construction, once more *)

(** X1: [PlateSet(R, C)] with any two integers raises nothing: the grid
    has [R] rows of [C] cells (none for a dimension below 1), every cell
    reads as the sentinel, [count_defaults] is the number of cells and
    [num_wells] is the product [C * R], negative or not. *)
Theorem init_int_gives_empty_grid (R C : Z) :
  exists p,
    PlateSet_init (PyInt R) (PyInt C) = Ok p /\
    num_rows p = PyInt R /\ num_cols p = PyInt C /\ num_wells p = PyInt (C * R) /\
    length (grid p) = Z.to_nat R /\
    Forall (fun cells => length cells = Z.to_nat C) (grid p) /\
    (forall r c, 0 <= r < R -> 0 <= c < C -> value_of p (Pos2 r c) = Ok "xxxxx"%string) /\
    count_defaults p = Ok (Z.max 0 R * Z.max 0 C).
Proof.
  exists (empty_plate R C). pose proof (empty_plate_wf R C) as Hwf.
  split; [apply PlateSet_init_int|]. split_and!; try apply Hwf.
  - intros r c Hr Hc. rewrite (value_of_val Hwf) by done.
    by rewrite val_empty_plate.
  - rewrite (count_defaults_eq _ R C Hwf). f_equal.
    assert (Hall : Forall (fun v => v = _null (empty_plate R C))
                     (concat (grid (empty_plate R C)))).
    { simpl. apply Forall_forall. intros v Hv.
      apply list_elem_of_In, in_concat in Hv as (cells & Hc & Hv).
      apply list_elem_of_In, elem_of_replicate in Hc as [-> _].
      by apply list_elem_of_In, elem_of_replicate in Hv as [-> _]. }
    assert (Hf : forall l : list string,
               Forall (fun v => v = _null (empty_plate R C)) l ->
               filter (fun v => v = _null (empty_plate R C)) l = l).
    { induction 1 as [|v l Hv _ IH]; [done|].
      by rewrite filter_cons, decide_True, IH by done. }
    rewrite (Hf _ Hall).
    rewrite (length_concat_uniform _ (Z.to_nat C)) by apply (wf_row_len _ _ _ Hwf).
    rewrite (wf_len _ _ _ Hwf). lia.
Qed.




(** ** Writing and reading one cell *)

Lemma value_of_put (p : PlateSet) (R C r0 c0 : Z) (v : string) (pos : position) :
  wf p R C -> 0 <= r0 < R -> 0 <= c0 < C ->
  value_of (put p (Z.to_nat r0) (Z.to_nat c0) v) pos
    = if decide (unpack pos = (r0, c0)) then Ok v else value_of p pos.
Proof.
  intros Hwf Hr0 Hc0.
  rewrite (value_of_wf (put_wf Hwf _ _ v)), (value_of_wf Hwf).
  destruct (unpack pos) as [r c] eqn:Hpos. cbn [fst snd].
  destruct (inside R C r c) eqn:Hin.
  - apply inside_spec in Hin as [Hr Hc]. rewrite cell_put.
    destruct (decide ((r, c) = (r0, c0))) as [[= -> ->]|Hne].
    + rewrite decide_True by done.
      by destruct (cell_inside Hwf r0 c0 Hr0 Hc0) as [w ->].
    + rewrite decide_False; [done|]. intros [H1 H2]. apply Hne. f_equal; lia.
  - rewrite decide_False; [done|]. intros [= -> ->].
    by rewrite (proj2 (inside_spec R C r0 c0)) in Hin.
Qed.

(** X3: [insert] at a coordinate inside the grid raises nothing; after
    it [value_of] at that coordinate returns the inserted value, at any
    other position it returns (or raises) what it did before, and the
    dimensions are unchanged. *)
Theorem insert_then_value_of (p : PlateSet) (R C : Z) (pos : position) (value : string) :
  wf p R C ->
  0 <= (unpack pos).1 < R -> 0 <= (unpack pos).2 < C ->
  exists p',
    insert value pos p = (Ok tt, p') /\ wf p' R C /\
    value_of p' pos = Ok value /\
    forall pos', unpack pos' <> unpack pos -> value_of p' pos' = value_of p pos'.
Proof.
  intros Hwf Hr Hc. rewrite (insert_wf Hwf).
  rewrite (proj2 (inside_spec R C _ _)) by done.
  eexists. split; [done|]. split; [by apply put_wf|].
  destruct (unpack pos) as [r0 c0] eqn:Hpos. cbn [fst snd] in *. split.
  - rewrite (value_of_put p R C) by done. by rewrite decide_True.
  - intros pos' Hne. rewrite (value_of_put p R C) by done. by rewrite decide_False.
Qed.

Lemma insert_then_value_of_witness :
  wf (empty_plate 2 3) 2 3 /\
  exists p',
    insert "TEST" (Pos1 (1, 1)) (empty_plate 2 3) = (Ok tt, p') /\
    value_of p' (Pos2 1 1) = Ok "TEST"%string.
Proof.
  split; [apply empty_plate_wf|].
  destruct (insert_then_value_of (empty_plate 2 3) 2 3 (Pos1 (1, 1)) "TEST"
              (empty_plate_wf 2 3)) as (p' & Hins & _ & Hval & _);
    [simpl; lia|simpl; lia|].
  exists p'. split; [exact Hins|exact Hval].
Defined.

(** X4: [remove] at a coordinate inside the grid raises nothing and
    leaves the sentinel there, every other position reading as before;
    an [insert] into an empty cell followed by [remove] at the same
    coordinate gives back the grid as it was. *)
Theorem remove_resets_one_cell (p : PlateSet) (R C : Z) (pos : position) (value : string) :
  wf p R C ->
  0 <= (unpack pos).1 < R -> 0 <= (unpack pos).2 < C ->
  (exists p',
     remove pos p = (Ok tt, p') /\ wf p' R C /\
     value_of p' pos = Ok (_null p) /\
     forall pos', unpack pos' <> unpack pos -> value_of p' pos' = value_of p pos') /\
  (value_of p pos = Ok (_null p) ->
   (insert value pos ;;; remove pos) p = (Ok tt, p)).
Proof.
  intros Hwf Hr Hc. destruct (unpack pos) as [r0 c0] eqn:Hpos. cbn [fst snd] in *.
  split.
  - rewrite (remove_wf Hwf), Hpos. cbn [fst snd].
    rewrite (proj2 (inside_spec R C _ _)) by done.
    eexists. split; [done|]. split; [by apply put_wf|]. split.
    + rewrite (value_of_put p R C) by done. by rewrite Hpos, decide_True.
    + intros pos' Hne. rewrite (value_of_put p R C) by done.
      by rewrite decide_False.
  - intros Hempty. unfold M_bind.
    rewrite (insert_wf Hwf), Hpos. cbn [fst snd].
    rewrite (proj2 (inside_spec R C _ _)) by done.
    pose proof (put_wf Hwf (Z.to_nat r0) (Z.to_nat c0) value) as Hwf1.
    rewrite (remove_wf Hwf1), Hpos. cbn [fst snd].
    rewrite (proj2 (inside_spec R C _ _)) by done. f_equal.
    apply (wf_ext _ p R C); [by apply put_wf|done|].
    intros r c Hr' Hc'. rewrite (val_put _ R C) by (done || lia).
    case_decide as Heq; [|by rewrite (val_put _ R C), decide_False by (done || lia)].
    destruct Heq as [-> ->].
    assert (Hv : value_of p (Pos2 r0 c0) = Ok (_null p)).
    { rewrite <- Hempty. unfold value_of. by rewrite Hpos. }
    rewrite (value_of_val Hwf) in Hv by done. injection Hv as ->. done.
Qed.

Lemma remove_resets_one_cell_witness :
  wf (empty_plate 2 3) 2 3 /\
  (insert "TEST" (Pos1 (1, 1)) ;;; remove (Pos1 (1, 1))) (empty_plate 2 3)
    = (Ok tt, empty_plate 2 3).
Proof.
  split; [apply empty_plate_wf|].
  apply (remove_resets_one_cell (empty_plate 2 3) 2 3 (Pos1 (1, 1)) "TEST"
           (empty_plate_wf 2 3)); [simpl; lia|simpl; lia|reflexivity].
Defined.

(** ** Clearing and copying *)

(** X6: [clear] on a grid with integer dimensions raises nothing and
    leaves, whatever the cells held, the very grid that the constructor
    builds from the dimensions stored in it: same attributes, every cell
    the sentinel. *)
Theorem clear_gives_the_empty_grid (p : PlateSet) (R C : Z) :
  wf p R C ->
  clear p = (Ok tt, empty_plate R C) /\
  PlateSet_init (num_rows p) (num_cols p) = Ok (empty_plate R C).
Proof.
  intros Hwf. split.
  - destruct (write_wells (fun r c => remove (Pos2 r c)) (fun _ _ => "xxxxx"%string)
                R C R C ltac:(lia) ltac:(lia)) with (a := p) as (a' & Ha' & Hwf' & Hcells).
    { intros a r c Ha Hr Hc. rewrite (remove_wf Ha). cbn [unpack fst snd].
      by rewrite (proj2 (inside_spec R C r c)), (wf_null _ _ _ Ha). }
    { done. }
    unfold clear. rewrite (wf_rows _ _ _ Hwf), (wf_cols _ _ _ Hwf), Ha'. f_equal.
    apply (wf_ext a' _ R C Hwf' (empty_plate_wf R C)). intros r c Hr Hc.
    rewrite (Hcells r c Hr Hc), val_empty_plate by done.
    by rewrite decide_True by lia.
  - rewrite (wf_rows _ _ _ Hwf), (wf_cols _ _ _ Hwf). apply PlateSet_init_int.
Qed.

Lemma clear_gives_the_empty_grid_witness :
  wf (plate 2 3 [["A"; "B"; "C"]; ["D"; "xxxxx"; "D"]]%string) 2 3 /\
  clear (plate 2 3 [["A"; "B"; "C"]; ["D"; "xxxxx"; "D"]]%string)
    = (Ok tt, empty_plate 2 3).
Proof.
  assert (Hwf : wf (plate 2 3 [["A"; "B"; "C"]; ["D"; "xxxxx"; "D"]]%string) 2 3).
  { split; simpl; try reflexivity. repeat constructor. }
  split; [exact Hwf|]. apply (clear_gives_the_empty_grid _ 2 3 Hwf).
Defined.

(** X7: [copy] of a grid with integer dimensions raises nothing and
    returns a grid with the same attributes and the same cells, so that
    [is_equal_to] between the two is [True]. *)
Theorem copy_is_equal (int_of_str : string -> res Z) (p : PlateSet) (R C : Z) :
  wf p R C ->
  copy int_of_str p = Ok p /\ is_equal_to p p = Ok true.
Proof.
  intros Hwf. split; [|by apply (is_equal_to_refl p R C)].
  unfold copy. rewrite (wf_rows _ _ _ Hwf), (wf_cols _ _ _ Hwf). cbn [py_int res_bind].
  rewrite PlateSet_init_int. cbn [res_bind].
  destruct (write_wells
              (fun r c => v <~ lift (value_of p (Pos2 r c));; insert v (Pos2 r c))
              (fun r c => val p r c) R C R C ltac:(lia) ltac:(lia))
    with (a := empty_plate R C) as (a' & Ha' & Hwf' & Hcells).
  { intros a r c Ha Hr Hc. unfold M_bind, lift.
    rewrite (value_of_val Hwf), (insert_wf Ha) by done. cbn [unpack fst snd].
    by rewrite (proj2 (inside_spec R C r c)). }
  { apply empty_plate_wf. }
  rewrite Ha'. f_equal. apply (wf_ext a' p R C Hwf' Hwf). intros r c Hr Hc.
  rewrite (Hcells r c Hr Hc). by rewrite decide_True by lia.
Qed.

Lemma copy_is_equal_witness :
  wf (plate 2 3 [["A"; "B"; "C"]; ["D"; "xxxxx"; "D"]]%string) 2 3 /\
  copy (fun _ => Raise (ValueError Builtin))
       (plate 2 3 [["A"; "B"; "C"]; ["D"; "xxxxx"; "D"]]%string)
    = Ok (plate 2 3 [["A"; "B"; "C"]; ["D"; "xxxxx"; "D"]]%string).
Proof.
  assert (Hwf : wf (plate 2 3 [["A"; "B"; "C"]; ["D"; "xxxxx"; "D"]]%string) 2 3).
  { split; simpl; try reflexivity. repeat constructor. }
  split; [exact Hwf|]. apply (copy_is_equal _ _ 2 3 Hwf).
Defined.

(** ** Rows and columns *)

Lemma entry_table (f : Z -> Z -> string) (n m : Z) (i j : nat) :
  entry ((fun a => (fun b => f a b) <$> seqZ 0 m) <$> seqZ 0 n) i j
    = if decide (Z.of_nat i < n /\ Z.of_nat j < m)
      then Some (f (Z.of_nat i) (Z.of_nat j)) else None.
Proof.
  unfold entry. rewrite list_lookup_fmap.
  destruct (decide (Z.of_nat i < n)) as [Hi|Hi].
  - rewrite lookup_seqZ_lt by done. cbn. rewrite list_lookup_fmap.
    destruct (decide (Z.of_nat j < m)) as [Hj|Hj].
    + rewrite lookup_seqZ_lt by done. cbn. by rewrite decide_True.
    + rewrite lookup_seqZ_ge by lia. cbn. by rewrite decide_False by tauto.
  - rewrite lookup_seqZ_ge by lia. cbn. by rewrite decide_False by tauto.
Qed.

(** X11: on a grid of [R] rows and [C] columns [get_cols] raises
    nothing and returns the transpose of [get_rows]: [C] lists of
    length [R], the entry [i] of column [j] being the entry [j] of row
    [i]. *)
Theorem get_cols_transposes_get_rows (p : PlateSet) (R C : Z) :
  wf p R C ->
  exists cols,
    get_cols p = Ok cols /\
    length cols = Z.to_nat C /\
    Forall (fun col => length col = Z.to_nat R) cols /\
    forall i j, entry cols j i = entry (get_rows p) i j.
Proof.
  intros Hwf. rewrite (get_cols_wf Hwf). eexists. split; [done|].
  split; [by rewrite length_fmap, length_seqZ|]. split.
  - apply Forall_fmap, Forall_forall. intros c _. cbn.
    by rewrite length_fmap, length_seqZ.
  - intros i j. unfold get_rows. rewrite (grid_vals p R C Hwf) at 1.
    rewrite (entry_table (fun c r => val p r c)), (entry_table (fun r c => val p r c)).
    destruct (decide (Z.of_nat i < R /\ Z.of_nat j < C)) as [Hin|Hout].
    + by rewrite decide_True by tauto.
    + by rewrite decide_False by tauto.
Qed.

Lemma get_cols_transposes_get_rows_witness :
  wf (plate 2 3 [["A"; "B"; "C"]; ["D"; "E"; "F"]]%string) 2 3 /\
  get_cols (plate 2 3 [["A"; "B"; "C"]; ["D"; "E"; "F"]]%string)
    = Ok [["A"; "D"]; ["B"; "E"]; ["C"; "F"]]%string.
Proof.
  assert (Hwf : wf (plate 2 3 [["A"; "B"; "C"]; ["D"; "E"; "F"]]%string) 2 3).
  { split; simpl; try reflexivity. repeat constructor. }
  split; [exact Hwf|].
  destruct (get_cols_transposes_get_rows _ 2 3 Hwf) as (cols & Hcols & _).
  reflexivity.
Defined.

(** ** Comparison and bulk copy, in general *)

(** X8: between two grids of the same integer dimensions [is_equal_to]
    raises nothing; it returns [True] exactly when [value_of] agrees at
    every coordinate, in which case the two grids are the same value,
    and it gives the same answer with the grids exchanged. *)
Theorem is_equal_to_compares_cells (a b : PlateSet) (R C : Z) :
  wf a R C -> wf b R C ->
  (exists t, is_equal_to a b = Ok t) /\
  (is_equal_to a b = Ok true <->
   forall r c, 0 <= r < R -> 0 <= c < C ->
     value_of a (Pos2 r c) = value_of b (Pos2 r c)) /\
  (is_equal_to a b = Ok true -> a = b) /\
  is_equal_to a b = is_equal_to b a.
Proof.
  intros Ha Hb. rewrite (is_equal_to_same_dims Ha Hb), (is_equal_to_same_dims Hb Ha).
  assert (Hcells : grid a = grid b <->
            forall r c, 0 <= r < R -> 0 <= c < C ->
              value_of a (Pos2 r c) = value_of b (Pos2 r c)).
  { split.
    - intros Heq r c Hr Hc. rewrite (value_of_val Ha), (value_of_val Hb) by done.
      unfold val, cell. by rewrite Heq.
    - intros Hval. apply (wf_grid_ext a b R C Ha Hb). intros r c Hr Hc.
      specialize (Hval r c Hr Hc).
      rewrite (value_of_val Ha), (value_of_val Hb) in Hval by done.
      by injection Hval. }
  split_and!.
  - eauto.
  - rewrite <- Hcells. split.
    + intros [= Ht]. by apply bool_decide_eq_true_1 in Ht.
    + intros Heq. by rewrite bool_decide_eq_true_2.
  - intros [= Ht]. apply bool_decide_eq_true_1 in Ht.
    apply (wf_ext a b R C Ha Hb). intros r c _ _. unfold val, cell. by rewrite Ht.
  - f_equal. apply bool_decide_ext. split; by intros ->.
Qed.

Lemma is_equal_to_compares_cells_witness :
  wf (empty_plate 2 3) 2 3 /\
  wf (plate 2 3 [["A"; "B"; "C"]; ["D"; "E"; "F"]]%string) 2 3 /\
  is_equal_to (empty_plate 2 3) (plate 2 3 [["A"; "B"; "C"]; ["D"; "E"; "F"]]%string)
  = is_equal_to (plate 2 3 [["A"; "B"; "C"]; ["D"; "E"; "F"]]%string) (empty_plate 2 3).
Proof.
  assert (Hwf : wf (plate 2 3 [["A"; "B"; "C"]; ["D"; "E"; "F"]]%string) 2 3).
  { split; simpl; try reflexivity. repeat constructor. }
  split; [apply empty_plate_wf|]. split; [exact Hwf|].
  apply (is_equal_to_compares_cells _ _ 2 3 (empty_plate_wf 2 3) Hwf).
Defined.

(** X9: when the other grid is no larger than this one in either
    direction and the guard of [fill_by_other] lets the call through
    (equal row counts, or this grid's column count equal to the other
    grid's row count), nothing is raised: the cells inside the other
    grid's shape take its values, the remaining cells and the dimensions
    stay as they were.  With equal dimensions the grid becomes equal to
    the other one. *)
Theorem fill_by_other_copies_what_fits (a b : PlateSet) (Ra Ca Rb Cb : Z) :
  wf a Ra Ca -> wf b Rb Cb ->
  Rb <= Ra -> Cb <= Ca -> Ra = Rb \/ Ca = Rb ->
  exists a',
    fill_by_other b a = (Ok tt, a') /\ wf a' Ra Ca /\
    (forall r c, 0 <= r < Rb -> 0 <= c < Cb ->
       value_of a' (Pos2 r c) = value_of b (Pos2 r c)) /\
    (forall r c, 0 <= r < Ra -> 0 <= c < Ca -> Rb <= r \/ Cb <= c ->
       value_of a' (Pos2 r c) = value_of a (Pos2 r c)) /\
    (Ra = Rb -> Ca = Cb -> a' = b).
Proof.
  intros Ha Hb HR HC Hguard.
  destruct (write_wells
              (fun r c => v <~ lift (value_of b (Pos2 r c));; insert v (Pos2 r c))
              (fun r c => val b r c) Ra Ca Rb Cb HR HC)
    with (a := a) as (a' & Ha' & Hwf' & Hcells).
  { intros a0 r c Ha0 Hr Hc. unfold M_bind, lift.
    rewrite (value_of_val Hb), (insert_wf Ha0) by done. cbn [unpack fst snd].
    by rewrite (proj2 (inside_spec Ra Ca r c)) by lia. }
  { done. }
  exists a'. split.
  { unfold fill_by_other.
    rewrite (wf_rows _ _ _ Ha), (wf_cols _ _ _ Ha), (wf_rows _ _ _ Hb), (wf_cols _ _ _ Hb).
    cbn [py_eq as_index].
    destruct (Z.eqb_spec Ra Rb) as [_|Hne]; [done|].
    destruct (Z.eqb_spec Ca Rb) as [_|Hne']; [done|lia]. }
  split; [done|]. split_and!.
  - intros r c Hr Hc.
    rewrite (value_of_val Hwf'), (value_of_val Hb) by (done || lia).
    rewrite Hcells by lia. by rewrite decide_True by lia.
  - intros r c Hr Hc Hout.
    rewrite (value_of_val Hwf'), (value_of_val Ha) by done.
    rewrite Hcells by lia. by rewrite decide_False by lia.
  - intros -> ->. apply (wf_ext a' b Rb Cb Hwf' Hb). intros r c Hr Hc.
    rewrite Hcells by done. by rewrite decide_True by lia.
Qed.

Lemma fill_by_other_copies_what_fits_witness :
  wf (empty_plate 2 3) 2 3 /\
  wf (plate 2 2 [["P"; "Q"]; ["R"; "S"]]%string) 2 2 /\
  exists a',
    fill_by_other (plate 2 2 [["P"; "Q"]; ["R"; "S"]]%string) (empty_plate 2 3)
      = (Ok tt, a') /\
    wf a' 2 3.
Proof.
  assert (Hwf : wf (plate 2 2 [["P"; "Q"]; ["R"; "S"]]%string) 2 2).
  { split; simpl; try reflexivity. repeat constructor. }
  split; [apply empty_plate_wf|]. split; [exact Hwf|].
  destruct (fill_by_other_copies_what_fits _ _ 2 3 2 2 (empty_plate_wf 2 3) Hwf)
    as (a' & Hfill & Hwf' & _); [lia|lia|lia|].
  exists a'. split; [exact Hfill|exact Hwf'].
Defined.

(** What a loop can end in, given what its body can end in: [I] is kept
    by the body, [P] holds of everything the body raises. *)
Lemma for_each_outcome {S A} (I : S -> Prop) (P : exn -> Prop)
    (body : A -> M S unit) (l : list A) (s : S) :
  (forall x s, x ∈ l -> I s ->
     (exists s', body x s = (Ok tt, s') /\ I s') \/
     (exists e s', body x s = (Raise e, s') /\ P e)) ->
  I s ->
  (exists s', for_each l body s = (Ok tt, s') /\ I s') \/
  (exists e s', for_each l body s = (Raise e, s') /\ P e).
Proof.
  revert s. induction l as [|x l IH]; intros s Hbody Hs; cbn [for_each].
  - left. by exists s.
  - destruct (Hbody x s) as [(s1 & H1 & Hs1)|(e & s1 & H1 & He)]; [left|done| |].
    + destruct (IH s1) as [(s' & H' & Hs')|(e & s' & H' & He)]; [|done| |].
      * intros y s0 Hy. apply Hbody. by right.
      * left. exists s'. split; [|done]. by erewrite M_bind_Ok.
      * right. exists e, s'. split; [|done]. by erewrite M_bind_Ok.
    + right. exists e, s1. split; [|done]. unfold M_bind. by rewrite H1.
Qed.

(** X10: between two grids with integer dimensions, [fill_by_other]
    raises its own "incompatible dimensions" error exactly when the row
    counts differ and this grid's column count differs from the other
    grid's row count, and the grid is then untouched.  When that guard
    lets the call through, the only thing the call can raise is the
    range error of [insert]. *)
Theorem fill_by_other_guard (a b : PlateSet) (Ra Ca Rb Cb : Z) :
  wf a Ra Ca -> wf b Rb Cb ->
  (Ra <> Rb /\ Ca <> Rb ->
   fill_by_other b a = (Raise (ValueError FillIncompatible), a)) /\
  (~ (Ra <> Rb /\ Ca <> Rb) ->
   (exists a', fill_by_other b a = (Ok tt, a') /\ wf a' Ra Ca) \/
   (exists a', fill_by_other b a = (Raise (ValueError InsertOutside), a'))).
Proof.
  intros Ha Hb. unfold fill_by_other.
  rewrite (wf_rows _ _ _ Ha), (wf_cols _ _ _ Ha), (wf_rows _ _ _ Hb), (wf_cols _ _ _ Hb).
  cbn [py_eq as_index]. split.
  - intros [H1 H2].
    destruct (Z.eqb_spec Ra Rb) as [?|_]; [done|].
    by destruct (Z.eqb_spec Ca Rb) as [?|_].
  - intros Hguard.
    assert (Hg : negb (Ra =? Rb) && negb (Ca =? Rb) = false).
    { destruct (Z.eqb_spec Ra Rb), (Z.eqb_spec Ca Rb); try done. tauto. }
    rewrite Hg.
    destruct (for_each_outcome (fun s => wf s Ra Ca)
                (fun e => e = ValueError InsertOutside)
                (fun row_idx =>
                   cs <~ lift (py_range (PyInt Cb));;
                   for_each cs (fun col_idx =>
                     v <~ lift (value_of b (Pos2 row_idx col_idx));;
                     insert v (Pos2 row_idx col_idx)))
                (seqZ 0 Rb) a) as [(a' & H' & Hwf')|(e & a' & H' & ->)].
    + intros r s Hr%elem_of_seqZ Hs.
      destruct (for_each_outcome (fun s => wf s Ra Ca)
                  (fun e => e = ValueError InsertOutside)
                  (fun col_idx =>
                     v <~ lift (value_of b (Pos2 r col_idx));;
                     insert v (Pos2 r col_idx))
                  (seqZ 0 Cb) s) as [(s' & H' & Hwf')|(e & s' & H' & ->)].
      * intros c s0 Hc%elem_of_seqZ Hs0. unfold M_bind, lift.
        rewrite (value_of_val Hb), (insert_wf Hs0) by lia. cbn [unpack fst snd].
        destruct (inside Ra Ca r c).
        -- left. eexists. split; [done|]. by apply put_wf.
        -- right. by exists (ValueError InsertOutside), s0.
      * done.
      * left. by exists s'.
      * right. by exists (ValueError InsertOutside), s'.
    + done.
    + left. by exists a'.
    + right. by exists a'.
Qed.

Lemma fill_by_other_guard_witness :
  wf (empty_plate 2 3) 2 3 /\ wf (empty_plate 16 24) 16 24 /\
  fill_by_other (empty_plate 16 24) (empty_plate 2 3)
    = (Raise (ValueError FillIncompatible), empty_plate 2 3).
Proof.
  split; [apply empty_plate_wf|]. split; [apply empty_plate_wf|].
  apply (fill_by_other_guard _ _ 2 3 16 24 (empty_plate_wf 2 3) (empty_plate_wf 16 24)).
  lia.
Defined.

(** ** Plate number and well label, everywhere *)

Lemma offset_to_num_keys (a b n : Z) :
  offset_to_num !! (a, b) = Some n -> (a = 0 \/ a = 1) /\ (b = 0 \/ b = 1).
Proof.
  unfold offset_to_num. intros H.
  repeat (apply lookup_insert_Some in H as [[[= <- <-] _]|[_ H]]; [lia|]).
  apply lookup_singleton_Some in H as [[= <- <-] _]. lia.
Qed.

Lemma indices_to_well_KeyError (p : PlateSet) (row col start_at : Z) :
  row <= 16 -> col <= 24 -> row < 0 \/ row = 16 \/ col < 0 \/ col = 24 ->
  _indices_to_well p (Pos2 row col) start_at = Raise KeyError.
Proof.
  intros Hr Hc Hout. unfold _indices_to_well. cbn [unpack].
  destruct (Z.gtb_spec row 16) as [?|_]; [lia|].
  destruct (Z.gtb_spec col 24) as [?|_]; [lia|]. cbn [orb].
  destruct (offset_to_num !! (row / 8, col / 12)) as [n|] eqn:Hn; [|done].
  exfalso. apply offset_to_num_keys in Hn as [Ha Hb].
  assert (0 <= row < 16) by (pose proof (Z.div_mod row 8); pose proof (Z.mod_pos_bound row 8); lia).
  assert (0 <= col < 24) by (pose proof (Z.div_mod col 12); pose proof (Z.mod_pos_bound col 12); lia).
  lia.
Qed.

(** X12: the three ways a call of [_indices_to_well] can end, for every
    integer coordinate.  It returns a label exactly for rows 0 to 15 and
    columns 0 to 23; it raises the [ValueError] of its guard for a row
    above 16 or a column above 24; and for every other coordinate, that
    is a negative row or column, row 16 or column 24, the lookup of the
    plate number raises [KeyError]. *)
Theorem indices_to_well_outcomes (p : PlateSet) (row col start_at : Z) :
  (0 <= row < 16 /\ 0 <= col < 24 ->
   _indices_to_well p (Pos2 row col) start_at
     = Ok ("Plate " ++ str (start_at + (2 * (row / 8) + col / 12)) ++ " "
           ++ row_letter (row mod 8) ++ str (col mod 12 + 1))%string) /\
  (16 < row \/ 24 < col ->
   _indices_to_well p (Pos2 row col) start_at = Raise (ValueError WellTransform)) /\
  (row <= 16 -> col <= 24 -> row < 0 \/ row = 16 \/ col < 0 \/ col = 24 ->
   _indices_to_well p (Pos2 row col) start_at = Raise KeyError).
Proof.
  split_and!.
  - intros [Hr Hc]. by apply indices_to_well_inside.
  - intros Hout. unfold _indices_to_well. cbn [unpack].
    destruct (Z.gtb_spec row 16) as [_|?]; [done|].
    destruct (Z.gtb_spec col 24) as [_|?]; [done|lia].
  - apply indices_to_well_KeyError.
Qed.

Lemma indices_to_well_outcomes_witness :
  _indices_to_well (empty_plate 16 24) (Pos2 15 23) 1 = Ok "Plate 4 H12"%string /\
  _indices_to_well (empty_plate 16 24) (Pos2 (-1) 0) 1 = Raise KeyError /\
  _indices_to_well (empty_plate 16 24) (Pos2 3 25) 1 = Raise (ValueError WellTransform).
Proof.
  destruct (indices_to_well_outcomes (empty_plate 16 24) 15 23 1) as (H1 & _ & _).
  destruct (indices_to_well_outcomes (empty_plate 16 24) (-1) 0 1) as (_ & _ & H2).
  destruct (indices_to_well_outcomes (empty_plate 16 24) 3 25 1) as (_ & H3 & _).
  split; [rewrite H1 by lia; reflexivity|].
  split; [apply H2; lia|apply H3; lia].
Defined.

(** ** Export *)

Lemma string_app_assoc (s t u : string) : ((s ++ t) ++ u = s ++ (t ++ u))%string.
Proof.
  induction s as [|a s IH]; [done|].
  change (String a ((s ++ t) ++ u) = String a (s ++ (t ++ u)))%string.
  by rewrite IH.
Qed.

Lemma string_app_nil_r (s : string) : (s ++ "" = s)%string.
Proof.
  induction s as [|a s IH]; [done|].
  change (String a (s ++ "") = String a s)%string. by rewrite IH.
Qed.

Lemma concat_str_app (l k : list string) :
  concat_str (l ++ k) = (concat_str l ++ concat_str k)%string.
Proof.
  induction l as [|s l IH]; [done|].
  change (s ++ concat_str (l ++ k) = (s ++ concat_str l) ++ concat_str k)%string.
  by rewrite IH, string_app_assoc.
Qed.

Lemma foldM_app {A B} (f : B -> A -> res B) (l k : list A) (acc : B) :
  foldM f (l ++ k) acc = (acc' <- foldM f l acc;; foldM f k acc').
Proof.
  revert acc. induction l as [|x l IH]; intros acc; [done|].
  cbn [foldM app]. destruct (f acc x); [apply IH|done].
Qed.

Section ExportText.
Context {p : PlateSet} {R C : Z} (Hwf : wf p R C) (start_at : Z).

Lemma export_row r cs acc :
  0 <= r < R -> r < 16 -> (forall c, c ∈ cs -> 0 <= c < C /\ c < 24) ->
  foldM (fun to_print col_idx =>
           label <- _indices_to_well p (Pos2 r col_idx) start_at;;
           v <- value_of p (Pos2 r col_idx);;
           Ok ((to_print ++ (label ++ ";" ++ v)) ++ String "010" "")%string)
        cs acc
  = Ok (acc ++ concat_str ((fun c => csv_line p start_at r c) <$> cs))%string.
Proof.
  intros Hr Hr16. revert acc. induction cs as [|c cs IH]; intros acc Hcs; cbn [foldM].
  - by rewrite string_app_nil_r.
  - destruct (Hcs c) as [Hc Hc24]; [left|].
    rewrite indices_to_well_inside by lia. cbn [res_bind].
    rewrite (value_of_val Hwf) by done. cbn [res_bind].
    rewrite IH by (intros; apply Hcs; by right). f_equal.
    rewrite fmap_cons. cbn [concat_str fold_right]. unfold csv_line, well_label.
    by rewrite !string_app_assoc.
Qed.

Lemma export_rows rs acc :
  C <= 24 -> (forall r, r ∈ rs -> 0 <= r < R /\ r < 16) ->
  foldM (fun to_print row_idx =>
           foldM (fun to_print col_idx =>
                    label <- _indices_to_well p (Pos2 row_idx col_idx) start_at;;
                    v <- value_of p (Pos2 row_idx col_idx);;
                    Ok ((to_print ++ (label ++ ";" ++ v)) ++ String "010" "")%string)
                 (seqZ 0 C) to_print)
        rs acc
  = Ok (acc ++ concat_str (r ← rs; (fun c => csv_line p start_at r c) <$> seqZ 0 C))%string.
Proof.
  intros HC. revert acc. induction rs as [|r rs IH]; intros acc Hrs; cbn [foldM].
  - by rewrite string_app_nil_r.
  - destruct (Hrs r) as [Hr Hr16]; [left|].
    rewrite export_row by (done || intros c ?%elem_of_seqZ; lia). cbn [res_bind].
    rewrite IH by (intros; apply Hrs; by right). f_equal.
    by rewrite bind_cons, concat_str_app, string_app_assoc.
Qed.

Lemma export_text_fits :
  R <= 16 -> C <= 24 ->
  export_text p start_at
  = Ok (concat_str (r ← seqZ 0 R; (fun c => csv_line p start_at r c) <$> seqZ 0 C)).
Proof.
  intros HR HC. unfold export_text, py_range, range_list.
  rewrite (wf_rows _ _ _ Hwf), (wf_cols _ _ _ Hwf). cbn [as_index res_bind].
  by rewrite export_rows by (done || intros r ?%elem_of_seqZ; lia).
Qed.

(** The first cell outside the 16x24 shape that the loops reach. *)
Lemma export_row_raises r acc :
  0 <= r < R -> r < 16 -> 25 <= C ->
  foldM (fun to_print col_idx =>
           label <- _indices_to_well p (Pos2 r col_idx) start_at;;
           v <- value_of p (Pos2 r col_idx);;
           Ok ((to_print ++ (label ++ ";" ++ v)) ++ String "010" "")%string)
        (seqZ 0 C) acc
  = Raise KeyError.
Proof.
  intros Hr Hr16 HC.
  replace C with (24 + (C - 24)) at 1 by lia. rewrite seqZ_app by lia.
  rewrite foldM_app, export_row by (done || intros c ?%elem_of_seqZ; lia).
  cbn [res_bind]. rewrite seqZ_cons by lia. cbn [foldM].
  by rewrite indices_to_well_KeyError by lia.
Qed.
Lemma export_text_oversized :
  (1 <= R /\ 25 <= C) \/ (17 <= R /\ 1 <= C) ->
  export_text p start_at = Raise KeyError.
Proof.
  intros Hbig. unfold export_text, py_range, range_list.
  rewrite (wf_rows _ _ _ Hwf), (wf_cols _ _ _ Hwf). cbn [as_index res_bind].
  destruct (Z.le_gt_cases 25 C) as [HC|HC].
  - rewrite (seqZ_cons 0 R) by lia. cbn [foldM].
    by rewrite export_row_raises by lia.
  - replace R with (16 + (R - 16)) at 1 by lia. rewrite seqZ_app by lia.
    rewrite foldM_app, export_rows by (lia || intros r ?%elem_of_seqZ; lia).
    cbn [res_bind]. rewrite (seqZ_cons (0 + 16)) by lia. cbn [foldM].
    rewrite (seqZ_cons 0 C) by lia. cbn [foldM].
    by rewrite indices_to_well_KeyError by lia.
Qed.
End ExportText.

(** X13: [export] of a grid that fits the 16x24 shape writes, to the
    file name completed by the type when it holds no dot, one line per
    cell in row-major order: the well label, a semicolon, the value of
    the cell and a newline. *)
Theorem export_writes_one_line_per_cell (p : PlateSet) (R C : Z)
    (filename type : string) (start_at : Z) :
  wf p R C -> R <= 16 -> C <= 24 -> str_lower type = "csv"%string ->
  export p filename type start_at
  = Written (if str_has "." filename then filename else filename ++ "." ++ type)%string
            (concat_str (r ← seqZ 0 R; (fun c => csv_line p start_at r c) <$> seqZ 0 C)).
Proof.
  intros Hwf HR HC Htype. unfold export. rewrite Htype. cbn [String.eqb].
  rewrite (export_text_fits Hwf) by done.
  replace (String.eqb "csv" "csv") with true by done.
  by destruct (str_has "." filename).
Qed.

Lemma export_writes_one_line_per_cell_witness :
  export (put (put (empty_plate 1 2) 0 0 "a") 0 1 "b") "out" "CSV" 1
  = Written "out.CSV"
      ("Plate 1 A1;a" ++ String "010" ("Plate 1 A2;b" ++ String "010" ""))%string.
Proof.
  rewrite (export_writes_one_line_per_cell _ 1 2);
    [done | | lia | lia | done].
  apply put_wf, put_wf, empty_plate_wf; lia.
Defined.

(** X14: [export] of a grid with a cell outside the 16x24 shape ends in
    the [KeyError] of the plate-number lookup, before any file is opened;
    the [ValueError] of [_indices_to_well] is never reached. *)
Theorem export_oversized_grid_writes_nothing (p : PlateSet) (R C : Z)
    (filename type : string) (start_at : Z) :
  wf p R C -> str_lower type = "csv"%string ->
  (1 <= R /\ 25 <= C) \/ (17 <= R /\ 1 <= C) ->
  export p filename type start_at = ExportRaised KeyError.
Proof.
  intros Hwf Htype Hbig. unfold export. rewrite Htype.
  replace (String.eqb "csv" "csv") with true by done.
  by rewrite (export_text_oversized Hwf).
Qed.

Lemma export_oversized_grid_writes_nothing_witness :
  export (empty_plate 17 1) "out.csv" "csv" 1 = ExportRaised KeyError.
Proof.
  apply (export_oversized_grid_writes_nothing _ 17 1); [|done|lia].
  apply empty_plate_wf; lia.
Defined.

(** ** Deconvolution of the pools of an arbitrary grid *)

Section Recover.
Context {G : PlateSet} {R C : Z} (Hwf : wf G R C).

Lemma val_cell r c :
  0 <= r < R -> 0 <= c < C -> cell G (Z.to_nat r) (Z.to_nat c) = Some (val G r c).
Proof.
  intros Hr Hc. destruct (cell_inside Hwf r c Hr Hc) as [x Hx].
  unfold val. by rewrite Hx.
Qed.

Lemma cell_val i j v :
  cell G i j = Some v ->
  0 <= Z.of_nat i < R /\ 0 <= Z.of_nat j < C /\ val G (Z.of_nat i) (Z.of_nat j) = v.
Proof.
  intros Hv. destruct (cell_Some_inside Hwf i j v Hv) as [Hi Hj].
  split; [done|]. split; [done|]. unfold val. by rewrite !Nat2Z.id, Hv.
Qed.

(** The candidates of an item, from the pools of [G] in any order: the
    crossings of a row and a column that both hold the item. *)
Lemma candidates_of_grid_pools hp0 vp0 hp vp item r c :
  hpools G = Ok hp0 -> vpools G = Ok vp0 ->
  same_pools hp hp0 -> same_pools vp vp0 ->
  (r, c) ∈ candidate_list hp vp item
  <-> (0 <= r < R /\ exists c', 0 <= c' < C /\ val G r c' = item)
      /\ (0 <= c < C /\ exists r', 0 <= r' < R /\ val G r' c = item).
Proof.
  intros Hhp0 Hvp0 Hsh Hsv.
  destruct (hpools_spec Hwf) as (hp1 & Hhp1 & Hhk & Hhs).
  destruct (vpools_spec Hwf) as (vp1 & Hvp1 & Hvk & Hvs).
  assert (hp1 = hp0) as -> by congruence. assert (vp1 = vp0) as -> by congruence.
  set (QH := fun (r : Z) (w : string) => exists j, cell G (Z.to_nat r) j = Some w).
  set (QV := fun (c : Z) (w : string) => exists i, cell G i (Z.to_nat c) = Some w).
  assert (Hh : pools_of_lines QH R hp).
  { apply (pools_of_lines_same QH R hp0); [by split|done]. }
  assert (Hv : pools_of_lines QV C vp).
  { apply (pools_of_lines_same QV C vp0); [by split|done]. }
  rewrite elem_of_candidate_list,
    (pools_with_of_lines QH R hp), (pools_with_of_lines QV C vp) by done.
  unfold QH, QV. split.
  - intros [[Hr [j Hj]] [Hc [i Hi]]].
    destruct (cell_val _ _ _ Hj) as (_ & Hj' & Hvj).
    destruct (cell_val _ _ _ Hi) as (Hi' & _ & Hvi).
    rewrite Z2Nat.id in Hvj, Hvi by lia.
    split; (split; [done|]); eauto.
  - intros [[Hr (c' & Hc' & <-)] [Hc (r' & Hr' & Hv')]].
    split; (split; [done|]).
    + exists (Z.to_nat c'). by apply val_cell.
    + exists (Z.to_nat r'). rewrite <- Hv'. by apply val_cell.
Qed.
End Recover.

(** What [solve] returns for the pools of a grid, in any order of their
    sets: a cell keeps its value when the value is in no other cell and
    is empty when the value is in another cell too. *)
Lemma solve_of_grid_pools (G : PlateSet) (R C : Z) (hp0 vp0 hp vp : pools) :
  wf G R C -> hpools G = Ok hp0 -> vpools G = Ok vp0 ->
  same_pools hp hp0 -> same_pools vp vp0 ->
  exists S,
    solve hp vp (PyInt R) (PyInt C) = Ok S /\ wf S R C /\
    forall r c, 0 <= r < R -> 0 <= c < C ->
      ((forall r' c', 0 <= r' < R -> 0 <= c' < C ->
          val G r' c' = val G r c -> r' = r /\ c' = c) ->
       val S r c = val G r c) /\
      ((exists r' c', 0 <= r' < R /\ 0 <= c' < C /\
          (r', c') <> (r, c) /\ val G r' c' = val G r c) ->
       val S r c = "xxxxx"%string).
Proof.
  intros Hwf Hhp0 Hvp0 Hsh Hsv.
  destruct (hpools_spec Hwf) as (hp1 & Hhp1 & Hhk & Hhs).
  destruct (vpools_spec Hwf) as (vp1 & Hvp1 & Hvk & Hvs).
  assert (hp1 = hp0) as -> by congruence. assert (vp1 = vp0) as -> by congruence.
  pose proof (fun item r c =>
    candidates_of_grid_pools Hwf hp0 vp0 hp vp item r c Hhp0 Hvp0 Hsh Hsv) as Hmem.
  assert (Hhkeys : hp.*1 = seqZ 0 R) by (by rewrite (same_pools_keys hp hp0)).
  assert (Hvkeys : vp.*1 = seqZ 0 C) by (by rewrite (same_pools_keys vp vp0)).
  destruct (solve_spec hp vp R C) as (S & HS & HwfS & Hcell).
  { apply Forall_forall. intros [k s] Hks.
    destruct (same_pools_elem hp hp0 k s Hsh Hks) as (s0 & Hs0 & Hp).
    rewrite Hp. by apply (Hhs k s0). }
  { intros k Hk. rewrite Hhkeys in Hk. apply elem_of_seqZ in Hk. lia. }
  { intros k Hk. rewrite Hvkeys in Hk. apply elem_of_seqZ in Hk. lia. }
  exists S. split; [done|]. split; [done|]. intros r c Hr Hc.
  (* an item whose only candidate is (r, c) is the value of that cell *)
  assert (Hsingle : forall item, candidate_list hp vp item = [(r, c)] ->
            item = val G r c /\
            forall r' c', 0 <= r' < R -> 0 <= c' < C ->
              val G r' c' = item -> r' = r /\ c' = c).
  { intros item Hitem.
    assert (Honly : forall r' c', (r', c') ∈ candidate_list hp vp item ->
              r' = r /\ c' = c).
    { intros r' c'. rewrite Hitem. by intros [= -> ->]%list_elem_of_singleton. }
    assert (Hat : forall r' c', 0 <= r' < R -> 0 <= c' < C ->
              val G r' c' = item -> r' = r /\ c' = c).
    { intros r' c' Hr' Hc' Hv. apply Honly, Hmem.
      split; (split; [done|]); eauto. }
    split; [|done].
    assert (Hin : (r, c) ∈ candidate_list hp vp item) by (rewrite Hitem; left).
    apply Hmem in Hin as [[_ (c' & Hc' & Hv)] _].
    destruct (Hat r c' Hr Hc' Hv) as [_ ->]. done. }
  split.
  - intros Huniq.
    assert (Hown : candidate_list hp vp (val G r c) = [(r, c)]).
    { apply NoDup_only_member.
      - apply NoDup_candidate_list; [rewrite Hhkeys|rewrite Hvkeys]; apply NoDup_seqZ.
      - intros [r' c']. rewrite Hmem. split.
        + intros [[Hr' (c1 & Hc1 & Hv1)] [Hc' (r1 & Hr1 & Hv2)]].
          destruct (Huniq r' c1 Hr' Hc1 Hv1) as [-> _].
          destruct (Huniq r1 c' Hr1 Hc' Hv2) as [_ ->]. done.
        + intros [= -> ->]. split; (split; [done|]); eauto. }
    destruct (Hcell r c Hr Hc) as [[_ Hno]|Hcand].
    + by destruct (Hno (val G r c) Hown).
    + by destruct (Hsingle _ Hcand) as [-> _].
  - intros (r' & c' & Hr' & Hc' & Hne & Hv).
    destruct (Hcell r c Hr Hc) as [[Hs _]|Hcand]; [done|].
    destruct (Hsingle _ Hcand) as [Hitem Hat].
    destruct (Hat r' c' Hr' Hc') as [-> ->]; [congruence|]. done.
Qed.

(** X15: [solve], given the pools of any grid [G] of [R] rows and [C]
    columns (members of each set in any order) and the dimensions of
    [G], returns a grid of the same dimensions in which a cell holds the
    value of [G] when that value occurs in no other cell of [G], and the
    sentinel when it occurs elsewhere too: an item is left out or put
    back where it was, never put into another cell. *)
Theorem solve_recovers_exactly_the_unique_values (G : PlateSet) (R C : Z) :
  wf G R C ->
  exists hp0 vp0,
    hpools G = Ok hp0 /\ vpools G = Ok vp0 /\
    forall hp vp, same_pools hp hp0 -> same_pools vp vp0 ->
      exists S,
        solve hp vp (num_rows G) (num_cols G) = Ok S /\ wf S R C /\
        forall r c, 0 <= r < R -> 0 <= c < C ->
          ((forall r' c', 0 <= r' < R -> 0 <= c' < C ->
              val G r' c' = val G r c -> r' = r /\ c' = c) ->
           val S r c = val G r c) /\
          ((exists r' c', 0 <= r' < R /\ 0 <= c' < C /\
              (r', c') <> (r, c) /\ val G r' c' = val G r c) ->
           val S r c = "xxxxx"%string).
Proof.
  intros Hwf.
  destruct (hpools_spec Hwf) as (hp0 & Hhp0 & _).
  destruct (vpools_spec Hwf) as (vp0 & Hvp0 & _).
  exists hp0, vp0. split; [done|]. split; [done|]. intros hp vp Hsh Hsv.
  rewrite (wf_rows _ _ _ Hwf), (wf_cols _ _ _ Hwf).
  by apply (solve_of_grid_pools G R C hp0 vp0).
Qed.

Lemma solve_recovers_exactly_the_unique_values_witness :
  exists hp0 vp0,
    hpools (plate 2 2 [["A"; "B"]; ["C"; "A"]]%string) = Ok hp0 /\
    vpools (plate 2 2 [["A"; "B"]; ["C"; "A"]]%string) = Ok vp0 /\
    solve hp0 vp0 (PyInt 2) (PyInt 2)
      = Ok (plate 2 2 [["xxxxx"; "B"]; ["C"; "xxxxx"]]%string).
Proof.
  assert (Hwf : wf (plate 2 2 [["A"; "B"]; ["C"; "A"]]%string) 2 2).
  { split; simpl; try reflexivity. repeat constructor. }
  destruct (solve_recovers_exactly_the_unique_values _ 2 2 Hwf)
    as (hp0 & vp0 & Hh & Hv & Hsolve).
  exists hp0, vp0. split; [exact Hh|]. split; [exact Hv|].
  destruct (Hsolve hp0 vp0 (same_pools_refl hp0) (same_pools_refl vp0))
    as (S & HS & HwfS & Hcells).
  simpl in HS. rewrite HS. f_equal.
  apply (wf_ext S _ 2 2 HwfS).
  { split; simpl; try reflexivity. repeat constructor. }
  intros r c Hr Hc.
  assert (Hrc : (r = 0 \/ r = 1) /\ (c = 0 \/ c = 1)) by lia.
  destruct (Hcells r c Hr Hc) as [Hkeep Hdrop].
  destruct Hrc as [[-> | ->] [-> | ->]].
  - rewrite Hdrop; [done|]. exists 1, 1. repeat split; (lia || done).
  - rewrite Hkeep; [done|]. intros r' c' Hr' Hc'.
    assert (Hrc' : (r' = 0 \/ r' = 1) /\ (c' = 0 \/ c' = 1)) by lia.
    destruct Hrc' as [[-> | ->] [-> | ->]]; vm_compute; (done || intros [=]).
  - rewrite Hkeep; [done|]. intros r' c' Hr' Hc'.
    assert (Hrc' : (r' = 0 \/ r' = 1) /\ (c' = 0 \/ c' = 1)) by lia.
    destruct Hrc' as [[-> | ->] [-> | ->]]; vm_compute; (done || intros [=]).
  - rewrite Hdrop; [done|]. exists 0, 0. repeat split; (lia || done).
Defined.

(** ** When the deconvolution raises *)

Section PlaceOutcome.
Context (d : candidate_map) (R C : Z).

Lemma place_item_outcome p item :
  wf p R C -> item ∈ d.*1 ->
  place_item d item p =
    match cands_of d item with
    | [(r, c)] =>
        if inside R C r c
        then (Ok tt, put p (Z.to_nat r) (Z.to_nat c) item)
        else (Raise (ValueError InsertOutside), p)
    | _ => (Ok tt, p)
    end.
Proof.
  intros Hwf Hin. unfold place_item, M_bind, lift, cands_of.
  destruct (dict_get_present d item Hin) as [l ->].
  destruct l as [|[r0 c0] [|? l]]; [done| |].
  - change (insert item (Pos1 (r0, c0)) p =
              if inside R C r0 c0
              then (Ok tt, put p (Z.to_nat r0) (Z.to_nat c0) item)
              else (Raise (ValueError InsertOutside), p)).
    by rewrite (insert_wf Hwf).
  - cbn [length]. by destruct (Z.eqb_spec (Z.of_nat (S (S (length l)))) 1); [lia|].
Qed.

Lemma place_outcome ks p :
  wf p R C -> (forall item, item ∈ ks -> item ∈ d.*1) ->
  (exists p', for_each ks (place_item d) p = (Ok tt, p') /\ wf p' R C /\
     forall item r c, item ∈ ks -> cands_of d item = [(r, c)] -> inside R C r c = true)
  \/ (exists p' item r c,
        for_each ks (place_item d) p = (Raise (ValueError InsertOutside), p') /\
        item ∈ ks /\ cands_of d item = [(r, c)] /\ inside R C r c = false).
Proof.
  revert p. induction ks as [|item ks IH]; intros p Hwf Hkeys; cbn [for_each].
  - left. exists p. split; [done|]. split; [done|]. by intros ??? ?%elem_of_nil.
  - unfold M_bind. rewrite (place_item_outcome p item Hwf) by (apply Hkeys; left).
    assert (Hstep : (exists p1, wf p1 R C /\
                       match cands_of d item with
                       | [(r, c)] =>
                           if inside R C r c
                           then (Ok tt, put p (Z.to_nat r) (Z.to_nat c) item)
                           else (Raise (ValueError InsertOutside), p)
                       | _ => (Ok tt, p)
                       end = (Ok tt, p1) /\
                       forall r c, cands_of d item = [(r, c)] -> inside R C r c = true)
                    \/ (exists r c, cands_of d item = [(r, c)] /\ inside R C r c = false)).
    { destruct (cands_of d item) as [|[r0 c0] [|? l]].
      - left. exists p. split; [done|]. split; [done|]. by intros.
      - destruct (inside R C r0 c0) eqn:Hin.
        + left. exists (put p (Z.to_nat r0) (Z.to_nat c0) item).
          split; [by apply put_wf|]. split; [done|]. by intros r c [= <- <-].
        + right. by exists r0, c0.
      - left. exists p. split; [done|]. split; [done|]. by intros. }
    destruct Hstep as [(p1 & Hwf1 & -> & Hhead)|(r0 & c0 & Hc0 & Hout)].
    + destruct (IH p1 Hwf1) as [(p' & Hp' & Hwf' & Hall)|(p' & it & r & c & Hp' & Hin & Hc & Hout)].
      { intros. apply Hkeys. by right. }
      * left. exists p'. split; [done|]. split; [done|].
        intros it r c [->|Hin]%elem_of_cons; [apply Hhead|by apply Hall].
      * right. exists p', it, r, c. split; [done|]. split; [by right|done].
    + right. rewrite Hc0, Hout. exists p, item, r0, c0.
      split; [done|]. split; [left|done].
Qed.
End PlaceOutcome.

(** X16: the two ways [solve] ends, for integer dimensions and any
    pools (the row sets, as Python sets, without repeated members): it
    raises the [ValueError] of [insert] exactly when some item has a
    single candidate position that lies outside the requested
    dimensions, and it returns a grid of these dimensions exactly when
    no item has. *)
Theorem solve_raises_iff_single_candidate_outside (hp vp : pools) (R C : Z) :
  Forall (fun e => NoDup e.2) hp ->
  (solve hp vp (PyInt R) (PyInt C) = Raise (ValueError InsertOutside)
   <-> exists item r c, candidate_list hp vp item = [(r, c)] /\ inside R C r c = false)
  /\ ((exists g, solve hp vp (PyInt R) (PyInt C) = Ok g /\ wf g R C)
      <-> forall item r c, candidate_list hp vp item = [(r, c)] -> inside R C r c = true).
Proof.
  intros Hsets. unfold solve. rewrite PlateSet_init_int. cbn [res_bind].
  destruct (scan_spec hp vp Hsets) as (d & -> & Hnd & Hcands). cbn [res_bind].
  unfold place.
  assert (Hkey : forall item r c, candidate_list hp vp item = [(r, c)] -> item ∈ d.*1).
  { intros item r c Hitem. destruct (decide (item ∈ d.*1)) as [|Hnin]; [done|].
    rewrite <- Hcands in Hitem. unfold cands_of in Hitem.
    by rewrite dict_get_missing in Hitem. }
  destruct (place_outcome d R C (d.*1) (empty_plate R C) (empty_plate_wf R C))
    as [(p' & -> & Hwf' & Hall)|(p' & it & r & c & -> & Hin & Hc & Hout)]; [done| |].
  - assert (Hins : forall item r c, candidate_list hp vp item = [(r, c)] ->
              inside R C r c = true).
    { intros item r c Hitem. apply (Hall item); [by eapply Hkey|by rewrite Hcands]. }
    split; split.
    + done.
    + intros (item & r & c & Hitem & Hout). rewrite (Hins item r c Hitem) in Hout. done.
    + done.
    + intros _. by exists p'.
  - rewrite Hcands in Hc. split; split.
    + intros _. by exists it, r, c.
    + done.
    + by intros (g & ? & _).
    + intros Hins. rewrite (Hins it r c Hc) in Hout. done.
Qed.

Lemma solve_raises_iff_single_candidate_outside_witness :
  solve [(0, ["A"]%string); (2, ["B"]%string)] [(0, ["A"; "B"]%string)] (PyInt 2) (PyInt 1)
  = Raise (ValueError InsertOutside).
Proof.
  apply (solve_raises_iff_single_candidate_outside
           [(0, ["A"]%string); (2, ["B"]%string)] [(0, ["A"; "B"]%string)] 2 1).
  - repeat constructor; set_solver.
  - by exists "B"%string, 2, 0.
Defined.

(** ** Seeded filling *)



(** ** Well labels *)

Lemma string_app_cons (a : ascii) (s t : string) :
  (String a s ++ t = String a (s ++ t))%string.
Proof. reflexivity. Qed.

(** [str] is one-to-one. *)
Lemma str_inj (a b : Z) : str a = str b -> a = b.
Proof.
  assert (Hback : forall z, NilZero.int_of_string (str z) = Some (Z.to_int z)).
  { intros z. apply NilZero.isi; destruct z as [|q|q]; simpl; try discriminate.
    all: intros [= H]; by apply DecimalPos.Unsigned.to_uint_nonnil in H. }
  intros Heq. apply DecimalZ.to_int_inj.
  pose proof (Hback a) as Ha. rewrite Heq, Hback in Ha. by injection Ha.
Qed.

(** [str] writes digits and a sign, no blank. *)
Lemma str_no_blank (z : Z) : str_has " " (str z) = false.
Proof.
  assert (Hdigits : forall d, str_has " " (NilEmpty.string_of_uint d) = false).
  { induction d; simpl; done. }
  assert (Huint : forall d, str_has " " (NilZero.string_of_uint d) = false).
  { intros d. destruct d; try apply Hdigits. done. }
  unfold str. destruct (Z.to_int z) as [d|d]; simpl; [apply Huint|].
  apply Huint.
Qed.

(** Two texts with no blank before their first blank agree part by
    part. *)
Lemma split_at_blank (s1 s2 t1 t2 : string) :
  str_has " " s1 = false -> str_has " " s2 = false ->
  (s1 ++ String " " t1 = s2 ++ String " " t2)%string ->
  s1 = s2 /\ t1 = t2.
Proof.
  revert s2. induction s1 as [|a s1 IH]; intros [|b s2] H1 H2 Heq.
  - by injection Heq.
  - rewrite string_app_cons in Heq. injection Heq as <- _. done.
  - rewrite string_app_cons in Heq. injection Heq as -> _. done.
  - rewrite !string_app_cons in Heq. injection Heq as -> Heq.
    simpl in H1, H2. apply orb_false_iff in H1 as [_ H1], H2 as [_ H2].
    destruct (IH s2 H1 H2 Heq) as [-> ->]. done.
Qed.

Lemma string_app_inv_head (s t u : string) : (s ++ t = s ++ u)%string -> t = u.
Proof.
  induction s as [|a s IH]; [done|]. rewrite !string_app_cons. intros [= H]. auto.
Qed.

Lemma row_letter_inj (a b : Z) (s t : string) :
  0 <= a < 8 -> 0 <= b < 8 ->
  (row_letter a ++ s = row_letter b ++ t)%string -> a = b /\ s = t.
Proof.
  intros Ha Hb.
  assert (Has : a = 0 \/ a = 1 \/ a = 2 \/ a = 3 \/ a = 4 \/ a = 5 \/ a = 6 \/ a = 7) by lia.
  assert (Hbs : b = 0 \/ b = 1 \/ b = 2 \/ b = 3 \/ b = 4 \/ b = 5 \/ b = 6 \/ b = 7) by lia.
  destruct Has as [->|[->|[->|[->|[->|[->|[->| ->]]]]]]];
    destruct Hbs as [->|[->|[->|[->|[->|[->|[->| ->]]]]]]];
    intros [= H]; done.
Qed.

(** X18: inside the 16x24 shape [_indices_to_well] gives different
    cells different labels, whatever the plate number the count starts
    at. *)
Theorem well_labels_are_distinct (p q : PlateSet) (start_at r1 c1 r2 c2 : Z)
    (l1 l2 : string) :
  0 <= r1 < 16 -> 0 <= c1 < 24 -> 0 <= r2 < 16 -> 0 <= c2 < 24 ->
  (r1, c1) <> (r2, c2) ->
  _indices_to_well p (Pos2 r1 c1) start_at = Ok l1 ->
  _indices_to_well q (Pos2 r2 c2) start_at = Ok l2 ->
  l1 <> l2.
Proof.
  intros Hr1 Hc1 Hr2 Hc2 Hne. rewrite !indices_to_well_inside by done.
  intros [= <-] [= <-] Heq. apply Hne. apply string_app_inv_head in Heq.
  apply split_at_blank in Heq as [Hn Hw]; [|apply str_no_blank..].
  apply str_inj in Hn.
  apply row_letter_inj in Hw as [Hrow Hcol]; [|by apply Z.mod_pos_bound..].
  apply str_inj in Hcol.
  pose proof (Z.div_mod r1 8). pose proof (Z.div_mod r2 8).
  pose proof (Z.div_mod c1 12). pose proof (Z.div_mod c2 12).
  pose proof (Z.mod_pos_bound r1 8). pose proof (Z.mod_pos_bound r2 8).
  pose proof (Z.mod_pos_bound c1 12). pose proof (Z.mod_pos_bound c2 12).
  assert (0 <= r1 / 8 < 2) by (split; [apply Z.div_pos|apply Z.div_lt_upper_bound]; lia).
  assert (0 <= r2 / 8 < 2) by (split; [apply Z.div_pos|apply Z.div_lt_upper_bound]; lia).
  assert (0 <= c1 / 12 < 2) by (split; [apply Z.div_pos|apply Z.div_lt_upper_bound]; lia).
  assert (0 <= c2 / 12 < 2) by (split; [apply Z.div_pos|apply Z.div_lt_upper_bound]; lia).
  f_equal; lia.
Qed.

Lemma well_labels_are_distinct_witness :
  _indices_to_well (empty_plate 16 24) (Pos2 0 11) 1 = Ok "Plate 1 A12"%string /\
  _indices_to_well (empty_plate 16 24) (Pos2 0 12) 1 = Ok "Plate 2 A1"%string /\
  "Plate 1 A12"%string <> "Plate 2 A1"%string.
Proof.
  split; [reflexivity|]. split; [reflexivity|].
  apply (well_labels_are_distinct (empty_plate 16 24) (empty_plate 16 24) 1 0 11 0 12);
    [lia|lia|lia|lia|discriminate|reflexivity|reflexivity].
Defined.

(** ** The self-test of the module *)

(** X19: one round of the self-test at the end of the module, on a grid
    [G] with no empty cell (as [fill_randomly] leaves it): taking the
    pools of [G], solving them with the dimensions of [G] and comparing
    raises nothing, and [G.is_equal_to] of the solved grid is [True]
    exactly when the values of [G] are pairwise distinct. *)
Theorem solved_completely_iff_values_distinct (G : PlateSet) (R C : Z) :
  wf G R C ->
  (forall r c, 0 <= r < R -> 0 <= c < C -> val G r c <> "xxxxx"%string) ->
  exists hp0 vp0,
    hpools G = Ok hp0 /\ vpools G = Ok vp0 /\
    forall hp vp, same_pools hp hp0 -> same_pools vp vp0 ->
      exists S t,
        solve hp vp (num_rows G) (num_cols G) = Ok S /\
        is_equal_to G S = Ok t /\
        (t = true <->
         forall r c r' c', 0 <= r < R -> 0 <= c < C -> 0 <= r' < R -> 0 <= c' < C ->
           val G r c = val G r' c' -> r = r' /\ c = c').
Proof.
  intros Hwf Hfull.
  destruct (hpools_spec Hwf) as (hp0 & Hhp0 & _).
  destruct (vpools_spec Hwf) as (vp0 & Hvp0 & _).
  exists hp0, vp0. split; [done|]. split; [done|]. intros hp vp Hsh Hsv.
  destruct (solve_of_grid_pools G R C hp0 vp0 hp vp Hwf Hhp0 Hvp0 Hsh Hsv)
    as (S & HS & HwfS & Hcells).
  exists S, (bool_decide (grid G = grid S)).
  rewrite (wf_rows _ _ _ Hwf), (wf_cols _ _ _ Hwf).
  split; [done|]. split; [by apply (is_equal_to_same_dims Hwf HwfS)|].
  rewrite bool_decide_eq_true. split.
  - intros Heq r c r' c' Hr Hc Hr' Hc' Hv.
    destruct (decide ((r, c) = (r', c'))) as [[= -> ->]|Hne]; [done|].
    exfalso. apply (Hfull r' c' Hr' Hc').
    replace (val G r' c') with (val S r' c') by (unfold val, cell; by rewrite Heq).
    apply (Hcells r' c' Hr' Hc'). by exists r, c.
  - intros Hdistinct. apply (wf_grid_ext G S R C Hwf HwfS). intros r c Hr Hc.
    symmetry. apply (Hcells r c Hr Hc). intros r' c' Hr' Hc' Hv.
    by apply (Hdistinct r' c' r c).
Qed.

Lemma solved_completely_iff_values_distinct_witness :
  exists hp0 vp0,
    hpools (plate 1 2 [["A"; "A"]]%string) = Ok hp0 /\
    vpools (plate 1 2 [["A"; "A"]]%string) = Ok vp0 /\
    exists S,
      solve hp0 vp0 (PyInt 1) (PyInt 2) = Ok S /\
      is_equal_to (plate 1 2 [["A"; "A"]]%string) S = Ok false.
Proof.
  assert (Hwf : wf (plate 1 2 [["A"; "A"]]%string) 1 2).
  { split; simpl; try reflexivity. repeat constructor. }
  destruct (solved_completely_iff_values_distinct _ 1 2 Hwf)
    as (hp0 & vp0 & Hh & Hv & Hsolve).
  { intros r c Hr Hc. assert (r = 0 /\ (c = 0 \/ c = 1)) as [-> [-> | ->]] by lia; done. }
  exists hp0, vp0. split; [exact Hh|]. split; [exact Hv|].
  destruct (Hsolve hp0 vp0 (same_pools_refl hp0) (same_pools_refl vp0))
    as (S & t & HS & Ht & Hiff).
  exists S. split; [exact HS|]. rewrite Ht. f_equal.
  destruct t; [|done]. exfalso.
  destruct (proj1 Hiff eq_refl 0 0 0 1) as [_ Hc]; (lia || done).
Defined.

(** ** Construction from two floats *)

Lemma float_eq_int_to_int (f : spec_float) (z : Z) :
  float_eq_int f z = true -> float_to_int f = Ok z.
Proof.
  destruct f as [s|s| |s m e]; simpl; try done.
  - intros ?%Z.eqb_eq. by subst.
  - destruct (0 <=? e).
    + intros ?%Z.eqb_eq. f_equal. destruct s; lia.
    + intros [_ ?%Z.eqb_eq]%andb_true_iff. f_equal. destruct s; lia.
Qed.

Lemma init_after_check (rows cols : pyval) (R C : Z) :
  check_dims rows cols = Ok (PyInt R, PyInt C) ->
  PlateSet_init rows cols = Ok (empty_plate R C).
Proof.
  intros Hcheck. rewrite <- (PlateSet_init_int R C). unfold PlateSet_init.
  rewrite Hcheck. reflexivity.
Qed.

(** X20: [PlateSet(rows, cols)] with two floats is built exactly when
    both floats are equal to integers, and is then the grid that the
    constructor builds from these two integers; a call that fails raises
    the "non float-like" [TypeError], or what [int()] raises for an
    infinity or a NaN. *)
Theorem init_of_two_floats (fr fc : spec_float) :
  (forall R C, float_eq_int fr R = true -> float_eq_int fc C = true ->
     PlateSet_init (PyFloat fr) (PyFloat fc) = Ok (empty_plate R C) /\
     PlateSet_init (PyInt R) (PyInt C) = Ok (empty_plate R C)) /\
  (forall p, PlateSet_init (PyFloat fr) (PyFloat fc) = Ok p ->
     exists R C, float_eq_int fr R = true /\ float_eq_int fc C = true /\
                 p = empty_plate R C) /\
  (forall e, PlateSet_init (PyFloat fr) (PyFloat fc) = Raise e ->
     e = TypeError InitNonFloatLike \/ e = OverflowError \/ e = ValueError Builtin).
Proof.
  split_and!.
  - intros R C HR HC. split; [|apply PlateSet_init_int].
    apply init_after_check. unfold check_dims.
    rewrite (float_eq_int_to_int fr R HR), (float_eq_int_to_int fc C HC).
    cbn [res_bind]. by rewrite HR, HC.
  - intros p Hp.
    destruct (float_to_int fr) as [ir|e1] eqn:Hir;
      [|unfold PlateSet_init, check_dims in Hp; by rewrite Hir in Hp].
    destruct (float_eq_int fr ir) eqn:Her;
      [|unfold PlateSet_init, check_dims in Hp; by rewrite Hir, ?Her in Hp;
        cbn [res_bind negb] in Hp; rewrite ?Her in Hp].
    destruct (float_to_int fc) as [ic|e2] eqn:Hic;
      [|unfold PlateSet_init, check_dims in Hp; rewrite Hir in Hp;
        cbn [res_bind] in Hp; rewrite Her in Hp; cbn [negb] in Hp;
        by rewrite Hic in Hp].
    destruct (float_eq_int fc ic) eqn:Hec;
      [|unfold PlateSet_init, check_dims in Hp; rewrite Hir in Hp;
        cbn [res_bind] in Hp; rewrite Her in Hp; cbn [negb] in Hp;
        rewrite Hic in Hp; cbn [res_bind] in Hp; by rewrite Hec in Hp].
    exists ir, ic. split; [done|]. split; [done|].
    rewrite (init_after_check (PyFloat fr) (PyFloat fc) ir ic) in Hp; [by injection Hp|].
    unfold check_dims. rewrite Hir. cbn [res_bind]. rewrite Her. cbn [negb].
    rewrite Hic. cbn [res_bind]. by rewrite Hec.
  - intros e He. unfold PlateSet_init, check_dims in He.
    destruct (float_to_int fr) as [ir|e1] eqn:Hir.
    + cbn [res_bind] in He. destruct (float_eq_int fr ir) eqn:Her; cbn [negb] in He.
      * destruct (float_to_int fc) as [ic|e2] eqn:Hic.
        -- cbn [res_bind] in He. destruct (float_eq_int fc ic) eqn:Hec; cbn [negb] in He.
           ++ exfalso.
              assert (Hok : PlateSet_init (PyFloat fr) (PyFloat fc) = Ok (empty_plate ir ic)).
              { apply init_after_check. unfold check_dims. rewrite Hir. cbn [res_bind].
                rewrite Her. cbn [negb]. rewrite Hic. cbn [res_bind]. by rewrite Hec. }
              unfold PlateSet_init, check_dims in Hok. rewrite Hir in Hok.
              cbn [res_bind] in Hok. rewrite Her in Hok. cbn [negb] in Hok.
              rewrite Hic in Hok. cbn [res_bind] in Hok. rewrite Hec in Hok.
              cbn [negb] in Hok. congruence.
           ++ cbn [res_bind] in He. left. congruence.
        -- cbn [res_bind] in He. injection He as <-.
           destruct fc as [s|s| |s m ex]; simpl in Hic; try done;
             injection Hic as <-; auto.
      * cbn [res_bind] in He. left. congruence.
    + cbn [res_bind] in He. injection He as <-.
      destruct fr as [s|s| |s m ex]; simpl in Hir; try done;
        injection Hir as <-; auto.
Qed.

Lemma init_of_two_floats_witness :
  PlateSet_init (PyFloat (S754_finite false 1 1)) (PyFloat (S754_finite false 12 (-2)))
  = Ok (empty_plate 2 3).
Proof.
  apply (init_of_two_floats (S754_finite false 1 1) (S754_finite false 12 (-2)));
    reflexivity.
Defined.
